(** * GADMA: settings storage, dadi engine keyword arguments and the
      optimisation / restore contract

    A shallow embedding of
    - [gadma/engines/dadi_engine.py]  ([DadiEngine._get_kwargs],
      [DadiEngine._dadi_inner_func]),
    - [gadma/cli/settings_storage.py] ([SettingsStorage.__setattr__],
      [SettingsStorage.__getattr__], [SettingsStorage.from_file],
      [read_data], [read_bootstrap_data], the properties [inner_data]
      and [bootstrap_data], [get_linear_constrain_for_model],
      [get_model]),
    - the optimiser contract exercised by [tests/test_all.py].

    Python exceptions are modelled by an explicit result type, Python
    dictionaries by [gmap], Python floats by exact rationals. *)

From Stdlib Require Import ZArith QArith String Ascii List Lia.
From stdpp Require Import base option list gmap strings pretty.

(** ** Python exceptions and fallible computations *)

Inductive exn : Set :=
  | ValueError
  | TypeError
  | NameError
  | AttributeError
  | IndexError
  | UnboundLocalError
  | KeyError
  | OSError.

Global Instance exn_eq_dec : EqDecision exn.
Proof. solve_decision. Defined.

Inductive result (A : Type) : Type :=
  | Ok (a : A)
  | Raise (e : exn).
Arguments Ok {A} a.
Arguments Raise {A} e.

Global Instance result_ret : MRet result := λ A a, Ok a.
Global Instance result_bind : MBind result := λ A B k m,
  match m with
  | Ok a => k a
  | Raise e => Raise e
  end.

Definition is_Ok {A} (m : result A) : Prop := ∃ a, m = Ok a.

(** [for x in xs: acc = body(x, acc)], stopping at the first exception. *)
Fixpoint for_each {X D} (xs : list X) (body : X → D → result D) (d : D)
  : result D :=
  match xs with
  | [] => Ok d
  | x :: xs' => d' ← body x d; for_each xs' body d'
  end.

(** [range(n)]. *)
Definition range (n : nat) : list nat := seq 0 n.

(** [l[i]] on a Python list. *)
Definition index {A} (l : list A) (i : nat) : result A :=
  match l !! i with
  | Some a => Ok a
  | None => Raise IndexError
  end.

(** ** [gadma/engines/dadi_engine.py] *)

Module DadiEngine.

(** What an [Epoch] holds in its argument slots: a model variable, a
    fixed number, or a string such as ['Sud']; the strings
    ['nu%d_func'] that [_get_kwargs] writes are of the last kind. *)
Inductive arg : Set :=
  | AVar (name : string)
  | ANum (z : Z)
  | AStr (s : string).

Global Instance arg_eq_dec : EqDecision arg.
Proof. solve_decision. Defined.

Global Instance arg_countable : Countable arg.
Proof.
  refine (inj_countable'
    (λ a, match a with
          | AVar s => inl s
          | ANum z => inr (inl z)
          | AStr s => inr (inr s)
          end)
    (λ c, match c with
          | inl s => AVar s
          | inr (inl z) => ANum z
          | inr (inr s) => AStr s
          end) _).
  by intros [].
Defined.

(** [event.Epoch], with the attributes [_get_kwargs] reads. *)
Record Epoch : Type := {
  n_pop : nat;
  time_arg : arg;
  size_args : list arg;
  dyn_args : option (list arg);
  mig_args : option (list (list arg));
  sel_args : option (list arg);
}.

(** ['nu'] or ['nu%d' % (i+1)]. *)
Definition nu_name (n i : nat) : string :=
  if decide (n = 1) then "nu" else "nu" +:+ pretty (i + 1).

(** ['nu%d_func' % (i+1)]. *)
Definition nu_func_name (i : nat) : string :=
  "nu" +:+ pretty (i + 1) +:+ "_func".

(** ['m%d%d' % (i+1, j+1)]. *)
Definition m_name (i j : nat) : string :=
  "m" +:+ pretty (i + 1) +:+ pretty (j + 1).

(** ['gamma'] or ['gamma%d' % (i+1)]. *)
Definition gamma_name (n i : nat) : string :=
  if decide (n = 1) then "gamma" else "gamma" +:+ pretty (i + 1).

(** [var2value.get(a, a)]. *)
Definition get_default (var2value : gmap arg arg) (a : arg) : arg :=
  default a (var2value !! a).

(** Body of the first loop (lines 37-50). *)
Definition size_body (event : Epoch) (var2value : gmap arg arg)
    (i : nat) (ret_dict : gmap string arg) : result (gmap string arg) :=
  let arg_name := nu_name (n_pop event) i in
  match dyn_args event with
  | Some dyn =>
      dyn_arg ← index dyn i;
      if decide (get_default var2value dyn_arg = AStr "Sud") then
        s ← index (size_args event) i;
        Ok (<[arg_name := s]> ret_dict)
      else
        Ok (<[arg_name := AStr (nu_func_name i)]> ret_dict)
  | None =>
      s ← index (size_args event) i;
      Ok (<[arg_name := s]> ret_dict)
  end.

(** Body of the migration loops (lines 53-57). *)
Definition mig_body (event : Epoch) (mig : list (list arg))
    (i : nat) (ret_dict : gmap string arg) : result (gmap string arg) :=
  for_each (range (n_pop event))
    (λ j d,
       if decide (i = j) then Ok d
       else
         row ← index mig i;
         m ← index row j;
         Ok (<[m_name i j := m]> d))
    ret_dict.

(** The value of the loop variable [i] once the loops over
    [range(n_pop)] are done: unbound when they never ran. *)
Definition last_i (event : Epoch) : result nat :=
  match n_pop event with
  | 0 => Raise UnboundLocalError
  | S k => Ok k
  end.

(** Lines 58-64. *)
Definition sel_part (event : Epoch) (ret_dict : gmap string arg)
    : result (gmap string arg) :=
  match sel_args event with
  | None => Ok ret_dict
  | Some sel =>
      arg_name ←
        (if decide (n_pop event = 1) then Ok "gamma"
         else i ← last_i event; Ok ("gamma" +:+ pretty (i + 1)));
      for_each (range (n_pop event))
        (λ i d, s ← index sel i; Ok (<[arg_name := s]> d))
        ret_dict
  end.

Definition _get_kwargs (event : Epoch) (var2value : gmap arg arg)
    : result (gmap string arg) :=
  let ret_dict : gmap string arg := {[ "T" := time_arg event ]} in
  ret_dict ← for_each (range (n_pop event))
               (size_body event var2value) ret_dict;
  ret_dict ←
    match mig_args event with
    | Some mig => for_each (range (n_pop event)) (mig_body event mig) ret_dict
    | None => Ok ret_dict
    end;
  sel_part event ret_dict.

(** An [Epoch] over [n_pop >= 1] populations carries one size per
    population, one dynamic per population when it has dynamics, an
    [n_pop] x [n_pop] migration matrix when it has migrations and one
    selection coefficient per population when it has selection. *)
Definition epoch_wf (event : Epoch) : Prop :=
  1 ≤ n_pop event ∧
  length (size_args event) = n_pop event ∧
  (∀ dyn, dyn_args event = Some dyn → length dyn = n_pop event) ∧
  (∀ mig, mig_args event = Some mig →
     length mig = n_pop event ∧ Forall (λ row, length row = n_pop event) mig) ∧
  (∀ sel, sel_args event = Some sel → length sel = n_pop event).

(** Three populations with migrations, the second one growing. *)
Definition epoch3 : Epoch := {|
  n_pop := 3;
  time_arg := AVar "t1";
  size_args := [AVar "nu1"; AVar "nu2"; ANum 1];
  dyn_args := Some [AStr "Sud"; AVar "dyn2"; AStr "Sud"];
  mig_args := Some [[ANum 0; AVar "m12"; AVar "m13"];
                    [AVar "m21"; ANum 0; AVar "m23"];
                    [AVar "m31"; AVar "m32"; ANum 0]];
  sel_args := None;
|}.

(** An epoch of [n] populations whose every slot holds a fixed number. *)
Definition flat_epoch (n : nat) : Epoch := {|
  n_pop := n;
  time_arg := ANum 1;
  size_args := replicate n (ANum 1);
  dyn_args := None;
  mig_args := Some (replicate n (replicate n (ANum 0)));
  sel_args := None;
|}.

(** The populations below [n], each with its decimal label. *)
Definition labelled (n : nat) : list (nat * string) :=
  (λ i, (i, pretty (i + 1))) <$> range n.

(** Does the label of some ordered pair of distinct populations below
    [n] read like the label of a pair [(c, c)]? *)
Definition self_label_clash (n : nat) : bool :=
  let ls := labelled n in
  existsb (λ c,
    existsb (λ a,
      existsb (λ b,
        negb (Nat.eqb a.1 b.1) && String.eqb (a.2 +:+ b.2) (c.2 +:+ c.2))
        ls) ls) ls.

End DadiEngine.

(** ** [gadma/engines/dadi_engine.py]: the simulation *)

Module DadiSimulate.
Import DadiEngine.

(** The events of a demographic model: an [Epoch] with its initial
    sizes, a [Split] of one of [n_pop] populations, or something
    else. *)
Inductive event : Type :=
  | EpochEvent (e : Epoch) (init_size_args : list arg)
  | SplitEvent (n_pop pop_to_div : nat)
  | OtherEvent.

(** What line 96 stores: the function that
    [DynamicVariable.get_func_from_value] has for a dynamic, applied to
    the sizes at the two ends of the epoch and to its length. *)
Record size_func : Type := SizeFunc {
  dynamic_func : string;
  y1 : arg;
  y2 : arg;
  x_diff : arg;
}.

(** What [dadi.Integration] gets under a keyword. *)
Inductive kwarg : Type :=
  | KValue (a : arg)
  | KFunc (f : size_func).

(** [dadi] and [DynamicVariable] are not part of the file. *)
Record Dadi (Grid Phi Sfs : Type) : Type := {
  get_func_from_value : arg → result string;
  default_grid : arg → result Grid;
  phi_1D : Grid → result Phi;
  one_pop : Phi → Grid → gmap string kwarg → result Phi;
  two_pops : Phi → Grid → gmap string kwarg → result Phi;
  three_pops : Phi → Grid → gmap string kwarg → result Phi;
  phi_1D_to_2D : Grid → Phi → result Phi;
  (** [getattr(dadi.PhiManip, func_name)]. *)
  PhiManip : string → option (Grid → Phi → result Phi);
  from_phi : Phi → list nat → list Grid → result Sfs;
}.
Arguments get_func_from_value {Grid Phi Sfs}.
Arguments default_grid {Grid Phi Sfs}.
Arguments phi_1D {Grid Phi Sfs}.
Arguments one_pop {Grid Phi Sfs}.
Arguments two_pops {Grid Phi Sfs}.
Arguments three_pops {Grid Phi Sfs}.
Arguments phi_1D_to_2D {Grid Phi Sfs}.
Arguments PhiManip {Grid Phi Sfs}.
Arguments from_phi {Grid Phi Sfs}.

Section with_dadi.
Context {Grid Phi Sfs : Type} (dadi : Dadi Grid Phi Sfs).

(** Lines 86-99 for population [i]. *)
Definition func_body (e : Epoch) (init_size_args dyn : list arg)
    (var2value : gmap arg arg) (i : nat)
    (addit_values : gmap string size_func)
    : result (gmap string size_func) :=
  dyn_arg ← index dyn i;
  let value := get_default var2value dyn_arg in
  if decide (value = AStr "Sud") then Ok addit_values
  else
    func ← get_func_from_value dadi value;
    init ← index init_size_args i;
    size ← index (size_args e) i;
    Ok (<[nu_func_name i :=
            SizeFunc func (get_default var2value init)
              (get_default var2value size)
              (get_default var2value (time_arg e))]> addit_values).

(** Lines 101-104 for one value [y] of [kwargs_with_vars]: the value
    of the variable, then the function stored under that value. *)
Definition substitute (var2value : gmap arg arg)
    (addit_values : gmap string size_func) (y : arg) : kwarg :=
  match get_default var2value y with
  | AStr s =>
      match addit_values !! s with
      | Some f => KFunc f
      | None => KValue (AStr s)
      end
  | y' => KValue y'
  end.

Definition substitute_all (var2value : gmap arg arg)
    (addit_values : gmap string size_func)
    (kwargs_with_vars : gmap string arg) : gmap string kwarg :=
  substitute var2value addit_values <$> kwargs_with_vars.

(** Lines 84-104: the keyword arguments for an epoch, and
    [addit_values] as the epoch leaves it. *)
Definition epoch_kwargs (e : Epoch) (init_size_args : list arg)
    (var2value : gmap arg arg) (addit_values : gmap string size_func)
    : result (gmap string kwarg * gmap string size_func) :=
  addit_values ←
    match dyn_args e return result (gmap string size_func) with
    | Some dyn =>
        for_each (range (n_pop e))
          (func_body e init_size_args dyn var2value) addit_values
    | None => Ok addit_values
    end;
  kwargs_with_vars ← _get_kwargs e var2value;
  Ok (substitute_all var2value addit_values kwargs_with_vars, addit_values).

(** Lines 105-110. *)
Definition integrate (n_pop : nat) (phi : Phi) (xx : Grid)
    (kwargs : gmap string kwarg) : result Phi :=
  phi ← (if decide (n_pop = 1) then one_pop dadi phi xx kwargs else Ok phi);
  phi ← (if decide (n_pop = 2) then two_pops dadi phi xx kwargs else Ok phi);
  if decide (n_pop = 3) then three_pops dadi phi xx kwargs else Ok phi.

(** ["phi_%dD_to_%dD_split_%d" % (n_pop, n_pop + 1, pop_to_div + 1)]. *)
Definition split_name (n_pop pop_to_div : nat) : string :=
  "phi_" +:+ pretty n_pop +:+ "D_to_" +:+ pretty (n_pop + 1)
  +:+ "D_split_" +:+ pretty (pop_to_div + 1).

(** Lines 83-117 for one event, on [phi] and [addit_values]. *)
Definition event_step (xx : Grid) (var2value : gmap arg arg) (ev : event)
    (acc : Phi * gmap string size_func)
    : result (Phi * gmap string size_func) :=
  let '(phi, addit_values) := acc in
  match ev with
  | EpochEvent e init_size_args =>
      '(kwargs, addit_values) ←
        epoch_kwargs e init_size_args var2value addit_values;
      phi ← integrate (n_pop e) phi xx kwargs;
      Ok (phi, addit_values)
  | SplitEvent n_pop pop_to_div =>
      if decide (n_pop = 1) then
        phi ← phi_1D_to_2D dadi xx phi; Ok (phi, addit_values)
      else
        match PhiManip dadi (split_name n_pop pop_to_div) with
        | Some split => phi ← split xx phi; Ok (phi, addit_values)
        | None => Raise AttributeError
        end
  | OtherEvent => Ok acc
  end.

(** [self.model.events] and [self.model.var2value(values)] are given
    as [events] and [var2value]. *)
Definition _dadi_inner_func (events : list event) (var2value : gmap arg arg)
    (ns : list nat) (pts : arg) : result Sfs :=
  xx ← default_grid dadi pts;
  phi ← phi_1D dadi xx;
  '(phi, _) ← for_each events (event_step xx var2value) (phi, ∅);
  from_phi dadi phi ns (replicate (length ns) xx).

End with_dadi.

(** A [dadi] that only records the names of the dynamics. *)
Definition example_dadi : Dadi unit unit unit := {|
  get_func_from_value := λ value,
    match value with AStr s => Ok s | _ => Raise ValueError end;
  default_grid := λ _, Ok ();
  phi_1D := λ _, Ok ();
  one_pop := λ _ _ _, Ok ();
  two_pops := λ _ _ _, Ok ();
  three_pops := λ _ _ _, Ok ();
  phi_1D_to_2D := λ _ _, Ok ();
  PhiManip := λ _, None;
  from_phi := λ _ _ _, Ok ();
|}.

(** Values for the variables of [epoch3]. *)
Definition epoch3_values : gmap arg arg :=
  {[ AVar "t1" := ANum 5; AVar "nu1" := ANum 2; AVar "nu2" := ANum 3;
     AVar "dyn2" := AStr "Exp" ]}.

End DadiSimulate.

(** ** Python values *)

Module Py.

#[local] Set Warnings "-register-all".

(** The values a setting can take: [None], booleans, integers, floats
    (exact rationals here), strings, lists, and objects of no interest
    but their identity (functions, modules). *)
Inductive pyval : Type :=
  | VNone
  | VBool (b : bool)
  | VInt (z : Z)
  | VFloat (q : Q)
  | VStr (s : string)
  | VList (l : list pyval)
  | VOpaque (id : string).

(** [v is None]. *)
Definition is_none (v : pyval) : bool :=
  match v with VNone => true | _ => false end.

(** [isinstance(v, (int, np.integer))]; [bool] is a subclass of [int]. *)
Definition is_int (v : pyval) : bool :=
  match v with VInt _ | VBool _ => true | _ => false end.

(** [isinstance(v, bool)]. *)
Definition is_bool (v : pyval) : bool :=
  match v with VBool _ => true | _ => false end.

(** [isinstance(v, float)]. *)
Definition is_float (v : pyval) : bool :=
  match v with VFloat _ => true | _ => false end.

(** [isinstance(v, str)]. *)
Definition is_str (v : pyval) : bool :=
  match v with VStr _ => true | _ => false end.

(** The number a numeric value stands for. *)
Definition num_of (v : pyval) : option Q :=
  match v with
  | VBool b => Some (if b then 1 else 0)%Q
  | VInt z => Some (inject_Z z)
  | VFloat q => Some q
  | _ => None
  end.

(** The integer an [int] or [bool] stands for. *)
Definition int_of (v : pyval) : option Z :=
  match v with
  | VBool b => Some (if b then 1 else 0)%Z
  | VInt z => Some z
  | _ => None
  end.

(** [a == b]. *)
Fixpoint py_eq (a b : pyval) : bool :=
  match a, b with
  | VNone, VNone => true
  | VStr s, VStr t => String.eqb s t
  | VOpaque s, VOpaque t => String.eqb s t
  | VList l, VList m =>
      (fix go (l m : list pyval) : bool :=
         match l, m with
         | [], [] => true
         | x :: l', y :: m' => py_eq x y && go l' m'
         | _, _ => false
         end) l m
  | _, _ =>
      match num_of a, num_of b with
      | Some p, Some q => Qeq_bool p q
      | _, _ => false
      end
  end.

(** [a < b], [a <= b], [a > b] between numbers; anything else is a
    [TypeError]. *)
Definition py_cmp (test : Q → Q → bool) (a b : pyval) : result bool :=
  match num_of a, num_of b with
  | Some p, Some q => Ok (test p q)
  | _, _ => Raise TypeError
  end.
Definition Qlt_bool (p q : Q) : bool := negb (Qle_bool q p).
Definition py_lt := py_cmp Qlt_bool.
Definition py_le := py_cmp Qle_bool.
Definition py_gt := py_cmp (λ p q, Qlt_bool q p).

(** [a + b], [a - b], [a * b] between numbers: an [int] when both are
    [int]s, a [float] otherwise. *)
Definition num_arith (zop : Z → Z → Z) (qop : Q → Q → Q) (a b : pyval)
    : result pyval :=
  match int_of a, int_of b with
  | Some x, Some y => Ok (VInt (zop x y))
  | _, _ =>
      match num_of a, num_of b with
      | Some p, Some q => Ok (VFloat (qop p q))
      | _, _ => Raise TypeError
      end
  end.

Fixpoint repeat_string (s : string) (n : nat) : string :=
  match n with
  | 0 => EmptyString
  | S n' => s +:+ repeat_string s n'
  end.

(** [a + b]: numbers, or two strings, or two lists. *)
Definition py_add (a b : pyval) : result pyval :=
  match a, b with
  | VStr s, VStr t => Ok (VStr (s +:+ t))
  | VList l, VList m => Ok (VList (l ++ m))
  | _, _ => num_arith Z.add Qplus a b
  end.

Definition py_sub := num_arith Z.sub Qminus.

(** [a * b]: numbers, or a string or list repeated an [int] number of
    times. *)
Definition py_mul (a b : pyval) : result pyval :=
  match a, int_of b, b, int_of a with
  | VStr s, Some n, _, _ => Ok (VStr (repeat_string s (Z.to_nat n)))
  | VList l, Some n, _, _ => Ok (VList (mjoin (replicate (Z.to_nat n) l)))
  | _, _, VStr s, Some n => Ok (VStr (repeat_string s (Z.to_nat n)))
  | _, _, VList l, Some n => Ok (VList (mjoin (replicate (Z.to_nat n) l)))
  | _, _, _, _ => num_arith Z.mul Qmult a b
  end.

(** [sum(v)]: the elements of a list added to [0] from left to right. *)
Definition py_sum (v : pyval) : result pyval :=
  match v with
  | VList l => for_each l (λ x acc, py_add acc x) (VInt 0)
  | _ => Raise TypeError
  end.

(** [int(v)]: truncation towards zero for a number; a string is parsed
    by [parse], and [ValueError] is raised when it does not read as an
    integer. *)
Definition py_int (parse : string → option Z) (v : pyval) : result Z :=
  match v with
  | VBool b => Ok (if b then 1 else 0)%Z
  | VInt z => Ok z
  | VFloat q => Ok (Z.quot (Qnum q) (Zpos (Qden q)))
  | VStr s => match parse s with Some z => Ok z | None => Raise ValueError end
  | _ => Raise TypeError
  end.

(** [len(v)]. *)
Definition py_len (v : pyval) : result nat :=
  match v with
  | VList l => Ok (length l)
  | VStr s => Ok (String.length s)
  | _ => Raise TypeError
  end.

(** [v[i]] for [i >= 0]. *)
Definition py_index (v : pyval) (i : nat) : result pyval :=
  match v with
  | VList l => index l i
  | VStr s =>
      match String.get i s with
      | Some c => Ok (VStr (String c EmptyString))
      | None => Raise IndexError
      end
  | _ => Raise TypeError
  end.

(** *** Strings *)

(** [s.split(c)] for a one-character separator. *)
Fixpoint split_on (c : ascii) (s : string) : list string :=
  match s with
  | EmptyString => [EmptyString]
  | String a s' =>
      if Ascii.eqb a c then EmptyString :: split_on c s'
      else match split_on c s' with
           | h :: t => String a h :: t
           | [] => [String a EmptyString]
           end
  end.

Definition is_white (a : ascii) : bool :=
  let n := nat_of_ascii a in
  Nat.eqb n 32 || (Nat.leb 9 n && Nat.leb n 13).

Fixpoint lstrip (s : string) : string :=
  match s with
  | String a s' => if is_white a then lstrip s' else s
  | EmptyString => EmptyString
  end.

(** [s.strip()], ASCII white space. *)
Definition strip (s : string) : string :=
  String.rev (lstrip (String.rev (lstrip s))).

Definition lower_ascii (a : ascii) : ascii :=
  let n := nat_of_ascii a in
  if Nat.leb 65 n && Nat.leb n 90 then ascii_of_nat (n + 32) else a.

(** [s.lower()], ASCII letters. *)
Fixpoint lower (s : string) : string :=
  match s with
  | String a s' => String (lower_ascii a) (lower s')
  | EmptyString => EmptyString
  end.

(** [s.replace(c, "_")] for a one-character [c]. *)
Fixpoint replace_char (c : ascii) (s : string) : string :=
  match s with
  | String a s' =>
      String (if Ascii.eqb a c then "_"%char else a) (replace_char c s')
  | EmptyString => EmptyString
  end.

(** [s.replace("__", "_")]. *)
Fixpoint squeeze (s : string) : string :=
  match s with
  | String a ((String b s'') as s') =>
      if Ascii.eqb a "_" && Ascii.eqb b "_" then String "_" (squeeze s'')
      else String a (squeeze s')
  | _ => s
  end.

(** [name in names]. *)
Definition mem (name : string) (names : list string) : bool :=
  existsb (String.eqb name) names.

End Py.

(** ** [gadma/cli/settings_storage.py] *)

Module Settings.
Import Py.

(** *** What the file takes from elsewhere

    The module [settings] with the default values, the [utils] helpers
    that look at the file system, the engine and optimiser registries,
    [SFSDataHolder], YAML loading and Python's [int()] / [float()] on
    strings are not part of the file: they are parameters here. *)
Record Env : Type := {
  (** [hasattr(settings, name)] / [getattr(settings, name)]. *)
  defaults : gmap string pyval;
  (** [settings.P_IDS]: first letter of an identifier to the name of its
      variable class. *)
  P_IDS : list (string * string);
  ensure_dir_existence : pyval → result pyval;
  ensure_file_existence : pyval → result pyval;
  check_dir_existence : pyval → result pyval;
  get_engine : pyval → result unit;
  get_local_optimizer : pyval → result unit;
  (** [SFSDataHolder(input_file, projections, outgroup, population_labels,
      sequence_length)]: the attributes of the new object. *)
  SFSDataHolder : pyval → pyval → pyval → pyval → pyval →
                  result (gmap string pyval);
  (** Loading the module at a path and reading its [model_func]. *)
  load_model_func : pyval → result (option pyval);
  (** The identifiers on the line after [def model_func] of a file. *)
  identifiers_in_file : pyval → result (option (list string));
  parse_int : string → option Z;
  parse_float : string → option Q;
  (** [ruamel.yaml.load] of the file at a path, keys in file order. *)
  load_yaml : pyval → result (list (string * pyval));
}.

(** *** The names bound in the module

    Imports and assignments at the top level of the file, lines 2-38. *)
Definition module_globals : list string :=
  [ "os"; "ruamel"; "np"; "settings"; "SFSDataHolder"; "get_engine";
    "MomentsEngine"; "StructureDemographicModel"; "CustomDemographicModel";
    "get_local_optimizer"; "get_global_optimizer";
    "LinearConstrainDemographics"; "LinearConstrain";
    "ensure_dir_existence"; "ensure_file_existence"; "check_dir_existence";
    "custom_generator"; "warnings"; "importlib"; "sys"; "copy";
    "HOME_DIR"; "PARAM_TEMPLATE"; "EXTRA_PARAM_TEMPLATE";
    "CHANGED_IDENTIFIERS"; "DEPRECATED_IDENTIFIERS"; "SettingsStorage" ].

(** Reading a name that is neither local nor a builtin: the object the
    module binds it to, if any. *)
Definition load_global (name : string) : result pyval :=
  if mem name module_globals then Ok (VOpaque name) else Raise NameError.

Definition CHANGED_IDENTIFIERS : list (string * string) :=
  [ ("use_moments_or_dadi", "engine");
    ("size_of_population_in_ga", "size_of_generation");
    ("fractions_in_ga", "fractions");
    ("epsilon", "eps");
    ("stop_iteration", "stuck_generation_number");
    ("name_of_local_optimization", "local_optimizer") ].

Definition DEPRECATED_IDENTIFIERS : list string :=
  [ "multinom"; "verbose"; "flush_delay"; "epsilon_for_ls"; "gtol";
    "maxiter"; "multinomial_mutation"; "multinomial_crossing";
    "distribution"; "std"; "mean_mutation_rate_for_hc";
    "const_for_mutation_rate_for_hc"; "stop_iteration_for_hc" ].

(** *** The lists of [__setattr__], lines 41-75 *)

Definition int_attrs : list string :=
  [ "stuck_generation_number"; "sequence_length"; "verbose";
    "print_models_code_every_n_iteration"; "n_elitism";
    "draw_models_every_n_iteration"; "size_of_generation";
    "number_of_repeats"; "number_of_processes"; "number_of_populations";
    "time_to_print_summary" ].
Definition float_attrs : list string :=
  [ "theta0"; "time_for_generation"; "eps"; "const_of_time_in_drawing";
    "vmin"; "min_n"; "max_n"; "min_t"; "max_t"; "min_m"; "max_m";
    "upper_bound_of_first_split"; "upper_bound_of_second_split" ].
Definition probs_attrs : list string :=
  [ "mean_mutation_strength"; "mean_mutation_rate"; "p_mutation";
    "p_crossover"; "p_random" ].
Definition bool_attrs : list string :=
  [ "outgroup"; "linked_snp_s"; "only_sudden"; "no_migrations"; "silence";
    "test"; "random_n_a"; "relative_parameters" ].
Definition int_list_attrs : list string :=
  [ "pts"; "initial_structure"; "final_structure"; "projections" ].
Definition float_list_attrs : list string := [ "lower_bound"; "upper_bound" ].
Definition probs_list_attrs : list string := [ "fractions" ].
Definition attrs_with_equal_len : list string :=
  [ "initial_structure"; "final_structure"; "population_labels";
    "projections" ].
Definition special_attrs : list string :=
  [ "const_for_mutation_strength"; "const_for_mutation_rate"; "vmin";
    "parameter_identifiers" ].
Definition exist_file_attrs : list string := [ "input_file"; "custom_filename" ].
Definition exist_dir_attrs : list string := [ "directory_with_bootstrap" ].
Definition empty_dir_attrs : list string := [ "output_directory" ].
Definition data_holder_attrs : list string :=
  [ "projections"; "outgroup"; "population_labels"; "sequence_length" ].
Definition bounds_attrs : list string :=
  [ "min_n"; "max_n"; "min_t"; "max_t"; "min_m"; "max_m" ].
Definition bounds_lists : list string :=
  [ "lower_bound"; "upper_bound"; "parameter_identifiers" ].
Definition missed_attrs : list string :=
  [ "engine"; "local_optimizer"; "_inner_data"; "_bootstrap_data"; "X_init";
    "Y_init"; "model_func"; "get_engine_args" ].

(** The test of lines 82-92 with [super_hasattr] false: [object] has no
    [__getattr__], so the [try] of lines 78-81 always ends in the
    [except] branch. *)
Definition recognized (name : string) : bool :=
  mem name int_attrs || mem name float_attrs || mem name probs_attrs ||
  mem name bool_attrs || mem name attrs_with_equal_len ||
  mem name int_list_attrs || mem name probs_list_attrs ||
  mem name special_attrs || mem name exist_file_attrs ||
  mem name exist_dir_attrs || mem name empty_dir_attrs ||
  mem name data_holder_attrs || mem name bounds_attrs ||
  mem name missed_attrs || mem name bounds_lists.

(** *** State *)

Inductive warning : Type :=
  | WEnginePts
  | WNoTimeForGeneration
  | WDomainChanged (cls : string) (domain : option (list pyval))
  | WBeforeCustomFilename (name : string) (ignored : bool)
  | WStructureIgnored (name : string)
  | WRenamed (key : string)
  | WDeprecated (key : string).

(** One [SettingsStorage] object and the process-wide state around it:
    the [default_domain] list of each variable class and the warnings
    issued so far. *)
Record state : Type := State {
  attrs : gmap string pyval;
  data_holder : option (gmap string pyval);
  domains : gmap string (list pyval);
  warned : list warning;
}.

Definition set_attrs (f : gmap string pyval → gmap string pyval) (st : state) :=
  State (f (attrs st)) (data_holder st) (domains st) (warned st).
Definition set_data_holder (h : option (gmap string pyval)) (st : state) :=
  State (attrs st) h (domains st) (warned st).
Definition set_domains (f : gmap string (list pyval) → gmap string (list pyval))
    (st : state) :=
  State (attrs st) (data_holder st) (f (domains st)) (warned st).
Definition add_warning (w : warning) (st : state) :=
  State (attrs st) (data_holder st) (domains st) (warned st ++ [w]).

(** Statements: they end normally or in an exception, and the state
    they reached stays in either case. *)
Definition M (A : Type) : Type := state → result A * state.

Definition ret {A} (a : A) : M A := λ st, (Ok a, st).
Definition raise {A} (e : exn) : M A := λ st, (Raise e, st).
Definition bind {A B} (m : M A) (k : A → M B) : M B :=
  λ st, match m st with
        | (Ok a, st') => k a st'
        | (Raise e, st') => (Raise e, st')
        end.
Global Instance M_ret : MRet M := @ret.
Global Instance M_bind : MBind M := λ A B k m, bind m k.

Definition lift {A} (r : result A) : M A := λ st, (r, st).
Definition get : M state := λ st, (Ok st, st).
Definition modify (f : state → state) : M unit := λ st, (Ok (), f st).

(** [try: m  except <the exceptions selected by [catches]>: handler]. *)
Definition try_except {A} (m : M A) (catches : exn → bool) (handler : M A)
    : M A :=
  λ st, match m st with
        | (Raise e, st') => if catches e then handler st' else (Raise e, st')
        | r => r
        end.

Fixpoint forM {X} (xs : list X) (body : X → M unit) : M unit :=
  match xs with
  | [] => ret ()
  | x :: xs' => _ ← body x; forM xs' body
  end.

(** [super(SettingsStorage, self).__setattr__(name, value)]. *)
Definition super_setattr (name : string) (value : pyval) : M unit :=
  modify (set_attrs (insert name value)).

(** [warnings.warn(...)]. *)
Definition warn (w : warning) : M unit := modify (add_warning w).

Section with_env.
Context (E : Env).

(** *** Reading attributes: normal lookup, then [__getattr__] *)

(** An attribute without a computed default (lines 370-378 and 436):
    the instance dictionary, else the module [settings]. *)
Definition lookup_attr (st : state) (name : string) : result pyval :=
  match attrs st !! name with
  | Some v => Ok v
  | None =>
      match defaults E !! name with
      | Some v => Ok v
      | None => Raise AttributeError
      end
  end.

(** [hasattr(self, name)] for such an attribute. *)
Definition has_attr (st : state) (name : string) : bool :=
  match lookup_attr st name with Ok _ => true | Raise _ => false end.

(** [[settings.initial_structure_unit for _ in range(n)]]. *)
Definition structure_units (n : pyval) : result pyval :=
  match int_of n with
  | Some z =>
      match Z.to_nat z with
      | 0 => Ok (VList [])
      | S k =>
          match defaults E !! "initial_structure_unit" with
          | Some u => Ok (VList (replicate (S k) u))
          | None => Raise AttributeError
          end
      end
  | None => Raise TypeError
  end.

(** [self.initial_structure] (lines 380-383). *)
Definition get_initial_structure (st : state) : result pyval :=
  match attrs st !! "initial_structure" with
  | Some v => Ok v
  | None =>
      match defaults E !! "initial_structure" with
      | None => Raise AttributeError
      | Some VNone =>
          custom_filename ← lookup_attr st "custom_filename";
          if is_none custom_filename then
            if has_attr st "number_of_populations" then
              n ← lookup_attr st "number_of_populations";
              structure_units n
            else Ok VNone
          else Ok VNone
      | Some v => Ok v
      end
  end.

(** [self.final_structure] (lines 384-385). *)
Definition get_final_structure (st : state) : result pyval :=
  match attrs st !! "final_structure" with
  | Some v => Ok v
  | None =>
      match defaults E !! "final_structure" with
      | None => Raise AttributeError
      | Some VNone =>
          custom_filename ← lookup_attr st "custom_filename";
          if is_none custom_filename then get_initial_structure st
          else Ok VNone
      | Some v => Ok v
      end
  end.

(** [getattr(self, name)] for every name but [parameter_identifiers],
    [lower_bound] and [upper_bound], whose defaults may write to the
    object (see [getattr_full]). *)
Definition getattr (st : state) (name : string) : result pyval :=
  if String.eqb name "initial_structure" then get_initial_structure st
  else if String.eqb name "final_structure" then get_final_structure st
  else lookup_attr st name.

Definition read (name : string) : M pyval :=
  st ← get; lift (getattr st name).

(** *** [__setattr__]: the base checks *)

(** Lines 99-102. *)
Definition wrap_structure (name : string) (value : pyval) : M pyval :=
  if (String.eqb name "initial_structure" || String.eqb name "final_structure")
     && is_int value
  then _ ← super_setattr name (VList [value]); ret (VList [value])
  else ret value.

(** Lines 106-115 (no [numpy] array among the values). *)
Definition we_check (name : string) (value : pyval) : bool :=
  match defaults E !! name with
  | Some default_value => negb (py_eq default_value value)
  | None => true
  end.

(** 1.1, lines 120-123. *)
Definition check_int (value : pyval) : M unit :=
  if negb (is_int value) then raise ValueError
  else
    negative ← lift (py_lt value (VInt 0));
    if negative : bool then raise ValueError else ret ().

(** 1.2, lines 126-131; [np.float] is [float]. *)
Definition check_float (name : string) (value : pyval) : M unit :=
  if negb (is_int value || is_float value) then raise ValueError
  else if mem name probs_attrs then
    low ← lift (py_lt value (VInt 0));
    if low : bool then raise ValueError
    else
      high ← lift (py_gt value (VInt 1));
      if high : bool then raise ValueError else ret ()
  else ret ().

(** 1.3, lines 134-135. *)
Definition check_bool (value : pyval) : M unit :=
  if negb (is_bool value) then raise ValueError else ret ().

(** 1.4, lines 138-153. *)
Definition check_int_list (name : string) (value : pyval) : M pyval :=
  value ←
    match value with
    | VStr s =>
        match mapM (parse_int E) (split_on "," s) with
        | Some zs =>
            _ ← super_setattr name (VList (VInt <$> zs));
            ret (VList (VInt <$> zs))
        | None => raise ValueError
        end
    | _ => ret value
    end;
  match value with
  | VList l =>
      _ ← forM l (λ val,
             if negb (is_int val) then raise ValueError
             else
               negative ← lift (py_lt val (VInt 0));
               if negative : bool then raise ValueError else ret ());
      ret value
  | _ => raise ValueError
  end.

(** [float(x)]. *)
Definition py_float (x : pyval) : option Q :=
  match x with
  | VStr s => parse_float E s
  | _ => num_of x
  end.

(** 1.5, lines 157-179. *)
Definition check_float_list (name : string) (value : pyval) : M pyval :=
  value ←
    match value with
    | VStr s =>
        match mapM (parse_float E) (split_on "," s) with
        | Some qs =>
            _ ← super_setattr name (VList (VFloat <$> qs));
            ret (VList (VFloat <$> qs))
        | None => raise ValueError
        end
    | _ => ret value
    end;
  match value with
  | VList l =>
      match mapM py_float l with
      | Some qs =>
          _ ← super_setattr name (VList (VFloat <$> qs));
          _ ← (if mem name probs_list_attrs then
                 forM qs (λ val,
                   if Qlt_bool val 0 || Qlt_bool 1 val then raise ValueError
                   else ret ())
               else ret ());
          ret (VList (VFloat <$> qs))
      | None => raise ValueError
      end
  | _ => raise ValueError
  end.

(** 1.6, lines 182-200. *)
Definition check_lengths (name : string) (value : pyval) : M unit :=
  let attrs_list :=
    if mem name attrs_with_equal_len then attrs_with_equal_len
    else bounds_attrs in
  _ ← forM attrs_list (λ attr_name,
         attr_value ← read attr_name;
         if is_none attr_value then ret ()
         else
           n ← lift (py_len value);
           m ← lift (py_len attr_value);
           if negb (Nat.eqb n m) then raise ValueError else ret ());
  if negb (mem name bounds_attrs) then
    st ← get;
    if has_attr st "number_of_populations" then
      current ← read name;
      n ← lift (py_len current);
      number_of_populations ← read "number_of_populations";
      if negb (py_eq (VInt (Z.of_nat n)) number_of_populations)
      then raise ValueError else ret ()
    else ret ()
  else ret ().

(** 1.7, lines 202-205. *)
Definition split_labels (name : string) (value : pyval) : M pyval :=
  match value with
  | VStr s =>
      if String.eqb name "population_labels" then
        _ ← super_setattr name (VList (VStr <$> split_on "," s));
        ret (VList (VStr <$> split_on "," s))
      else ret value
  | _ => ret value
  end.

(** 1.8 and 1.9, lines 208-216. *)
Definition check_paths (name : string) (value : pyval) : M pyval :=
  value ←
    (if mem name empty_dir_attrs then
       v ← lift (ensure_dir_existence E value);
       _ ← super_setattr name v; ret v
     else ret value);
  value ←
    (if mem name exist_file_attrs then
       v ← lift (ensure_file_existence E value);
       _ ← super_setattr name v; ret v
     else ret value);
  if mem name exist_dir_attrs then lift (check_dir_existence E value)
  else ret value.

(** [[x.strip() for x in value]]. *)
Definition strip_all (value : pyval) : result (list string) :=
  match value with
  | VList l =>
      for_each l (λ x acc,
        match x with
        | VStr s => Ok (acc ++ [strip s])
        | _ => Raise AttributeError
        end) []
  | VStr s => Ok ((λ c, strip (String c EmptyString)) <$> list_ascii_of_string s)
  | _ => Raise TypeError
  end.

(** [val.lower()[0] not in settings.P_IDS]. *)
Definition bad_identifier (val : string) : result bool :=
  match lower val with
  | String c _ => Ok (negb (mem (String c EmptyString) (P_IDS E).*1))
  | EmptyString => Raise IndexError
  end.

(** 1.10, lines 219-229. *)
Definition check_identifiers (name : string) (value : pyval) : M pyval :=
  if String.eqb name "parameter_identifiers" then
    let value :=
      match value with
      | VStr s => VList (VStr <$> split_on "," s)
      | _ => value
      end in
    ids ← lift (strip_all value);
    _ ← forM ids (λ val,
           bad ← lift (bad_identifier val);
           if bad : bool then raise ValueError else ret ());
    _ ← super_setattr name (VList (VStr <$> ids));
    ret (VList (VStr <$> ids))
  else ret value.

(** 2.1 and 2.2, lines 233-242. *)
Definition check_dependencies (name : string) (value : pyval) : M unit :=
  _ ← (if mem name ["const_for_mutation_strength"; "const_for_mutation_rate"]
       then
         if negb (is_float value) then raise ValueError
         else
           low ← lift (py_lt value (VInt 1));
           if low : bool then raise ValueError
           else
             high ← lift (py_gt value (VInt 2));
             if high : bool then raise ValueError else ret ()
       else ret ());
  if String.eqb name "vmin" then
    nonpositive ← lift (py_le value (VInt 0));
    if nonpositive : bool then raise ValueError else ret ()
  else ret ().

(** *** [__setattr__]: updates that follow the new value *)

(** 3.1, lines 247-253. *)
Definition make_data_holder : M unit :=
  input_file ← read "input_file";
  projections ← read "projections";
  outgroup ← read "outgroup";
  population_labels ← read "population_labels";
  sequence_length ← read "sequence_length";
  holder ← lift (SFSDataHolder E input_file projections outgroup
                   population_labels sequence_length);
  modify (set_data_holder (Some holder)).

(** 3.2, lines 256-257: [setattr(self.data_holder, name, value)]; a
    default taken from [settings] is not an object one can set
    attributes on. *)
Definition update_data_holder (name : string) (value : pyval) : M unit :=
  st ← get;
  match data_holder st with
  | Some holder => modify (set_data_holder (Some (<[name := value]> holder)))
  | None =>
      match defaults E !! "data_holder" with
      | Some _ => raise AttributeError
      | None => ret ()
      end
  end.

(** 3.5, lines 267-270. *)
Definition warn_pts : M unit :=
  engine ← read "engine";
  if negb (py_eq engine (VStr "dadi")) then
    pts ← read "pts";
    match defaults E !! "pts" with
    | Some default_pts =>
        if negb (py_eq pts default_pts) then warn WEnginePts else ret ()
    | None => raise AttributeError
    end
  else ret ().

(** 3.6, lines 275-280. *)
Definition check_number_of_populations : M unit :=
  forM attrs_with_equal_len (λ attr_name,
    attr_value ← read attr_name;
    if is_none attr_value then ret ()
    else
      attr_value ← read attr_name;
      n ← lift (py_len attr_value);
      number_of_populations ← read "number_of_populations";
      if negb (py_eq (VInt (Z.of_nat n)) number_of_populations)
      then raise ValueError else ret ()).

(** 3.7, lines 284-293. *)
Definition update_ga_options : M unit :=
  fractions ← read "fractions";
  f0 ← lift (py_index fractions 0);
  size_of_generation ← read "size_of_generation";
  product ← lift (py_mul f0 size_of_generation);
  n_elitism ← lift (py_int (parse_int E) product);
  fractions ← read "fractions";
  total ← lift (py_sum fractions);
  p_random ← lift (py_sub (VInt 1) total);
  _ ← super_setattr "n_elitism" (VInt n_elitism);
  fractions ← read "fractions";
  f1 ← lift (py_index fractions 1);
  _ ← super_setattr "p_mutation" f1;
  fractions ← read "fractions";
  f2 ← lift (py_index fractions 2);
  _ ← super_setattr "p_crossover" f2;
  super_setattr "p_random" p_random.

(** The dictionary [d] of lines 297-298, in insertion order. *)
Definition time_units : list (string * pyval) :=
  [ ("generations", VInt 1); ("years", VInt 1);
    ("thousands of years", VFloat (1 # 100));
    ("kya", VFloat (1 # 100)) ].

(** 3.8, lines 299-312. *)
Definition update_time_units (name : string) (value : pyval) : M unit :=
  if String.eqb name "units_of_time_in_drawing" then
    match value with
    | VStr unit_name =>
        if negb (mem unit_name time_units.*1) then raise ValueError
        else
          st ← get;
          if negb (String.eqb unit_name "generations")
             && negb (has_attr st "time_for_generation")
          then warn WNoTimeForGeneration else ret ()
    | VNone | VBool _ | VInt _ | VFloat _ | VOpaque _ => raise ValueError
    | VList _ => raise TypeError
    end
  else
    match filter (λ kv, py_eq kv.2 value = true) time_units with
    | (key, _) :: _ => super_setattr "units_of_time_in_drawing" (VStr key)
    | [] => ret ()
    end.

(** [cls.default_domain[i] = value], with [cls] looked up in the module. *)
Definition set_default_domain (cls : string) (i : nat) (value : pyval)
    : M unit :=
  _ ← lift (load_global cls);
  st ← get;
  match domains st !! cls with
  | Some domain =>
      if decide (i < length domain)
      then modify (set_domains (insert cls (<[i := value]> domain)))
      else raise IndexError
  | None => raise AttributeError
  end.

(** [warnings.warn(f"Domain of {cls} changed to {cls.default_domain}")]. *)
Definition warn_domain (cls : string) : M unit :=
  _ ← lift (load_global cls);
  st ← get;
  match domains st !! cls with
  | Some domain => warn (WDomainChanged cls (Some domain))
  | None => raise AttributeError
  end.

(** [name.endswith(c)]. *)
Definition ends_with (c : ascii) (name : string) : bool :=
  match String.rev name with
  | String a _ => Ascii.eqb a c
  | EmptyString => false
  end.

(** 3.9, lines 315-337. *)
Definition update_domains (name : string) (value : pyval) : M unit :=
  _ ← (if String.eqb name "min_n" then
         set_default_domain "PopulationSizeVariable" 0 value
       else if String.eqb name "max_n" then
         set_default_domain "PopulationSizeVariable" 1 value
       else if String.eqb name "min_t" then
         set_default_domain "TimeVariable" 0 value
       else if String.eqb name "max_t" then
         set_default_domain "TimeVariable" 1 value
       else if String.eqb name "min_m" then
         set_default_domain "MigrationVariable" 0 value
       else if String.eqb name "max_m" then
         set_default_domain "MigrationVariable" 1 value
       else raise AttributeError);
  _ ← (if ends_with "n" name then warn_domain "PopulationSizeVariable"
       else ret ());
  _ ← (if ends_with "t" name then warn_domain "TimeVariable" else ret ());
  if ends_with "m" name then warn_domain "MigrationVariable" else ret ().

(** The [if] ... [elif] chain of section 3, lines 246-337. *)
Definition update_dependents (name : string) (value : pyval) : M unit :=
  if String.eqb name "input_file" then make_data_holder
  else if mem name data_holder_attrs then update_data_holder name value
  else if String.eqb name "engine" then lift (get_engine E value)
  else if String.eqb name "local_optimizer" then
    lift (get_local_optimizer E value)
  else if mem name ["engine"; "pts"] then warn_pts
  else if String.eqb name "number_of_populations" then
    check_number_of_populations
  else if String.eqb name "fractions" || String.eqb name "size_of_generation"
  then update_ga_options
  else if String.eqb name "units_of_time_in_drawing"
          || String.eqb name "const_of_time_in_drawing"
  then update_time_units name value
  else if mem name bounds_attrs then update_domains name value
  else ret ().

(** 3.10, lines 341-353. *)
Definition load_custom_model (name : string) (value : pyval) : M unit :=
  if String.eqb name "custom_filename" then
    found ← lift (load_model_func E value);
    match found with
    | Some model_func_value => super_setattr "model_func" model_func_value
    | None => raise ValueError
    end
  else ret ().

(** Lines 355-361. *)
Definition warn_bounds_before_custom (name : string) : M unit :=
  if mem name bounds_attrs then
    custom_filename ← read "custom_filename";
    if is_none custom_filename then
      initial_structure ← read "initial_structure";
      warn (WBeforeCustomFilename name (negb (is_none initial_structure)))
    else ret ()
  else ret ().

(** Lines 97-361; the result is the local [value] as it is at line 361. *)
Definition setattr_checks (name : string) (value : pyval) : M pyval :=
  value ← wrap_structure name value;
  let we_check := we_check name value in
  _ ← (if mem name int_attrs && we_check then check_int value else ret ());
  _ ← (if (mem name float_attrs || mem name probs_attrs) && we_check
       then check_float name value else ret ());
  _ ← (if mem name bool_attrs && we_check then check_bool value else ret ());
  value ← (if mem name int_list_attrs && we_check
           then check_int_list name value else ret value);
  value ← (if (mem name probs_list_attrs || mem name float_list_attrs)
              && we_check
           then check_float_list name value else ret value);
  _ ← (if (mem name attrs_with_equal_len || mem name bounds_attrs)
          && we_check
       then check_lengths name value else ret ());
  value ← split_labels name value;
  value ← check_paths name value;
  value ← check_identifiers name value;
  _ ← check_dependencies name value;
  _ ← update_dependents name value;
  _ ← load_custom_model name value;
  _ ← warn_bounds_before_custom name;
  ret value.

(** Lines 40-361: an unknown name is refused, a known one is stored
    and then checked. *)
Definition setattr_main (name : string) (value : pyval) : M pyval :=
  if negb (recognized name) then raise ValueError
  else
    _ ← super_setattr name value;
    setattr_checks name value.

(** *** Defaults that are computed and stored on first read *)

(** [self.parameter_identifiers] (lines 386-423).  The [__setattr__]
    called at line 415 stops at line 361 for this name. *)
Definition get_parameter_identifiers : M pyval :=
  st ← get;
  match attrs st !! "parameter_identifiers" with
  | Some v => ret v
  | None =>
      match defaults E !! "parameter_identifiers" with
      | None => raise AttributeError
      | Some VNone =>
          custom_filename ← read "custom_filename";
          if is_none custom_filename then ret VNone
          else
            found ← lift (identifiers_in_file E custom_filename);
            match found with
            | Some p_ids =>
                try_except
                  (_ ← setattr_main "parameter_identifiers"
                         (VList (VStr <$> p_ids));
                   ret (VList (VStr <$> p_ids)))
                  (λ e, bool_decide (e = ValueError) || bool_decide (e = IndexError))
                  (ret VNone)
            | None => ret VNone
            end
      | Some v => ret v
      end
  end.

(** [settings.P_IDS[p_id[0].lower()].default_domain[i]]. *)
Definition default_bound (st : state) (i : nat) (p_id : pyval) : result pyval :=
  first ← py_index p_id 0;
  match first with
  | VStr c =>
      match list_find (λ kv, kv.1 = lower c) (P_IDS E) with
      | Some (_, (_, cls)) =>
          match domains st !! cls with
          | Some domain => index domain i
          | None => Raise AttributeError
          end
      | None => Raise KeyError
      end
  | _ => Raise AttributeError
  end.

(** The elements a [for] loop over [v] visits. *)
Definition py_iter (v : pyval) : result (list pyval) :=
  match v with
  | VList l => Ok l
  | VStr s => Ok ((λ c, VStr (String c EmptyString)) <$> list_ascii_of_string s)
  | _ => Raise TypeError
  end.

(** [self.lower_bound] and [self.upper_bound] (lines 424-435). *)
Definition get_bound (name : string) : M pyval :=
  st ← get;
  match attrs st !! name with
  | Some v => ret v
  | None =>
      match defaults E !! name with
      | None => raise AttributeError
      | Some VNone =>
          custom_filename ← read "custom_filename";
          if is_none custom_filename then ret VNone
          else
            p_ids ← get_parameter_identifiers;
            if is_none p_ids then ret VNone
            else
              p_ids ← get_parameter_identifiers;
              p_ids ← lift (py_iter p_ids);
              st ← get;
              bound ← lift (for_each p_ids (λ p_id acc,
                        b ← default_bound st
                              (if String.eqb name "lower_bound" then 0 else 1)
                              p_id;
                        Ok (acc ++ [b])) []);
              _ ← setattr_main name (VList bound);
              ret (VList bound)
      | Some v => ret v
      end
  end.

(** [getattr(self, name)] for any setting. *)
Definition getattr_full (name : string) : M pyval :=
  if String.eqb name "parameter_identifiers" then get_parameter_identifiers
  else if String.eqb name "lower_bound" || String.eqb name "upper_bound"
  then get_bound name
  else read name.

(** *** [SettingsStorage.__setattr__] *)

(** 3.11, lines 363-367. *)
Definition warn_structure_ignored (name : string) (value : pyval) : M unit :=
  if mem name ["initial_structure"; "final_structure"] && negb (is_none value)
  then
    custom_filename ← read "custom_filename";
    if is_none custom_filename then ret ()
    else
      lower_bound ← getattr_full "lower_bound";
      if is_none lower_bound then ret ()
      else
        upper_bound ← getattr_full "upper_bound";
        if is_none upper_bound then ret ()
        else warn (WStructureIgnored name)
  else ret ().

Definition __setattr__ (name : string) (value : pyval) : M unit :=
  value ← setattr_main name value;
  warn_structure_ignored name value.

(** *** [SettingsStorage.from_file] *)

(** The methods and properties of the class: [hasattr] finds them
    without [__getattr__]. *)
Definition class_attrs : list string :=
  [ "read_data"; "read_bootstrap_data"; "inner_data"; "bootstrap_data";
    "from_file"; "to_files"; "get_global_optimizer"; "get_local_optimizer";
    "get_optimizers_kwargs"; "get_optimizers_init_kwargs";
    "get_engine_args"; "get_linear_constrain_for_model"; "get_model" ].

(** [hasattr(settings_storage, name)]. *)
Definition hasattr_full (name : string) : M bool :=
  if mem name class_attrs then ret true
  else
    try_except (_ ← getattr_full name; ret true)
               (λ e, bool_decide (e = AttributeError))
               (ret false).

(** [{**loaded_dict, **extra_dict}]. *)
Definition merge_dicts (a b : list (string * pyval)) : list (string * pyval) :=
  foldl (λ acc kv,
           if mem kv.1 acc.*1
           then (λ kv', if String.eqb kv'.1 kv.1 then kv else kv') <$> acc
           else acc ++ [kv])
        a b.

(** Lines 516-519. *)
Definition attr_name_of_key (key : string) : string :=
  squeeze (replace_char "'" (replace_char " " (strip (lower key)))).

(** Lines 515-535, for one key. *)
Definition apply_key (key : string) (value : pyval) : M unit :=
  let attr_name := attr_name_of_key key in
  attr_name ←
    match list_find (λ kv, kv.1 = attr_name) CHANGED_IDENTIFIERS with
    | Some (_, (_, new_name)) => _ ← warn (WRenamed key); ret new_name
    | None => ret attr_name
    end;
  known ← hasattr_full attr_name;
  _ ← (if known : bool then ret ()
       else if mem attr_name DEPRECATED_IDENTIFIERS
       then warn (WDeprecated key)
       else raise AttributeError);
  __setattr__ attr_name value.

(** [SettingsStorage()]: the class has no [__init__]. *)
Definition new_storage : M unit :=
  modify (λ st, State ∅ None (domains st) (warned st)).

(** Lines 498-536.  The method is static: the storage it builds and
    returns is the object part of the final state, whatever object the
    initial state held. *)
Definition from_file (param_file extra_param_file : pyval) : M unit :=
  fast_path ←
    (if is_none param_file then
       extra_params_file ← lift (load_global "extra_params_file");
       ret (is_none extra_params_file)
     else ret false);
  if fast_path : bool then new_storage
  else
    loaded_dict ←
      (if negb (is_none param_file) then lift (load_yaml E param_file)
       else ret []);
    loaded_dict ←
      (if negb (is_none extra_param_file) then
         extra_dict ← lift (load_yaml E extra_param_file);
         ret (merge_dicts loaded_dict extra_dict)
       else ret loaded_dict);
    _ ← new_storage;
    forM loaded_dict (λ kv, apply_key kv.1 kv.2).

End with_env.

(** *** What an assignment may leave in the instance dictionary *)

Definition is_list (v : pyval) : bool :=
  match v with VList _ => true | _ => false end.

(** The settings stored as one value: integers, floats, probabilities,
    booleans and the two mutation constants. *)
Definition scalar_attrs : list string :=
  int_attrs ++ float_attrs ++ probs_attrs ++ bool_attrs ++
  ["const_for_mutation_strength"; "const_for_mutation_rate"].

(** The settings the setter turns into lists (a structure given as one
    integer, a comma-separated string, a list made of floats) and those
    it replaces by the checked path. *)
Definition list_attrs : list string :=
  int_list_attrs ++ probs_list_attrs ++ float_list_attrs ++
  ["population_labels"; "parameter_identifiers"].
Definition path_attrs : list string := empty_dir_attrs ++ exist_file_attrs.

Definition converted (name : string) (v : pyval) : bool :=
  mem name path_attrs || (mem name list_attrs && is_list v).

(** The other attributes an assignment of [name] sets. *)
Definition derived (name key : string) : bool :=
  (mem name ["fractions"; "size_of_generation"]
   && mem key ["n_elitism"; "p_mutation"; "p_crossover"; "p_random"])
  || (String.eqb name "const_of_time_in_drawing"
      && String.eqb key "units_of_time_in_drawing")
  || (String.eqb name "custom_filename" && String.eqb key "model_func").

(** What lines 97-361 may write under [key] when [name] is assigned. *)
Definition written (name key : string) (v : pyval) : bool :=
  (String.eqb key name && converted name v) || derived name key.

(** The same for the whole of [__setattr__]: the computed defaults of
    3.11 store the identifiers and bounds they find. *)
Definition written_full (name key : string) (v : pyval) : bool :=
  written name key v
  || (mem name ["initial_structure"; "final_structure"]
      && mem key ["parameter_identifiers"; "lower_bound"; "upper_bound"]).

(** Whatever [m] does, an attribute afterwards is as before or holds a
    value that [K] allows under its name. *)
Definition writes_in {A} (K : string → pyval → bool) (m : M A) : Prop :=
  ∀ st key,
    attrs (m st).2 !! key = attrs st !! key ∨
    ∃ v, attrs (m st).2 !! key = Some v ∧ K key v = true.

(** *** What section 3.7 establishes

    [n_elitism = int(fractions[0] * size_of_generation)],
    [p_mutation = fractions[1]], [p_crossover = fractions[2]] and
    [p_random = 1 - sum(fractions)], for [self.fractions] and
    [self.size_of_generation] as the object gives them. *)
Definition ga_options_set (E : Env) (st : state) : Prop :=
  ∃ fractions size_of_generation f0 f1 f2 product n total p_random,
    getattr E st "fractions" = Ok fractions ∧
    getattr E st "size_of_generation" = Ok size_of_generation ∧
    py_index fractions 0 = Ok f0 ∧
    py_index fractions 1 = Ok f1 ∧
    py_index fractions 2 = Ok f2 ∧
    py_mul f0 size_of_generation = Ok product ∧
    py_int (parse_int E) product = Ok n ∧
    py_sum fractions = Ok total ∧
    py_sub (VInt 1) total = Ok p_random ∧
    attrs st !! "n_elitism" = Some (VInt n) ∧
    attrs st !! "p_mutation" = Some f1 ∧
    attrs st !! "p_crossover" = Some f2 ∧
    attrs st !! "p_random" = Some p_random.

(** *** A concrete environment

    Defaults in the style of [settings.py]; a file system on which every
    path is fine; only decimal integers are parsed. *)

Definition digit_of (a : ascii) : option Z :=
  let n := nat_of_ascii a in
  if Nat.leb 48 n && Nat.leb n 57 then Some (Z.of_nat (n - 48)) else None.

Fixpoint parse_digits (acc : Z) (s : string) : option Z :=
  match s with
  | EmptyString => Some acc
  | String a s' => d ← digit_of a; parse_digits (10 * acc + d) s'
  end.

Definition parse_decimal (s : string) : option Z :=
  match strip s with
  | EmptyString => None
  | String "-" s' =>
      match s' with
      | EmptyString => None
      | _ => Z.opp <$> parse_digits 0 s'
      end
  | s' => parse_digits 0 s'
  end.

Definition example_env : Env := {|
  defaults := list_to_map
    [ ("size_of_generation", VInt 10);
      ("fractions", VList [VFloat (1 # 5); VFloat (3 # 10); VFloat (3 # 10)]);
      ("number_of_populations", VNone);
      ("initial_structure", VNone); ("final_structure", VNone);
      ("population_labels", VNone); ("projections", VNone);
      ("custom_filename", VNone); ("pts", VNone); ("engine", VStr "moments");
      ("min_n", VNone); ("max_n", VNone); ("min_t", VNone);
      ("max_t", VNone); ("min_m", VNone); ("max_m", VNone);
      ("initial_structure_unit", VInt 1) ];
  P_IDS := [ ("n", "PopulationSizeVariable"); ("t", "TimeVariable");
             ("m", "MigrationVariable") ];
  ensure_dir_existence := Ok;
  ensure_file_existence := Ok;
  check_dir_existence := Ok;
  get_engine := λ _, Ok ();
  get_local_optimizer := λ _, Ok ();
  SFSDataHolder := λ input_file projections outgroup population_labels
                     sequence_length,
    Ok (list_to_map
          [ ("filename", input_file); ("projections", projections);
            ("outgroup", outgroup); ("population_labels", population_labels);
            ("sequence_length", sequence_length) ]);
  load_model_func := λ _, Ok (Some (VOpaque "model_func"));
  identifiers_in_file := λ _, Ok None;
  parse_int := parse_decimal;
  parse_float := λ _, None;
  load_yaml := λ _, Ok [];
|}.

(** A fresh storage in a process where the three variable classes have
    their usual default domains. *)
Definition example_state : state := {|
  attrs := ∅;
  data_holder := None;
  domains := list_to_map
    [ ("PopulationSizeVariable", [VFloat (1 # 100); VInt 100]);
      ("TimeVariable", [VFloat (1 # 1000); VInt 5]);
      ("MigrationVariable", [VInt 0; VInt 10]) ];
  warned := [];
|}.

End Settings.

(** ** [gadma/cli/settings_storage.py]: reading data, building models *)

Module Storage.
Import Py Settings.

(** [bool(v)]. *)
Definition py_truth (v : pyval) : bool :=
  match v with
  | VNone => false
  | VBool b => b
  | VInt z => negb (Z.eqb z 0)
  | VFloat q => negb (Qeq_bool q 0)
  | VStr s => negb (String.eqb s "")
  | VList l => match l with [] => false | _ => true end
  | VOpaque _ => true
  end.

(** [max(v)]: the first of the greatest elements.  The elements are
    compared as numbers; strings, which Python orders among themselves,
    are refused here with the [TypeError] that [read_data] meets one
    operation later, at [max_n - 1]. *)
Definition py_max (v : pyval) : result pyval :=
  items ← py_iter v;
  match items with
  | [] => Raise ValueError
  | x :: rest =>
      for_each rest
        (λ item max_item,
           bigger ← py_gt item max_item;
           Ok (if bigger : bool then item else max_item))
        x
  end.

(** [a / d] for a positive integer literal [d]. *)
Definition py_div_by (d : positive) (a : pyval) : result pyval :=
  match num_of a with
  | Some q => Ok (VFloat (q / inject_Z (Zpos d)))
  | None => Raise TypeError
  end.

(** *** What the methods take from elsewhere *)

(** What [engine.read_data] returns: an object with the attributes
    [read_data] looks at. *)
Record Data : Type := {
  data_id : string;
  sample_sizes : pyval;
  pop_ids : pyval;
  folded : pyval;
}.

(** The object as a value of a setting. *)
Definition data_value (data : Data) : pyval := VOpaque (data_id data).

(** What [self.data_holder] evaluates to: the [SFSDataHolder] of the
    object, or the value the module [settings] has under that name. *)
Inductive holder : Type :=
  | HolderObject (h : gmap string pyval)
  | HolderDefault (v : pyval).

(** An object of a variable class: [var_cls(name, domain=[low, upp])]. *)
Record variable : Type := Var {
  var_cls : pyval;
  var_name : pyval;
  var_domain : pyval * pyval;
}.

(** [LinearConstrain(np.array(A), np.array(lb), np.array(ub))], every
    entry of [lb] being minus infinity. *)
Record constrain : Type := LinearConstrain {
  constrain_A : list pyval;
  constrain_lb : nat;
  constrain_ub : list pyval;
}.

(** The demographic models [get_model] builds, each with the arguments
    of its constructor. *)
Inductive model : Type :=
  | StructureDemographicModel (initial_structure final_structure : pyval)
      (create_migs create_sels create_dyns sym_migs seventh : bool)
      (gen_time theta0 mut_rate : pyval)
      (linear_constrain : option constrain)
  | CustomDemographicModel (model_func : pyval) (variables : list variable)
      (gen_time theta0 mut_rate : pyval).

(** The engines, the directory listing, the split times of a
    structure model and the optimizers are not part of the file. *)
Record Lib : Type := {
  (** [get_engine(id).read_data(data_holder)]. *)
  engine_read_data : pyval → holder → result Data;
  (** [os.listdir(dirname)]. *)
  listdir : pyval → result (list string);
  (** [os.path.join(dirname, filename)]. *)
  path_join : pyval → string → result pyval;
  (** [model.get_involved_for_split_time_vars(i)]. *)
  get_involved_for_split_time_vars : model → nat → result (pyval * pyval);
  (** [get_global_optimizer(id)] and [get_local_optimizer(id)] of
      [gadma.optimizers]: the attributes of the optimizer they give. *)
  global_optimizer : string → result (gmap string pyval);
  local_optimizer : pyval → result (gmap string pyval);
}.

Section with_env.
Context (E : Env) (L : Lib).

(** *** [read_data] *)

(** [self.data_holder]. *)
Definition holder_of (st : state) : result holder :=
  match data_holder st with
  | Some h => Ok (HolderObject h)
  | None =>
      match defaults E !! "data_holder" with
      | Some v => Ok (HolderDefault v)
      | None => Raise AttributeError
      end
  end.

Definition self_data_holder : M holder :=
  st ← get; lift (holder_of st).

(** Lines 445-448. *)
Definition default_pts : M unit :=
  projections ← read E "projections";
  max_n ← lift (py_max projections);
  y ← lift (py_sub max_n (VInt 1));
  y ← lift (py_div_by 10 y);
  y ← lift (py_int (parse_int E) y);
  let x := ((y + 1) * 10)%Z in
  super_setattr "pts" (VList [VInt x; VInt (x + 10); VInt (x + 20)]).

Definition read_data : M Data :=
  engine ← read E "engine";
  _ ← lift (get_engine E engine);
  data_holder ← self_data_holder;
  data ← lift (engine_read_data L engine data_holder);
  _ ← __setattr__ E "projections" (sample_sizes data);
  _ ← __setattr__ E "population_labels" (pop_ids data);
  _ ← __setattr__ E "outgroup" (VBool (negb (py_truth (folded data))));
  pts ← read E "pts";
  _ ← (if is_none pts then default_pts else ret ());
  _ ← __setattr__ E "_inner_data" (data_value data);
  projections ← read E "projections";
  n ← lift (py_len projections);
  _ ← __setattr__ E "number_of_populations" (VInt (Z.of_nat n));
  ret data.

(** *** [read_bootstrap_data] *)

(** What the method returns: nothing, the list of data sets, or the
    list together with the names of the files they were read from. *)
Inductive bootstrap : Type :=
  | NoBootstrap
  | Datasets (all_boot : list Data)
  | DatasetsOfFiles (all_boot : list Data) (filenames : list string).

(** The value as it is stored in a setting; a tuple is a list here. *)
Definition bootstrap_value (b : bootstrap) : pyval :=
  match b with
  | NoBootstrap => VNone
  | Datasets all_boot => VList (data_value <$> all_boot)
  | DatasetsOfFiles all_boot filenames =>
      VList [VList (data_value <$> all_boot); VList (VStr <$> filenames)]
  end.

(** ['.'.join(filename.split('.')[:-1])]. *)
Definition without_ext (filename : string) : string :=
  String.concat "." (removelast (split_on "." filename)).

(** [holder.name]. *)
Definition holder_attr (h : holder) (name : string) : result pyval :=
  match h with
  | HolderObject h =>
      match h !! name with
      | Some v => Ok v
      | None => Raise AttributeError
      end
  | HolderDefault _ => Raise AttributeError
  end.

(** [holder.filename = path] on the copy; a value of [settings] is not
    an object one can set attributes on. *)
Definition set_filename (h : holder) (path : pyval) : result holder :=
  match h with
  | HolderObject h => Ok (HolderObject (<["filename" := path]> h))
  | HolderDefault _ => Raise AttributeError
  end.

(** Lines 470-471: the copy of the data holder that names one file. *)
Definition holder_for (st : state) (dirname : pyval) (filename : string)
    : result holder :=
  data_holder ← holder_of st;
  path ← path_join L dirname filename;
  set_filename data_holder path.

(** Lines 466-479, on [all_boot], [set_of_seen_files] and [filenames].
    The local [extention] is not used. *)
Definition read_one (st : state) (engine dirname : pyval)
    (return_filenames : bool) (filename : string)
    (acc : list Data * gset string * list string)
    : result (list Data * gset string * list string) :=
  let '(all_boot, set_of_seen_files, filenames) := acc in
  let filename_without_ext := without_ext filename in
  if decide (filename_without_ext ∈ set_of_seen_files) then Ok acc
  else
    data_holder ← holder_for st dirname filename;
    match engine_read_data L engine data_holder with
    | Ok data =>
        Ok (all_boot ++ [data],
            {[ filename_without_ext ]} ∪ set_of_seen_files,
            if return_filenames then filenames ++ [filename] else filenames)
    | Raise ValueError => Ok acc
    | Raise e => Raise e
    end.

Definition read_bootstrap_data (return_filenames : bool) : M bootstrap :=
  directory ← read E "directory_with_bootstrap";
  if is_none directory then ret NoBootstrap
  else
    read_already ← hasattr_full E "_inner_data";
    _ ← (if negb read_already then
           data_holder ← self_data_holder;
           input_file ← lift (holder_attr data_holder "input_file");
           if negb (is_none input_file) then _ ← read_data; ret ()
           else ret ()
         else ret ());
    dirname ← read E "directory_with_bootstrap";
    engine ← read E "engine";
    _ ← lift (get_engine E engine);
    listing ← lift (listdir L dirname);
    st ← get;
    '(all_boot, _, filenames) ←
      lift (for_each listing (read_one st engine dirname return_filenames)
              ([], ∅, []));
    _ ← __setattr__ E "_bootstrap_data" (VList (data_value <$> all_boot));
    ret (if return_filenames then DatasetsOfFiles all_boot filenames
         else Datasets all_boot).

(** *** The properties [inner_data] and [bootstrap_data] *)

Definition inner_data : M pyval :=
  read_already ← hasattr_full E "_inner_data";
  _ ← (if negb read_already then
         data ← read_data;
         __setattr__ E "_inner_data" (data_value data)
       else ret ());
  read E "_inner_data".

(** Line 494 passes [self] for [return_filenames]: an object without
    [__bool__] and [__len__], which is true. *)
Definition bootstrap_data : M pyval :=
  read_already ← hasattr_full E "_bootstrap_data";
  _ ← (if negb read_already then
         b ← read_bootstrap_data true;
         __setattr__ E "_bootstrap_data" (bootstrap_value b)
       else ret ());
  read E "_bootstrap_data".

(** *** [get_global_optimizer] and [get_local_optimizer] *)

(** The attributes that lines 576-586 set, in that order, each with
    the setting it is read from. *)
Definition ga_attributes : list (string * string) :=
  [ ("gen_size", "size_of_generation"); ("n_elitism", "n_elitism");
    ("p_mutation", "p_mutation"); ("p_crossover", "p_crossover");
    ("p_random", "p_random"); ("mut_rate", "mean_mutation_rate");
    ("mut_strength", "mean_mutation_strength");
    ("const_mut_rate", "const_for_mutation_rate");
    ("const_mut_strength", "const_for_mutation_strength");
    ("eps", "eps"); ("n_stuck_gen", "stuck_generation_number") ].

(** [obj.attribute = self.setting] for each pair. *)
Fixpoint copy_settings (pairs : list (string * string))
    (obj : gmap string pyval) : M (gmap string pyval) :=
  match pairs with
  | [] => ret obj
  | (attribute, setting) :: pairs =>
      value ← read E setting;
      copy_settings pairs (<[attribute := value]> obj)
  end.

Definition get_global_optimizer : M (gmap string pyval) :=
  ga ← lift (global_optimizer L "Genetic_algorithm");
  ga ← copy_settings ga_attributes ga;
  ret (<["maximize" := VBool true]> ga).

Definition get_local_optimizer : M (gmap string pyval) :=
  id ← read E "local_optimizer";
  ls ← lift (local_optimizer L id);
  ret (<["maximize" := VBool true]> ls).

(** *** [get_linear_constrain_for_model] *)

(** Lines 645-647 for the first split, 649-651 for the second. *)
Definition split_bound (name : string) (i : nat) (m : model)
    (acc : list pyval * list pyval) : M (list pyval * list pyval) :=
  bound ← read E name;
  if negb (is_none bound) then
    '(A_i, b_i) ← lift (get_involved_for_split_time_vars L m i);
    bound ← read E name;
    half ← lift (py_div_by 2 bound);
    u ← lift (py_sub half b_i);
    ret (acc.1 ++ [A_i], acc.2 ++ [u])
  else ret acc.

Definition get_linear_constrain_for_model (m : model)
    : M (option constrain) :=
  first ← read E "upper_bound_of_first_split";
  neither ← (if is_none first then
               second ← read E "upper_bound_of_second_split";
               ret (is_none second)
             else ret false);
  if neither : bool then ret None
  else
    acc ← split_bound "upper_bound_of_first_split" 1 m ([], []);
    acc ← split_bound "upper_bound_of_second_split" 2 m acc;
    ret (Some (LinearConstrain acc.1 (length acc.2) acc.2)).

(** *** [get_model] *)

(** [settings.P_IDS[p_id[0].lower()]]. *)
Definition var_class (p_id : pyval) : result string :=
  first ← py_index p_id 0;
  match first with
  | VStr c =>
      match list_find (λ kv, kv.1 = lower c) (P_IDS E) with
      | Some (_, (_, cls)) => Ok cls
      | None => Raise KeyError
      end
  | _ => Raise AttributeError
  end.

(** [len(set(items))]; a list cannot be an element of a set. *)
Definition count_distinct (items : list pyval) : result nat :=
  if existsb (λ x, match x with VList _ => true | _ => false end) items
  then Raise TypeError
  else Ok (length (foldr (λ x seen, if existsb (py_eq x) seen then seen
                                    else x :: seen) [] items)).

(** Lines 677-683. *)
Definition var_classes_of_settings : M (list pyval) :=
  p_ids ← getattr_full E "parameter_identifiers";
  if negb (is_none p_ids) then
    p_ids ← getattr_full E "parameter_identifiers";
    p_ids ← lift (py_iter p_ids);
    lift (for_each p_ids (λ p_id var_classes,
            cls ← var_class p_id; Ok (var_classes ++ [VOpaque cls])) [])
  else
    lower_bound ← getattr_full E "lower_bound";
    lower_bound ← lift (py_iter lower_bound);
    lift (for_each lower_bound (λ _ var_classes,
            cls ← load_global "ContinuousVariable";
            Ok (var_classes ++ [cls])) []).

(** Lines 684-688. *)
Definition names_of_settings (var_classes : list pyval) : M pyval :=
  let names :=
    VList ((λ i, VStr ("var" +:+ pretty i)) <$> range (length var_classes)) in
  p_ids ← getattr_full E "parameter_identifiers";
  if negb (is_none p_ids) then
    p_ids ← getattr_full E "parameter_identifiers";
    items ← lift (py_iter p_ids);
    distinct ← lift (count_distinct items);
    n ← lift (py_len p_ids);
    if Nat.eqb distinct n then ret p_ids else ret names
  else ret names.

(** [zip(lower_bound, upper_bound, var_classes, names)] with line 694
    for each tuple. *)
Fixpoint zip_variables (lower_bound upper_bound : list pyval)
    (var_classes names : list pyval) : list variable :=
  match lower_bound, upper_bound, var_classes, names with
  | low :: lower_bound, upp :: upper_bound, cls :: var_classes, name :: names =>
      Var cls name (low, upp)
      :: zip_variables lower_bound upper_bound var_classes names
  | _, _, _, _ => []
  end.

Definition get_model : M (option model) :=
  gen_time ← read E "time_for_generation";
  theta0 ← read E "theta0";
  mut_rate ← read E "mutation_rate";
  initial ← read E "initial_structure";
  structured ← (if negb (is_none initial) then
                  final ← read E "final_structure";
                  ret (negb (is_none final))
                else ret false);
  if structured : bool then
    no_migrations ← read E "no_migrations";
    let create_migs := negb (py_truth no_migrations) in
    only_sudden ← read E "only_sudden";
    let create_dyns := negb (py_truth only_sudden) in
    initial ← read E "initial_structure";
    final ← read E "final_structure";
    let m := StructureDemographicModel initial final create_migs false
               create_dyns false true gen_time theta0 mut_rate in
    constrain ← get_linear_constrain_for_model (m None);
    ret (Some (m constrain))
  else
    custom_filename ← read E "custom_filename";
    has_func ← (if negb (is_none custom_filename) then ret true
                else model_func ← read E "model_func";
                     ret (negb (is_none model_func)));
    has_bounds ← (if has_func : bool then
                    lower_bound ← getattr_full E "lower_bound";
                    if negb (is_none lower_bound) then
                      upper_bound ← getattr_full E "upper_bound";
                      ret (negb (is_none upper_bound))
                    else ret false
                  else ret false);
    if has_bounds : bool then
      var_classes ← var_classes_of_settings;
      names ← names_of_settings var_classes;
      lower_bound ← getattr_full E "lower_bound";
      upper_bound ← getattr_full E "upper_bound";
      lower_bound ← lift (py_iter lower_bound);
      upper_bound ← lift (py_iter upper_bound);
      names ← lift (py_iter names);
      model_func ← read E "model_func";
      ret (Some (CustomDemographicModel model_func
                   (zip_variables lower_bound upper_bound var_classes names)
                   gen_time theta0 mut_rate))
    else ret None.

End with_env.

(** *** A concrete library

    An engine that reads the files whose names end in [.fs], each
    holding two populations of four and six samples; a directory of
    four files. *)
Definition example_lib : Lib := {|
  engine_read_data := λ _ h,
    match h with
    | HolderObject h =>
        match h !! "filename" with
        | Some (VStr path) =>
            if String.eqb (default "" (last (split_on "." path))) "fs" then
              Ok {| data_id := path;
                    sample_sizes := VList [VInt 4; VInt 6];
                    pop_ids := VList [VStr "YRI"; VStr "CEU"];
                    folded := VBool true |}
            else Raise ValueError
        | _ => Raise TypeError
        end
    | HolderDefault _ => Raise AttributeError
    end;
  listdir := λ _, Ok ["boot1.fs"; "boot1.txt"; "notes.md"; "boot2.fs"];
  path_join := λ dirname filename,
    match dirname with
    | VStr d => Ok (VStr (d +:+ "/" +:+ filename))
    | _ => Raise TypeError
    end;
  get_involved_for_split_time_vars := λ _ i,
    Ok (VList [VInt 1; VInt 0], VInt 0);
  global_optimizer := λ id, Ok {[ "id" := VStr id ]};
  local_optimizer := λ id, Ok {[ "id" := id ]};
|}.

(** A storage for two populations with a data holder, the data of
    which have been read, and a directory of bootstrap files. *)
Definition with_bootstrap : state := {|
  attrs := list_to_map
    [ ("number_of_populations", VInt 2);
      ("_inner_data", VOpaque "data.fs");
      ("directory_with_bootstrap", VStr "boot") ];
  data_holder := Some (list_to_map
    [ ("filename", VStr "data.fs"); ("projections", VNone);
      ("outgroup", VNone); ("population_labels", VNone);
      ("sequence_length", VNone) ]);
  domains := domains example_state;
  warned := [];
|}.

(** A storage with a custom model of two parameters, its bounds, and
    [p_ids] for the parameter identifiers. *)
Definition custom_storage (p_ids : pyval) : state := {|
  attrs := list_to_map
    [ ("time_for_generation", VInt 25); ("theta0", VNone);
      ("mutation_rate", VNone);
      ("custom_filename", VStr "model.py");
      ("model_func", VOpaque "model_func");
      ("parameter_identifiers", p_ids);
      ("lower_bound", VList [VFloat (1 # 100); VInt 0]);
      ("upper_bound", VList [VInt 100; VInt 5]) ];
  data_holder := None;
  domains := domains example_state;
  warned := [];
|}.

(** The same storage after both structures have been set as well. *)
Definition structured_storage : state :=
  set_attrs
    (λ a, <["initial_structure" := VList [VInt 1; VInt 1]]>
            (<["final_structure" := VList [VInt 2; VInt 1]]>
               (<["no_migrations" := VBool false]>
                  (<["only_sudden" := VBool true]>
                     (<["upper_bound_of_first_split" := VNone]>
                        (<["upper_bound_of_second_split" := VInt 4]> a))))))
    (custom_storage (VList [VStr "nu1"; VStr "t"])).

(** A storage with the options of the genetic algorithm that
    [example_env] has no defaults for. *)
Definition ga_storage : state :=
  set_attrs
    (λ a, <["mean_mutation_rate" := VFloat (1 # 5)]>
            (<["mean_mutation_strength" := VFloat (1 # 5)]>
               (<["const_for_mutation_rate" := VFloat (11 # 10)]>
                  (<["const_for_mutation_strength" := VFloat (11 # 10)]>
                     (<["eps" := VFloat (1 # 100)]>
                        (<["stuck_generation_number" := VInt 100]> a))))))
    example_state.

End Storage.

(** ** The optimisers and the run coordinator

    The optimisers ([gadma/optimizers]) and [CoreRun] are exercised by
    [tests/test_all.py] and configured by [SettingsStorage], but their
    code is not among the sources at hand: this module follows sections
    3 and 4 of the specification.  Scores are only compared (and
    subtracted for the [eps] test), so they are integers here. *)

Module Optimizer.

(** *** Comparing scores *)

(** Modelled from the spec: the configured mode, "maximize or minimize"
    (4.2, step 1), of the missing optimisers; [at_least_as_good mx a b]
    says that score [a] is no worse than score [b]. *)
Definition at_least_as_good (maximize : bool) (a b : Z) : bool :=
  if maximize then (b <=? a)%Z else (a <=? b)%Z.

(** Modelled from the spec: a strict improvement in the configured mode
    of the missing optimisers. *)
Definition beats (maximize : bool) (a b : Z) : bool :=
  negb (at_least_as_good maximize b a).

(** Modelled from the spec: by how much [new] improves on [old], for the
    test "improved beyond [eps] tolerance" (4.2, step 7) of the missing
    genetic algorithm. *)
Definition improvement (maximize : bool) (new old : Z) : Z :=
  if maximize then (new - old)%Z else (old - new)%Z.

(** Modelled from the spec: "at least as good", as the testable
    properties of section 8 use it on the best scores of the missing
    optimisers; any score is at least as good as none. *)
Definition no_worse (maximize : bool) (a b : option Z) : Prop :=
  match b with
  | None => True
  | Some b' =>
      match a with
      | Some a' => at_least_as_good maximize a' b' = true
      | None => False
      end
  end.

(** Modelled from the spec: "non-decreasing (maximize mode)" on the
    best scores of the missing optimisers, with "no candidate yet"
    below every score. *)
Definition score_le (a b : option Z) : Prop :=
  match a, b with
  | Some a', Some b' => (a' ≤ b')%Z
  | Some _, None => False
  | None, _ => True
  end.

(** *** The genetic algorithm (4.2) *)

(** Modelled from the spec: what the missing [optimize] of the genetic
    algorithm gets from its arguments [fitness_fn] and [variables]: the
    fitness function, "pure given a fixed dataset" (section 6), and the
    variation operators of 4.1 and 4.2, each a function of an explicit
    random source ("deterministic given a seeded random source").
    Mutation sees the stuck counter, on which its adaptive strength
    depends, and the sorted population it selects parents from. *)
Record Problem (X Rng : Type) : Type := {
  fitness_fn : X → Z;
  resample : Rng → X * Rng;
  mutate : nat → list (X * Z) → Rng → X * Rng;
  crossover : list (X * Z) → Rng → X * Rng;
}.
Arguments fitness_fn {X Rng}.
Arguments resample {X Rng}.
Arguments mutate {X Rng}.
Arguments crossover {X Rng}.

(** Modelled from the spec: the configuration of the missing genetic
    algorithm (section 3, Population; 4.2): [n_mutation] and
    [n_crossover] stand for [round(p_mutation * gen_size)] and
    [round(p_crossover * gen_size)]. *)
Record GAParams : Type := {
  gen_size : nat;
  n_elitism : nat;
  n_mutation : nat;
  n_crossover : nat;
  eps : Z;
  n_stuck_gen : nat;
  maximize : bool;
}.

(** Modelled from the spec: the Checkpoint of section 3 for the missing
    genetic algorithm, "snapshot of {generation index, full population
    with scores, stuck-generation counter, random-generator state, best
    result so far}". *)
Record Checkpoint (X Rng : Type) : Type := {
  generation : nat;
  population : list (X * Z);
  stuck : nat;
  rng : Rng;
  best : option (X * Z);
}.
Arguments generation {X Rng}.
Arguments population {X Rng}.
Arguments stuck {X Rng}.
Arguments rng {X Rng}.
Arguments best {X Rng}.

(** Modelled from the spec: the Result of section 3 returned by the
    missing [optimize], "best parameter vector [x], its score [y],
    number of evaluations, and history of intermediate bests". *)
Record Result (X : Type) : Type := {
  x : X;
  y : Z;
  n_evals : nat;
  history : list Z;
}.
Arguments x {X}.
Arguments y {X}.
Arguments n_evals {X}.
Arguments history {X}.

Section genetic_algorithm.
Context {X Rng : Type} (pb : Problem X Rng) (p : GAParams).

(** Modelled from the spec: step 1 of a generation of the missing
    genetic algorithm, "sort population by fitness", best first and
    stable ("tie-break by insertion order"). *)
Fixpoint insert_sorted (c : X * Z) (l : list (X * Z)) : list (X * Z) :=
  match l with
  | [] => [c]
  | d :: l' =>
      if beats (maximize p) d.2 c.2 then d :: insert_sorted c l'
      else c :: l
  end.

(** Modelled from the spec: see [insert_sorted]. *)
Definition sort_population (l : list (X * Z)) : list (X * Z) :=
  foldr insert_sorted [] l.

(** Modelled from the spec: [n] candidates produced one after the other
    by a variation operator of the missing genetic algorithm, the random
    source threaded through. *)
Fixpoint draw (op : Rng → X * Rng) (n : nat) (r : Rng) : list X * Rng :=
  match n with
  | 0 => ([], r)
  | S n' =>
      let (c, r1) := op r in
      let (cs, r2) := draw op n' r1 in
      (c :: cs, r2)
  end.

(** Modelled from the spec: step 6 of the missing genetic algorithm,
    "evaluate all non-cached candidates via [fitness_fn]". *)
Definition evaluate (cs : list X) : list (X * Z) :=
  (λ c, (c, fitness_fn pb c)) <$> cs.

(** Modelled from the spec: the best candidate of a scored population
    of the missing genetic algorithm, the first in sorted order. *)
Definition population_best (pop : list (X * Z)) : option (X * Z) :=
  head (sort_population pop).

(** Modelled from the spec: step 7 of the missing genetic algorithm,
    "update best-so-far". *)
Definition update_best (old new : option (X * Z)) : option (X * Z) :=
  match old, new with
  | Some o, Some n => if beats (maximize p) n.2 o.2 then Some n else Some o
  | None, _ => new
  | Some o, None => Some o
  end.

(** Modelled from the spec: step 7 of the missing genetic algorithm,
    "whether the best improved beyond [eps] tolerance". *)
Definition improved (old new : option (X * Z)) : bool :=
  match old, new with
  | Some o, Some n => (eps p <? improvement (maximize p) n.2 o.2)%Z
  | None, Some _ => true
  | _, None => false
  end.

(** Modelled from the spec: step 5 of the missing genetic algorithm,
    the number of freshly resampled candidates, "remainder assigned to
    random fraction". *)
Definition n_random : nat :=
  gen_size p - n_elitism p - n_mutation p - n_crossover p.

(** Modelled from the spec: one generation of the missing genetic
    algorithm, steps 1 to 7 of 4.2; the checkpoint returned is what
    step 8 persists. *)
Definition next_generation (ck : Checkpoint X Rng) : Checkpoint X Rng :=
  let sorted := sort_population (population ck) in
  let elite := take (n_elitism p) sorted in
  let '(mutated, r1) := draw (mutate pb (stuck ck) sorted) (n_mutation p) (rng ck) in
  let '(crossed, r2) := draw (crossover pb sorted) (n_crossover p) r1 in
  let '(fresh, r3) := draw (resample pb) n_random r2 in
  let pop := elite ++ evaluate (mutated ++ crossed ++ fresh) in
  let new_best := population_best pop in
  {| generation := S (generation ck);
     population := pop;
     stuck := if improved (best ck) new_best then 0 else S (stuck ck);
     rng := r3;
     best := update_best (best ck) new_best |}.

(** Modelled from the spec: step 9 of the missing genetic algorithm,
    "stop when [maxiter] generations reached, OR stuck counter >=
    configured threshold". *)
Definition stopped (maxiter : nat) (ck : Checkpoint X Rng) : bool :=
  (maxiter <=? generation ck) || (n_stuck_gen p <=? stuck ck).

(** Modelled from the spec: the loop over generations of the missing
    genetic algorithm; [fuel] bounds the number of generations. *)
Fixpoint generations (maxiter fuel : nat) (ck : Checkpoint X Rng)
    : Checkpoint X Rng :=
  match fuel with
  | 0 => ck
  | S fuel' =>
      if stopped maxiter ck then ck
      else generations maxiter fuel' (next_generation ck)
  end.

(** Modelled from the spec: the checkpoints step 8 of the missing
    genetic algorithm persists to [save_file], oldest first. *)
Fixpoint saved (maxiter fuel : nat) (ck : Checkpoint X Rng)
    : list (Checkpoint X Rng) :=
  match fuel with
  | 0 => []
  | S fuel' =>
      if stopped maxiter ck then []
      else next_generation ck :: saved maxiter fuel' (next_generation ck)
  end.

(** Modelled from the spec: "initialize population: from [X_init] if
    provided, else by resampling variables; size fixed at [gen_size]",
    for the missing genetic algorithm: the given points, filled up with
    resampled ones, all evaluated; generation and stuck counters at 0. *)
Definition initial (X_init : list X) (seed : Rng) : Checkpoint X Rng :=
  let (fill, r) := draw (resample pb) (gen_size p - length X_init) seed in
  let pop := evaluate (X_init ++ fill) in
  {| generation := 0;
     population := pop;
     stuck := 0;
     rng := r;
     best := population_best pop |}.

(** Modelled from the spec: the first bullet of 4.2 for the missing
    genetic algorithm.  With [restore_models_only] "only the saved
    population [is reused] as a warm start (fitness re-evaluated,
    generation counter reset to 0, stuck counter reset)"; without it
    the "full state (generation counter, stuck counter, and
    pseudo-random state) is restored". *)
Definition start (seed : Rng) (restore_file : option (Checkpoint X Rng))
    (restore_models_only : bool) : Checkpoint X Rng :=
  match restore_file with
  | Some ck =>
      if restore_models_only then initial (population ck).*1 seed else ck
  | None => initial [] seed
  end.

(** Modelled from the spec: the number of evaluations the missing
    genetic algorithm spends on its start and on one generation. *)
Definition start_evals (restore_file : option (Checkpoint X Rng))
    (restore_models_only : bool) : nat :=
  match restore_file with
  | Some ck =>
      if restore_models_only
      then length (population ck) + (gen_size p - length (population ck))
      else 0
  | None => gen_size p
  end.

(** Modelled from the spec: the evaluations of one generation of the
    missing genetic algorithm, one for each candidate that is not
    carried over by elitism. *)
Definition generation_evals : nat := n_mutation p + n_crossover p + n_random.

(** Modelled from the spec: the final state of a call of the missing
    [optimize]; [maxiter - generation] generations are enough fuel. *)
Definition final (maxiter : nat) (seed : Rng)
    (restore_file : option (Checkpoint X Rng)) (restore_models_only : bool)
    : Checkpoint X Rng :=
  let ck := start seed restore_file restore_models_only in
  generations maxiter (maxiter - generation ck) ck.

(** Modelled from the spec: the content [save_file] goes through
    during a call of the missing [optimize]. *)
Definition save_file (maxiter : nat) (seed : Rng)
    (restore_file : option (Checkpoint X Rng)) (restore_models_only : bool)
    : list (Checkpoint X Rng) :=
  let ck := start seed restore_file restore_models_only in
  saved maxiter (maxiter - generation ck) ck.

(** Modelled from the spec: the contract of 4.2 of the missing genetic
    algorithm, [optimize(fitness_fn, variables, maxiter, ...,
    restore_file, restore_models_only, save_file, ...) -> Result];
    there is no result when no candidate was ever scored. *)
Definition optimize (maxiter : nat) (seed : Rng)
    (restore_file : option (Checkpoint X Rng)) (restore_models_only : bool)
    : option (Result X) :=
  let written := save_file maxiter seed restore_file restore_models_only in
  b ← best (final maxiter seed restore_file restore_models_only);
  Some {| x := b.1;
          y := b.2;
          n_evals := start_evals restore_file restore_models_only
                     + length written * generation_evals;
          history := omap (λ ck, snd <$> best ck) written |}.

End genetic_algorithm.

(** *** The local optimiser (4.3) *)

(** Modelled from the spec: the "underlying local search" the missing
    local optimiser adapter wraps: how its internal state ("step size /
    simplex") starts at a point, and how it moves from the current
    scored point to the next one. *)
Record LocalSearch (X Inner : Type) : Type := {
  ls_fresh : X → Inner;
  ls_move : Inner → X * Z → X * Inner;
}.
Arguments ls_fresh {X Inner}.
Arguments ls_move {X Inner}.

(** Modelled from the spec: the checkpoint of the missing local
    optimiser, "current point, iteration count, optimizer-internal
    state", with the best point seen that [restore_models_only] reuses. *)
Record LSCheckpoint (X Inner : Type) : Type := {
  iteration : nat;
  point : X * Z;
  inner : Inner;
  ls_best : X * Z;
}.
Arguments iteration {X Inner}.
Arguments point {X Inner}.
Arguments inner {X Inner}.
Arguments ls_best {X Inner}.

Section local_optimizer.
Context {X Rng Inner : Type} (pb : Problem X Rng) (mx : bool)
  (ls : LocalSearch X Inner).

(** Modelled from the spec: the state of the missing local optimiser
    when it starts at a point, internal state "from scratch at that
    point". *)
Definition ls_initial (x0 : X) : LSCheckpoint X Inner :=
  {| iteration := 0;
     point := (x0, fitness_fn pb x0);
     inner := ls_fresh ls x0;
     ls_best := (x0, fitness_fn pb x0) |}.

(** Modelled from the spec: one iteration of the missing local
    optimiser: the underlying search moves, the new point is scored,
    the best point seen is kept. *)
Definition ls_next (ck : LSCheckpoint X Inner) : LSCheckpoint X Inner :=
  let (x', inner') := ls_move ls (inner ck) (point ck) in
  let c := (x', fitness_fn pb x') in
  {| iteration := S (iteration ck);
     point := c;
     inner := inner';
     ls_best := if beats mx c.2 (ls_best ck).2 then c else ls_best ck |}.

(** Modelled from the spec: the loop of the missing local optimiser up
    to [maxiter] iterations; [fuel] bounds their number. *)
Fixpoint ls_iterations (maxiter fuel : nat) (ck : LSCheckpoint X Inner)
    : LSCheckpoint X Inner :=
  match fuel with
  | 0 => ck
  | S fuel' =>
      if maxiter <=? iteration ck then ck
      else ls_iterations maxiter fuel' (ls_next ck)
  end.

(** Modelled from the spec: the checkpoints the missing local optimiser
    persists to [save_file], one after each iteration, oldest first. *)
Fixpoint ls_saved (maxiter fuel : nat) (ck : LSCheckpoint X Inner)
    : list (LSCheckpoint X Inner) :=
  match fuel with
  | 0 => []
  | S fuel' =>
      if maxiter <=? iteration ck then []
      else ls_next ck :: ls_saved maxiter fuel' (ls_next ck)
  end.

(** Modelled from the spec: how the missing local optimiser starts
    (4.3): at [x0]; from the full saved state; or, with
    [restore_models_only], "reuse only the best point(s) seen, restart
    internal optimizer state from scratch at that point". *)
Definition ls_start (x0 : X) (restore_file : option (LSCheckpoint X Inner))
    (restore_models_only : bool) : LSCheckpoint X Inner :=
  match restore_file with
  | Some ck => if restore_models_only then ls_initial (ls_best ck).1 else ck
  | None => ls_initial x0
  end.

(** Modelled from the spec: the final state of a call of the missing
    local [optimize]; [maxiter - iteration] iterations are enough
    fuel. *)
Definition ls_final (x0 : X) (maxiter : nat)
    (restore_file : option (LSCheckpoint X Inner)) (restore_models_only : bool)
    : LSCheckpoint X Inner :=
  let ck := ls_start x0 restore_file restore_models_only in
  ls_iterations maxiter (maxiter - iteration ck) ck.

(** Modelled from the spec: the content [save_file] goes through
    during a call of the missing local [optimize]. *)
Definition ls_save_file (x0 : X) (maxiter : nat)
    (restore_file : option (LSCheckpoint X Inner)) (restore_models_only : bool)
    : list (LSCheckpoint X Inner) :=
  let ck := ls_start x0 restore_file restore_models_only in
  ls_saved maxiter (maxiter - iteration ck) ck.

(** Modelled from the spec: the contract of 4.3 of the missing local
    optimiser, [optimize(fitness_fn, variables, x0, maxiter,
    restore_file, restore_models_only, ...) -> Result]. *)
Definition ls_optimize (x0 : X) (maxiter : nat)
    (restore_file : option (LSCheckpoint X Inner)) (restore_models_only : bool)
    : Result X :=
  let written := ls_save_file x0 maxiter restore_file restore_models_only in
  let b := ls_best (ls_final x0 maxiter restore_file restore_models_only) in
  {| x := b.1;
     y := b.2;
     n_evals := (match restore_file with
                 | Some _ => if restore_models_only then 1 else 0
                 | None => 1
                 end) + length written;
     history := (λ ck, (ls_best ck).2) <$> written |}.

End local_optimizer.

(** *** The run coordinator (4.4) *)

(** Modelled from the spec: what a run of the missing [CoreRun] leaves
    in its output directory: the last checkpoint of the genetic
    algorithm and the last one of the local optimiser, if any was
    written. *)
Record OutputDir (X Rng Inner : Type) : Type := {
  ga_checkpoint : option (Checkpoint X Rng);
  ls_checkpoint : option (LSCheckpoint X Inner);
}.
Arguments ga_checkpoint {X Rng Inner}.
Arguments ls_checkpoint {X Rng Inner}.

(** Modelled from the spec: the settings the missing [CoreRun] reads
    (4.4; [SettingsStorage.get_global_optimizer] and
    [get_local_optimizer] in the sources): the genetic algorithm's
    options and [maxiter], the local optimiser if one is configured,
    with its [maxiter], the seed resolved in [INIT], and [resume_from]
    with [only_models]. *)
Record RunSettings (X Rng Inner : Type) : Type := {
  ga_options : GAParams;
  ga_maxiter : nat;
  local_optimizer : option (LocalSearch X Inner * nat);
  run_seed : Rng;
  resume_from : option (OutputDir X Rng Inner);
  only_models : bool;
}.
Arguments ga_options {X Rng Inner}.
Arguments ga_maxiter {X Rng Inner}.
Arguments local_optimizer {X Rng Inner}.
Arguments run_seed {X Rng Inner}.
Arguments resume_from {X Rng Inner}.
Arguments only_models {X Rng Inner}.

(** [SettingsStorage.get_global_optimizer] and [get_local_optimizer]
    (lines 587 and 595 of [settings_storage.py]) set [maximize = True]
    on the optimisers of a run. *)
Definition maximizing (p : GAParams) : GAParams :=
  {| gen_size := gen_size p;
     n_elitism := n_elitism p;
     n_mutation := n_mutation p;
     n_crossover := n_crossover p;
     eps := eps p;
     n_stuck_gen := n_stuck_gen p;
     maximize := true |}.

(** Modelled from the spec: the missing [CoreRun.run] (4.4).  The model
    and fitness function of [BUILD_MODEL] are the [Problem];
    [GLOBAL_SEARCH] invokes the genetic algorithm, passing the
    checkpoint of the [resume_from] directory as [restore_file] "with
    [restore_models_only] mirroring settings' [only_models] flag";
    [LOCAL_REFINE], "skipped if no local optimizer configured", starts
    the local optimiser at the best [x] of the genetic algorithm,
    "similarly resumable"; [DONE] returns the final result.  The
    shared registry plays no part in the result. *)
Definition core_run {X Rng Inner} (pb : Problem X Rng)
    (settings : RunSettings X Rng Inner)
    : option (Result X) * OutputDir X Rng Inner :=
  let p := maximizing (ga_options settings) in
  let ga_restore := resume_from settings ≫= ga_checkpoint in
  let ga_result :=
    optimize pb p (ga_maxiter settings) (run_seed settings) ga_restore
      (only_models settings) in
  let ga_file :=
    last (save_file pb p (ga_maxiter settings) (run_seed settings) ga_restore
            (only_models settings)) in
  match local_optimizer settings, ga_result with
  | Some (ls, ls_maxiter), Some r =>
      let ls_restore := resume_from settings ≫= ls_checkpoint in
      (Some (ls_optimize pb true ls (x r) ls_maxiter ls_restore
               (only_models settings)),
       {| ga_checkpoint := ga_file;
          ls_checkpoint :=
            last (ls_save_file pb true ls (x r) ls_maxiter ls_restore
                    (only_models settings)) |})
  | _, _ => (ga_result, {| ga_checkpoint := ga_file; ls_checkpoint := None |})
  end.

(** The settings of a run resumed from the output directory of a
    previous one: [restore_settings] in [test_gs_and_ls_restore]. *)
Definition resumed {X Rng Inner} (settings : RunSettings X Rng Inner)
    (dir : OutputDir X Rng Inner) (models_only : bool)
    : RunSettings X Rng Inner :=
  {| ga_options := ga_options settings;
     ga_maxiter := ga_maxiter settings;
     local_optimizer := local_optimizer settings;
     run_seed := run_seed settings;
     resume_from := Some dir;
     only_models := models_only |}.

(** *** Two small problems over the integers *)

(** A hill to climb: the score falls off quadratically around 40;
    resampling walks through [-5 .. 5], mutation moves the best
    candidate by up to two steps the size of the stuck counter plus
    one, crossover averages the two best candidates. *)
Definition hill : Problem Z Z := {|
  fitness_fn := λ c, (- ((c - 40) * (c - 40)))%Z;
  resample := λ r, ((r * 7 + 2) `mod` 11 - 5, r + 1)%Z;
  mutate := λ stuck pop r,
    (match pop with
     | (c, _) :: _ => c + ((r * 3) `mod` 5 - 2) * (Z.of_nat stuck + 1)
     | [] => 0
     end, r + 1)%Z;
  crossover := λ pop r,
    (match pop with
     | (c, _) :: (d, _) :: _ => (c + d) `div` 2
     | (c, _) :: _ => c
     | [] => 0
     end, r + 1)%Z;
|}.

(** The options of [test_ga_restore], with [gen_size = 10]. *)
Definition hill_options : GAParams := {|
  gen_size := 10; n_elitism := 2; n_mutation := 3; n_crossover := 3;
  eps := 0; n_stuck_gen := 100; maximize := true;
|}.

(** A search that only gets worse: the score of a candidate is the
    candidate, the first candidate is the seed and every mutation is
    the current candidate minus one. *)
Definition downhill : Problem Z Z := {|
  fitness_fn := λ c, c;
  resample := λ r, (r, r + 1)%Z;
  mutate := λ _ pop r,
    (match pop with (c, _) :: _ => c - 1 | [] => 0 end, r)%Z;
  crossover := λ _ r, (r, r + 1)%Z;
|}.

(** One candidate, replaced by a mutation in every generation: no
    elitism. *)
Definition no_elitism : GAParams := {|
  gen_size := 1; n_elitism := 0; n_mutation := 1; n_crossover := 0;
  eps := 0; n_stuck_gen := 100; maximize := true;
|}.

(** A local search that steps to the right by its step size and halves
    the step. *)
Definition stepper : LocalSearch Z Z := {|
  ls_fresh := λ _, 4%Z;
  ls_move := λ step c, (c.1 + step, step `div` 2)%Z;
|}.

(** The state in which the run of [test_ga_restore] ends after five
    generations from seed 0, which is also the last checkpoint it
    saves; and the same for five iterations of [stepper] from -4. *)
Definition hill_checkpoint : Checkpoint Z Z :=
  final hill hill_options 5 0%Z None false.
Definition stepper_checkpoint : LSCheckpoint Z Z :=
  ls_final hill true stepper (-4)%Z 5 None false.

(** The second and last checkpoint of the run of [downhill]. *)
Definition downhill_checkpoint : Checkpoint Z Z :=
  final downhill no_elitism 2 0%Z None false.

(** The settings of a run in the manner of [test_gs_and_ls_restore]:
    the genetic algorithm for five generations, then [stepper] for five
    iterations. *)
Definition hill_settings : RunSettings Z Z Z := {|
  ga_options := hill_options; ga_maxiter := 5;
  local_optimizer := Some (stepper, 5); run_seed := 0%Z;
  resume_from := None; only_models := false;
|}.

(** A run of [downhill] for two generations, without elitism and
    without a local optimiser. *)
Definition downhill_settings : RunSettings Z Z Z := {|
  ga_options := no_elitism; ga_maxiter := 2;
  local_optimizer := None; run_seed := 0%Z;
  resume_from := None; only_models := false;
|}.

End Optimizer.
(** * Proofs *)

(** ** Loops *)

(** Case analysis on every fallible step of a computation. *)
Ltac result_cases :=
  repeat (simplify_eq/=; unfold mbind, result_bind in *; case_match).

Section for_each_facts.
Context {X D : Type}.
Implicit Types (xs : list X) (body : X → D → result D) (d : D).

Lemma for_each_snoc xs x body d :
  for_each (xs ++ [x]) body d = (d' ← for_each xs body d; body x d').
Proof.
  revert d; induction xs as [|y xs IH]; intros d; simpl.
  - by destruct (body x d).
  - destruct (body y d) as [d1|]; simpl; [apply IH | done].
Qed.

(** Loop invariant indexed by the elements already visited. *)
Lemma for_each_ind (P : list X → D → Prop) xs body d d' :
  P [] d →
  (∀ pre x d1 d2, P pre d1 → x ∈ xs → body x d1 = Ok d2 → P (pre ++ [x]) d2) →
  for_each xs body d = Ok d' →
  P xs d'.
Proof.
  revert d d'. induction xs as [|x xs IH] using rev_ind; intros d d' H0 Hstep.
  - simpl. by intros [= <-].
  - rewrite for_each_snoc.
    destruct (for_each xs body d) as [d1|] eqn:E; simpl; [|done].
    intros Hx. eapply Hstep; [|set_solver|done].
    eapply IH; [done| |done].
    intros pre y d2 d3 ? ? ?. eapply Hstep; [done|set_solver|done].
Qed.

Lemma for_each_is_Ok xs body d :
  (∀ x d1, x ∈ xs → is_Ok (body x d1)) → is_Ok (for_each xs body d).
Proof.
  revert d; induction xs as [|x xs IH]; intros d Hb; simpl.
  - by eexists.
  - destruct (Hb x d) as [d1 ->]; [set_solver|]. simpl.
    apply IH. intros; apply Hb; set_solver.
Qed.
End for_each_facts.

Lemma elem_of_range n i : i ∈ range n ↔ i < n.
Proof. unfold range. rewrite elem_of_seq. lia. Qed.

Lemma index_lookup {A} (l : list A) i a : l !! i = Some a → index l i = Ok a.
Proof. intros H. unfold index. by rewrite H. Qed.

Lemma index_is_Ok {A} (l : list A) i : i < length l → is_Ok (index l i).
Proof.
  intros Hi. unfold index.
  destruct (lookup_lt_is_Some_2 l i Hi) as [a ->]. by eexists.
Qed.

(** ** Decimal labels *)

Lemma pretty_N_go_length x s :
  String.length s ≤ String.length (pretty_N_go x s).
Proof.
  revert s. induction (N.lt_wf_0 x) as [x _ IH]; intros s.
  destruct (decide (x = 0)%N) as [->|].
  - by rewrite pretty_N_go_0.
  - rewrite pretty_N_go_step by lia.
    etrans; [|apply IH, N.div_lt; lia]. simpl. lia.
Qed.

Lemma pretty_nat_nonempty (n : nat) : pretty n ≠ "".
Proof.
  unfold pretty, pretty_nat, pretty, pretty_N.
  case_decide; [done|].
  rewrite pretty_N_go_step by lia.
  intros Heq.
  pose proof (pretty_N_go_length (N.of_nat n `div` 10)
    (String (pretty_N_char (N.of_nat n `mod` 10)) "")) as Hlen.
  rewrite Heq in Hlen. simpl in Hlen. lia.
Qed.

(** ** Loops that fill a dictionary *)

Section writes.
Context {V : Type}.
Implicit Types (d : gmap string V) (k : string).

(** [f x] only adds or overwrites the keys selected by [K x]. *)
Definition writes {X} (K : X → string → Prop)
    (f : X → gmap string V → result (gmap string V)) : Prop :=
  ∀ x d1 d2, f x d1 = Ok d2 →
    ∀ k, (is_Some (d1 !! k) → is_Some (d2 !! k)) ∧
         (K x k → is_Some (d2 !! k)) ∧
         (¬ K x k → d2 !! k = d1 !! k).

Lemma writes_insert {X} (K : X → string → Prop) f :
  (∀ x d1 d2, f x d1 = Ok d2 →
     d2 = d1 ∧ (∀ k, ¬ K x k) ∨ ∃ k' v, d2 = <[k' := v]> d1 ∧ ∀ k, K x k ↔ k = k') →
  writes K f.
Proof.
  intros Hf x d1 d2 Hx k.
  destruct (Hf _ _ _ Hx) as [[-> HK]|(k' & v & -> & HK)].
  - split_and!; [done| |done]. intros ?. by destruct (HK k).
  - rewrite HK. split_and!.
    + intros ?. rewrite lookup_insert_is_Some. destruct (decide (k' = k)); auto.
    + intros ->. by rewrite lookup_insert_eq.
    + intros ?. by rewrite lookup_insert_ne.
Qed.

Lemma for_each_writes {X} (K : X → string → Prop) body :
  writes K body →
  writes (λ xs k, ∃ x, x ∈ xs ∧ K x k) (λ xs, for_each xs body).
Proof.
  intros Hb xs. induction xs as [|x xs IH]; intros d1 d2; simpl.
  - intros [= <-] k. split_and!; [done| |done].
    intros (x & Hx & _). by apply elem_of_nil in Hx.
  - destruct (body x d1) as [d|] eqn:Ex; simpl; [|done].
    intros Hloop k.
    destruct (Hb _ _ _ Ex k) as (Hm1 & Hh1 & Hn1).
    destruct (IH _ _ Hloop k) as (Hm2 & Hh2 & Hn2).
    split_and!.
    + auto.
    + intros (y & [->|Hy]%elem_of_cons & HK); [auto|].
      apply Hh2. eauto.
    + intros Hnot. rewrite Hn2, Hn1; [done|..].
      * intros ?. apply Hnot. exists x. split; [left|done].
      * intros (y & ? & ?). apply Hnot. exists y. split; [by right|done].
Qed.
End writes.

Module DadiFacts.
Import DadiEngine.

Implicit Types (event : Epoch) (d : gmap string arg) (k : string).

(** The keys [_get_kwargs] writes, read off the three parts of its body. *)
Definition size_key event k : Prop :=
  ∃ i, i < n_pop event ∧ k = nu_name (n_pop event) i.
Definition mig_key event k : Prop :=
  is_Some (mig_args event) ∧
  ∃ i j, i < n_pop event ∧ j < n_pop event ∧ i ≠ j ∧ k = m_name i j.
Definition sel_key event k : Prop :=
  is_Some (sel_args event) ∧ k = gamma_name (n_pop event) (n_pop event - 1).

Lemma size_body_writes event v :
  writes (λ i k, k = nu_name (n_pop event) i) (size_body event v).
Proof.
  apply writes_insert. intros i d1 d2 Hbody. right.
  unfold size_body in Hbody.
  result_cases; simplify_eq/=; eauto.
Qed.

Lemma mig_body_writes event mig :
  writes (λ i k, ∃ j, j ∈ range (n_pop event) ∧ i ≠ j ∧ k = m_name i j)
         (mig_body event mig).
Proof.
  intros i. unfold mig_body.
  apply (for_each_writes (λ j k, i ≠ j ∧ k = m_name i j)).
  apply writes_insert. intros j d1 d2 Hbody.
  case_decide; simplify_eq/=.
  - left. naive_solver.
  - right. result_cases; simplify_eq/=.
    do 2 eexists. split; [done|]. naive_solver.
Qed.

Lemma sel_loop_writes sel name :
  writes (λ (_ : nat) k, k = name)
         (λ i d, s ← index sel i; Ok (<[name := s]> d)).
Proof.
  apply writes_insert. intros i d1 d2 Hbody. right.
  result_cases; simplify_eq/=. eauto.
Qed.

Lemma no_clash_below_111 : self_label_clash 110 = false.
Proof. vm_compute. reflexivity. Qed.

Lemma elem_of_labelled n i : i < n → (i, pretty (i + 1)) ∈ labelled n.
Proof.
  intros Hi. unfold labelled.
  apply (list_elem_of_fmap_2 (λ i, (i, pretty (i + 1)))).
  by apply elem_of_range.
Qed.

Lemma m_name_not_self n (i j c : nat) :
  n ≤ 110 → i < n → j < n → c < n → i ≠ j → m_name i j ≠ m_name c c.
Proof.
  intros Hn Hi Hj Hc Hij Heq.
  assert (self_label_clash 110 = true) as Hclash;
    [|by rewrite no_clash_below_111 in Hclash].
  unfold self_label_clash.
  apply existsb_exists. exists (c, pretty (c + 1)).
  split; [apply list_elem_of_In, elem_of_labelled; lia|].
  apply existsb_exists. exists (i, pretty (i + 1)).
  split; [apply list_elem_of_In, elem_of_labelled; lia|].
  apply existsb_exists. exists (j, pretty (j + 1)).
  split; [apply list_elem_of_In, elem_of_labelled; lia|].
  apply andb_true_iff. split.
  - by apply negb_true_iff, Nat.eqb_neq.
  - apply String.eqb_eq. unfold m_name in Heq. by simplify_eq/=.
Qed.

(** Where a key of the result comes from. *)
Lemma get_kwargs_lookup event v d :
  _get_kwargs event v = Ok d →
  ∀ k,
    (k = "T" ∨ size_key event k ∨ mig_key event k ∨ sel_key event k →
       is_Some (d !! k)) ∧
    (¬ size_key event k → ¬ mig_key event k → ¬ sel_key event k →
       d !! k = ({[ "T" := time_arg event ]} : gmap string arg) !! k).
Proof.
  unfold _get_kwargs. intros Hrun k.
  destruct (for_each _ (size_body event v) _) as [d1|] eqn:E1; simplify_eq/=.
  pose proof (for_each_writes _ _ (size_body_writes event v) _ _ _ E1 k)
    as (Hm1 & Hh1 & Hn1).
  assert (∃ d2, match mig_args event with
                | Some mig => for_each (range (n_pop event)) (mig_body event mig) d1
                | None => Ok d1
                end = Ok d2 ∧ sel_part event d2 = Ok d) as (d2 & E2 & E3).
  { unfold mbind, result_bind in Hrun. case_match; [eauto|done]. }
  clear Hrun.
  assert ((is_Some (d1 !! k) → is_Some (d2 !! k)) ∧
          (mig_key event k → is_Some (d2 !! k)) ∧
          (¬ mig_key event k → d2 !! k = d1 !! k)) as (Hm2 & Hh2 & Hn2).
  { unfold mig_key. destruct (mig_args event) as [mig|].
    - pose proof (for_each_writes _ _ (mig_body_writes event mig) _ _ _ E2 k)
        as (? & Hh & Hn).
      split_and!; [done|..].
      + intros (_ & i & j & ? & ? & ? & ?). apply Hh.
        exists i. rewrite elem_of_range. split; [done|].
        exists j. by rewrite elem_of_range.
      + intros Hnot. apply Hn. intros (i & Hi & j & Hj & ? & ?).
        apply elem_of_range in Hi, Hj. apply Hnot. split; [by eexists|].
        by exists i, j.
    - simplify_eq. split_and!; [done| |done].
      intros [[] _]. simplify_eq. }
  assert ((is_Some (d2 !! k) → is_Some (d !! k)) ∧
          (sel_key event k → is_Some (d !! k)) ∧
          (¬ sel_key event k → d !! k = d2 !! k)) as (Hm3 & Hh3 & Hn3).
  { unfold sel_key, sel_part in *. destruct (sel_args event) as [sel|].
    - assert (∃ name, for_each (range (n_pop event))
                (λ i d, s ← index sel i; Ok (<[name := s]> d)) d2 = Ok d ∧
                0 < n_pop event ∧
                name = gamma_name (n_pop event) (n_pop event - 1))
        as (name & E4 & Hpos & ->).
      { unfold gamma_name, last_i in *.
        destruct (n_pop event) as [|n] eqn:En; [by result_cases|].
        case_decide; simplify_eq/=.
        - eexists. split; [done|]. split; [lia|done].
        - eexists. split; [done|]. split; [lia|].
          do 2 f_equal. lia. }
      pose proof (for_each_writes _ _ (sel_loop_writes sel _) _ _ _ E4 k)
        as (? & Hh & Hn).
      split_and!; [done|..].
      + intros [_ ->]. apply Hh. exists 0. rewrite elem_of_range. done.
      + intros Hnot. apply Hn. intros (_ & _ & ->). apply Hnot.
        split; [by eexists|done].
    - simplify_eq. split_and!; [done| |done].
      intros [[] _]. simplify_eq. }
  split.
  - intros [->|[(i & Hi & ->)|[?|?]]]; [| |by auto..].
    + apply Hm3, Hm2, Hm1. by rewrite lookup_singleton_eq.
    + apply Hm3, Hm2, Hh1. exists i. by rewrite elem_of_range.
  - intros Hs Hg Hl. rewrite Hn3, Hn2, Hn1; [done|..]; try done.
    intros (i & Hi & ->). apply elem_of_range in Hi. apply Hs. by exists i.
Qed.

Lemma get_kwargs_is_Ok event v : epoch_wf event → is_Ok (_get_kwargs event v).
Proof.
  intros (Hpos & Hsize & Hdyn & Hmig & Hsel). unfold _get_kwargs.
  destruct (for_each_is_Ok (range (n_pop event)) (size_body event v)
              {[ "T" := time_arg event ]}) as [d1 ->].
  { intros i d Hi%elem_of_range. unfold size_body.
    destruct (index_is_Ok (size_args event) i) as [s Hs]; [lia|].
    destruct (dyn_args event) as [dyn|] eqn:Ed.
    - destruct (index_is_Ok dyn i) as [a ->]; [rewrite (Hdyn dyn); done|].
      simpl. case_decide; [rewrite Hs|]; by eexists.
    - rewrite Hs. by eexists. }
  simpl.
  assert (is_Ok (match mig_args event with
                 | Some mig => for_each (range (n_pop event)) (mig_body event mig) d1
                 | None => Ok d1
                 end)) as [d2 ->].
  { destruct (mig_args event) as [mig|] eqn:Em; [|by eexists].
    destruct (Hmig mig eq_refl) as [Hlen Hrows].
    apply for_each_is_Ok. intros i d Hi%elem_of_range.
    apply for_each_is_Ok. intros j d' Hj%elem_of_range.
    case_decide; [by eexists|].
    destruct (lookup_lt_is_Some_2 mig i) as [row Hrow]; [lia|].
    rewrite (index_lookup _ _ _ Hrow). simpl.
    destruct (index_is_Ok row j) as [m ->]; [|by eexists].
    rewrite Forall_lookup in Hrows. by rewrite (Hrows _ _ Hrow). }
  simpl. unfold sel_part.
  destruct (sel_args event) as [sel|] eqn:Es; [|by eexists].
  assert (∃ name, (if decide (n_pop event = 1) then Ok "gamma"
                   else i ← last_i event; Ok ("gamma" +:+ pretty (i + 1)))
                  = Ok name) as [name ->].
  { case_decide; [by eexists|]. unfold last_i.
    destruct (n_pop event); [lia|]. by eexists. }
  simpl. apply for_each_is_Ok. intros i d Hi%elem_of_range.
  destruct (index_is_Ok sel i) as [s ->]; [rewrite (Hsel sel); done|].
  by eexists.
Qed.

(** Keys of different parts never coincide: they differ in their
    first letter, or one is a proper prefix of the other. *)
Ltac key_discr :=
  unfold size_key, mig_key, sel_key, nu_name, m_name, gamma_name;
  unfold not; intros;
  repeat match goal with H : ∃ _, _ |- _ => destruct H | H : _ ∧ _ |- _ => destruct H end;
  repeat case_decide; simplify_eq/=;
  repeat match goal with
  | H : ?p = ?p +:+ ?s |- _ =>
      change (p +:+ "" = p +:+ s) in H; apply (inj (String.append p)) in H
  | H : ?p +:+ ?s = ?p |- _ => symmetry in H
  end;
  try (by exfalso; eapply pretty_nat_nonempty; eauto).

Lemma T_is_fresh event k :
  k = "T" → ¬ size_key event k ∧ ¬ mig_key event k ∧ ¬ sel_key event k.
Proof. intros ->. split_and!; by key_discr. Qed.

Lemma nu_keys_one event k :
  n_pop event = 1 →
  (size_key event k ↔ k = "nu") ∧ ¬ mig_key event "nu" ∧ ¬ sel_key event "nu".
Proof.
  intros Hn. split_and!; [|by key_discr..].
  unfold size_key, nu_name. rewrite Hn. split.
  - by intros (i & _ & ->).
  - intros ->. exists 0. split; [lia|done].
Qed.

Lemma nu_keys_many event (i : nat) :
  1 < n_pop event →
  (size_key event ("nu" +:+ pretty (i + 1)) ↔ i < n_pop event) ∧
  ¬ size_key event "nu".
Proof.
  intros Hn. split.
  - unfold size_key, nu_name. case_decide; [lia|]. split.
    + intros (i' & Hi' & Heq). simplify_eq/=.
      by replace i with i' by lia.
    + intros Hi. by exists i.
  - unfold size_key, nu_name. case_decide; [lia|].
    intros (i' & _ & Heq). by key_discr.
Qed.

Lemma nu_label_not_other event (i : nat) :
  ¬ mig_key event ("nu" +:+ pretty (i + 1)) ∧
  ¬ sel_key event ("nu" +:+ pretty (i + 1)).
Proof. split; by key_discr. Qed.

Lemma m_label_not_other event (i j : nat) :
  ¬ size_key event (m_name i j) ∧ ¬ sel_key event (m_name i j) ∧
  m_name i j ≠ "T".
Proof. split_and!; by key_discr. Qed.

(** C10, as amended: for every well-formed [Epoch] of at most 110
    populations [_get_kwargs] returns a dictionary that maps ['T'] to the
    event's [time_arg]; whose size keys are ['nu'] alone for one
    population and exactly ['nu1'..'nuN'] for [N > 1] populations; that
    has, when migration arguments are present, a key ['m{i}{j}'] for
    every ordered pair of distinct populations; and that has no key
    ['m{i}{i}'] for any population [i] of the event. *)
Theorem get_kwargs_keys event v :
  epoch_wf event →
  n_pop event ≤ 110 →
  ∃ d, _get_kwargs event v = Ok d ∧
    d !! "T" = Some (time_arg event) ∧
    (n_pop event = 1 →
       is_Some (d !! "nu") ∧ ∀ i : nat, d !! ("nu" +:+ pretty (i + 1)) = None) ∧
    (1 < n_pop event →
       d !! "nu" = None ∧
       ∀ i : nat, is_Some (d !! ("nu" +:+ pretty (i + 1))) ↔ i < n_pop event) ∧
    (is_Some (mig_args event) →
       ∀ i j, i < n_pop event → j < n_pop event → i ≠ j →
         is_Some (d !! ("m" +:+ pretty (i + 1) +:+ pretty (j + 1)))) ∧
    (∀ i, i < n_pop event →
       d !! ("m" +:+ pretty (i + 1) +:+ pretty (i + 1)) = None).
Proof.
  intros Hwf Hn. destruct (get_kwargs_is_Ok event v Hwf) as [d Hd].
  exists d. split; [done|].
  pose proof (get_kwargs_lookup _ _ _ Hd) as Hlook.
  assert (∀ k, k ≠ "T" → ¬ size_key event k → ¬ mig_key event k →
               ¬ sel_key event k → d !! k = None) as Hnone.
  { intros k ? ? ? ?. destruct (Hlook k) as [_ Hk].
    rewrite Hk by done. by rewrite lookup_singleton_ne. }
  split_and!.
  - destruct (Hlook "T") as [_ HT].
    destruct (T_is_fresh event "T" eq_refl) as (? & ? & ?).
    rewrite HT by done. by rewrite lookup_singleton_eq.
  - intros H1. split.
    + apply Hlook. right; left. by apply nu_keys_one.
    + intros i. apply Hnone; [done| |apply nu_label_not_other..].
      rewrite (proj1 (nu_keys_one event _ H1)). by key_discr.
  - intros Hmany. split.
    + apply Hnone;
        [done|apply (proj2 (nu_keys_many event 0 Hmany))|by key_discr..].
    + intros i. split.
      * intros Hsome. destruct (decide (i < n_pop event)) as [|Hge]; [done|].
        rewrite Hnone in Hsome; [by destruct Hsome|done|..].
        -- by rewrite (proj1 (nu_keys_many event i Hmany)).
        -- apply nu_label_not_other.
        -- apply nu_label_not_other.
      * intros Hi. apply Hlook. right; left. by apply nu_keys_many.
  - intros Hmig i j Hi Hj Hij. apply Hlook. right; right; left.
    split; [done|]. by exists i, j.
  - intros i Hi. fold (m_name i i).
    destruct (m_label_not_other event i i) as (? & ? & ?).
    apply Hnone; [done..| |done].
    intros (_ & a & b & ? & ? & ? & Heq).
    by eapply (m_name_not_self (n_pop event) a b i).
Qed.

Lemma epoch3_wf : epoch_wf epoch3.
Proof.
  unfold epoch_wf, epoch3; simpl. split_and!; [lia|done|..].
  - by intros ? [= <-].
  - intros ? [= <-]. split; [done|]. by repeat constructor.
  - done.
Qed.

Lemma get_kwargs_keys_witness :
  ∃ d, _get_kwargs epoch3 {[ AVar "dyn2" := AStr "Exp" ]} = Ok d ∧
    d !! "T" = Some (AVar "t1") ∧
    (3 = 1 →
       is_Some (d !! "nu") ∧ ∀ i : nat, d !! ("nu" +:+ pretty (i + 1)) = None) ∧
    (1 < 3 →
       d !! "nu" = None ∧
       ∀ i : nat, is_Some (d !! ("nu" +:+ pretty (i + 1))) ↔ i < 3) ∧
    (is_Some (mig_args epoch3) →
       ∀ i j, i < 3 → j < 3 → i ≠ j →
         is_Some (d !! ("m" +:+ pretty (i + 1) +:+ pretty (j + 1)))) ∧
    (∀ i, i < 3 → d !! ("m" +:+ pretty (i + 1) +:+ pretty (i + 1)) = None).
Proof.
  apply (get_kwargs_keys epoch3 {[ AVar "dyn2" := AStr "Exp" ]}).
  - exact epoch3_wf.
  - simpl. lia.
Defined.

Lemma flat_epoch_wf n : 1 ≤ n → epoch_wf (flat_epoch n).
Proof.
  intros Hn. unfold epoch_wf, flat_epoch; simpl.
  split_and!; [done|by rewrite length_replicate|done| |done].
  intros ? [= <-]. rewrite length_replicate. split; [done|].
  apply Forall_replicate. by rewrite length_replicate.
Qed.

(** With 111 populations the pair (1, 111) is written under ['m1111'],
    which is also how the pair (11, 11) reads: the claim's "never a
    key ['m{i}{i}']" fails there. *)
Lemma get_kwargs_self_key_at_111 :
  epoch_wf (flat_epoch 111) ∧
  "m" +:+ pretty (10 + 1) +:+ pretty (10 + 1) = "m1111" ∧
  ∃ d, _get_kwargs (flat_epoch 111) ∅ = Ok d ∧
       is_Some (d !! ("m" +:+ pretty (10 + 1) +:+ pretty (10 + 1))).
Proof.
  assert (epoch_wf (flat_epoch 111)) as Hwf by (apply flat_epoch_wf; lia).
  split; [done|]. split; [by vm_compute|].
  destruct (get_kwargs_is_Ok (flat_epoch 111) ∅ Hwf) as [d Hd].
  exists d. split; [done|].
  apply (get_kwargs_lookup _ _ _ Hd). right; right; left.
  split; [by eexists|]. exists 0, 110. simpl.
  split_and!; [lia..|]. by vm_compute.
Qed.

End DadiFacts.

(** ** More on [DadiEngine._get_kwargs] *)

Module DadiMore.
Import DadiEngine DadiFacts.

(** *** Loops again *)

Section loops.
Context {X D : Type}.
Implicit Types (xs : list X) (body : X → D → result D).

Lemma for_each_app xs ys body (d : D) :
  for_each (xs ++ ys) body d = (d' ← for_each xs body d; for_each ys body d').
Proof.
  revert d. induction xs as [|x xs IH]; intros d; simpl.
  - done.
  - destruct (body x d) as [d1|]; simpl; [apply IH|done].
Qed.

(** A loop that fails fails in its body. *)
Lemma for_each_Raise xs body (d : D) e :
  for_each xs body d = Raise e → ∃ x d1, x ∈ xs ∧ body x d1 = Raise e.
Proof.
  revert d. induction xs as [|x xs IH]; intros d; simpl; [done|].
  destruct (body x d) as [d1|e'] eqn:Hx; simpl.
  - intros (y & d2 & ? & ?)%IH. exists y, d2. split; [by right|done].
  - intros [= ->]. exists x, d. split; [by left|done].
Qed.
End loops.

(** A loop over pairs, written as two nested loops. *)
Lemma for_each_nested {X Y D} (xs : list X) (ys : list Y)
    (f : X → Y → D → result D) (d : D) :
  for_each xs (λ x, for_each ys (f x)) d
  = for_each (x ← xs; (λ y, (x, y)) <$> ys) (λ p, f p.1 p.2) d.
Proof.
  assert (∀ x d0, for_each ((λ y, (x, y)) <$> ys) (λ p, f p.1 p.2) d0
                  = for_each ys (f x) d0) as Hrow.
  { intros x. induction ys as [|y ys IHy]; intros d0; simpl; [done|].
    destruct (f x y d0); simpl; [apply IHy|done]. }
  revert d. induction xs as [|x xs IH]; intros d; [done|].
  rewrite bind_cons, for_each_app, Hrow. simpl.
  destruct (for_each ys (f x) d) as [d1|]; simpl; [apply IH|done].
Qed.

Section dictionary_loops.
Context {X V : Type}.
Implicit Types (xs : list X) (d : gmap string V).

(** What a loop leaves under a key when each element writes at most
    one key and all the writers of the key write alike. *)
Lemma for_each_written xs (body : X → gmap string V → result (gmap string V))
    (key : X → option string) (W : X → V → Prop) d d' x k :
  (∀ y d1 d2, body y d1 = Ok d2 →
     key y = None ∧ d2 = d1 ∨
     ∃ k' v, key y = Some k' ∧ W y v ∧ d2 = <[k' := v]> d1) →
  for_each xs body d = Ok d' →
  x ∈ xs → key x = Some k →
  (∀ y v, y ∈ xs → key y = Some k → W y v → W x v) →
  ∃ v, W x v ∧ d' !! k = Some v.
Proof.
  intros Hbody Hrun Hx Hk Hsame.
  cut ((∃ y, y ∈ xs ∧ key y = Some k) → ∃ v, W x v ∧ d' !! k = Some v).
  { intros Hcut. apply Hcut. eauto. }
  revert Hrun.
  apply (for_each_ind
    (λ pre d0, (∃ y, y ∈ pre ∧ key y = Some k) → ∃ v, W x v ∧ d0 !! k = Some v)).
  - intros (y & Hy & _). by apply elem_of_nil in Hy.
  - intros pre z d1 d2 IH Hz Hz2 (y & Hy & Hyk).
    destruct (Hbody _ _ _ Hz2) as [[Hnone ->]|(k' & v & Hsome & Hw & ->)].
    + apply IH. exists y. split; [|done].
      apply elem_of_app in Hy as [?|Hy%list_elem_of_singleton]; [done|].
      congruence.
    + destruct (decide (k' = k)) as [->|Hne].
      * exists v. rewrite lookup_insert_eq. split; [|done]. by eapply Hsame.
      * rewrite lookup_insert_ne by done. apply IH. exists y. split; [|done].
        apply elem_of_app in Hy as [?|Hy%list_elem_of_singleton]; [done|].
        congruence.
Qed.

(** What a loop leaves under the one key all its elements write: the
    value of the last one. *)
Lemma for_each_same_key xs x (val : X → result V) name d d' :
  for_each (xs ++ [x]) (λ y d0, s ← val y; Ok (<[name := s]> d0)) d = Ok d' →
  ∃ v, val x = Ok v ∧ d' !! name = Some v.
Proof.
  rewrite for_each_snoc.
  destruct (for_each xs _ d) as [d1|]; simpl; [|done].
  destruct (val x) as [v|]; simpl; [|done].
  intros [= <-]. exists v. by rewrite lookup_insert_eq.
Qed.
End dictionary_loops.

(** *** The stages of a call *)

Implicit Types (event : Epoch) (d : gmap string arg) (k : string).

Lemma get_kwargs_stages event v d :
  _get_kwargs event v = Ok d →
  ∃ d1 d2,
    for_each (range (n_pop event)) (size_body event v)
      {[ "T" := time_arg event ]} = Ok d1 ∧
    match mig_args event with
    | Some mig => for_each (range (n_pop event)) (mig_body event mig) d1
    | None => Ok d1
    end = Ok d2 ∧
    sel_part event d2 = Ok d.
Proof.
  unfold _get_kwargs. intros Hrun.
  destruct (for_each _ (size_body event v) _) as [d1|] eqn:E1; simplify_eq/=.
  exists d1. unfold mbind, result_bind in Hrun. case_match; [eauto|done].
Qed.

(** The name the selection loop writes under. *)
Lemma sel_part_loop event sel d2 d :
  sel_args event = Some sel →
  sel_part event d2 = Ok d →
  0 < n_pop event ∧
  for_each (range (n_pop event))
    (λ i d0, s ← index sel i;
             Ok (<[gamma_name (n_pop event) (n_pop event - 1) := s]> d0)) d2
  = Ok d.
Proof.
  intros Hsel. unfold sel_part, gamma_name, last_i. rewrite Hsel.
  destruct (n_pop event) as [|n] eqn:En.
  - case_decide; [lia|]. done.
  - intros Hrun. split; [lia|].
    case_decide; simplify_eq/=; [done|].
    by replace (n - 0 + 1) with (n + 1) by lia.
Qed.

Lemma mig_stage_frame event d1 d2 k :
  match mig_args event with
  | Some mig => for_each (range (n_pop event)) (mig_body event mig) d1
  | None => Ok d1
  end = Ok d2 →
  ¬ mig_key event k → d2 !! k = d1 !! k.
Proof.
  intros Hrun Hnot. destruct (mig_args event) as [mig|] eqn:Hmig;
    [|by simplify_eq].
  pose proof (for_each_writes _ _ (mig_body_writes event mig) _ _ _ Hrun k)
    as (_ & _ & Hn).
  apply Hn. intros (i & Hi & j & Hj & ? & ?).
  apply elem_of_range in Hi, Hj. apply Hnot. unfold mig_key. rewrite Hmig.
  split; [by eexists|]. by exists i, j.
Qed.

Lemma sel_stage_frame event d2 d k :
  sel_part event d2 = Ok d → ¬ sel_key event k → d !! k = d2 !! k.
Proof.
  intros Hrun Hnot. destruct (sel_args event) as [sel|] eqn:Hsel.
  - destruct (sel_part_loop _ _ _ _ Hsel Hrun) as [_ Hloop].
    pose proof (for_each_writes _ _ (sel_loop_writes sel _) _ _ _ Hloop k)
      as (_ & _ & Hn).
    apply Hn. intros (_ & _ & ->). apply Hnot. unfold sel_key. rewrite Hsel.
    split; [by eexists|done].
  - unfold sel_part in Hrun. rewrite Hsel in Hrun. by simplify_eq.
Qed.

(** *** The sizes *)

(** Different populations have different size keys. *)
Lemma nu_name_inj n i j : i < n → j < n → nu_name n i = nu_name n j → i = j.
Proof.
  unfold nu_name. case_decide; [lia|]. intros _ _ Heq. simplify_eq/=. lia.
Qed.

(** What the first loop writes for population [i]. *)
Definition size_written event (v : gmap arg arg) (i : nat) (a : arg) : Prop :=
  match dyn_args event with
  | Some dyn =>
      ∃ dyn_arg, dyn !! i = Some dyn_arg ∧
        if decide (get_default v dyn_arg = AStr "Sud")
        then size_args event !! i = Some a
        else a = AStr (nu_func_name i)
  | None => size_args event !! i = Some a
  end.

Lemma index_Ok {A} (l : list A) i a : index l i = Ok a → l !! i = Some a.
Proof. unfold index. by destruct (l !! i); intros [= ->]. Qed.

Lemma size_body_written event v i d1 d2 :
  size_body event v i d1 = Ok d2 →
  ∃ a, size_written event v i a ∧ d2 = <[nu_name (n_pop event) i := a]> d1.
Proof.
  unfold size_body, size_written. destruct (dyn_args event) as [dyn|].
  - destruct (index dyn i) as [dyn_arg|] eqn:Hd; simpl; [|done].
    apply index_Ok in Hd.
    destruct (decide (get_default v dyn_arg = AStr "Sud")) as [Hsud|Hsud].
    + destruct (index (size_args event) i) as [s|] eqn:Hs; simpl; [|done].
      apply index_Ok in Hs. intros [= <-]. exists s. split; [|done].
      exists dyn_arg. split; [done|]. by rewrite decide_True.
    + intros [= <-]. eexists. split; [|done].
      exists dyn_arg. split; [done|]. by rewrite decide_False.
  - destruct (index (size_args event) i) as [s|] eqn:Hs; simpl; [|done].
    apply index_Ok in Hs. intros [= <-]. by exists s.
Qed.

(** After the first loop the size key of population [i] holds what
    the loop writes for it. *)
Lemma size_stage_written event v d0 d1 i :
  for_each (range (n_pop event)) (size_body event v) d0 = Ok d1 →
  i < n_pop event →
  ∃ a, size_written event v i a ∧ d1 !! nu_name (n_pop event) i = Some a.
Proof.
  intros H1 Hi.
  apply (for_each_written (range (n_pop event)) (size_body event v)
           (λ j, Some (nu_name (n_pop event) j)) (size_written event v)
           d0 d1 i (nu_name (n_pop event) i)).
  - intros y d d' Hy. right.
    destruct (size_body_written _ _ _ _ _ Hy) as (a & ? & ->).
    by exists (nu_name (n_pop event) y), a.
  - done.
  - by apply elem_of_range.
  - done.
  - intros y a Hy%elem_of_range [= Heq] Hw.
    by rewrite <- (nu_name_inj _ _ _ Hy Hi Heq).
Qed.

(** The migration and selection stages leave the size keys alone. *)
Lemma size_key_kept event d1 d2 d i :
  match mig_args event with
  | Some mig => for_each (range (n_pop event)) (mig_body event mig) d1
  | None => Ok d1
  end = Ok d2 →
  sel_part event d2 = Ok d →
  i < n_pop event →
  d !! nu_name (n_pop event) i = d1 !! nu_name (n_pop event) i.
Proof.
  intros H2 H3 Hi.
  assert (size_key event (nu_name (n_pop event) i)) as Hkey by (by exists i).
  rewrite (sel_stage_frame _ _ _ _ H3), (mig_stage_frame _ _ _ _ H2); [done|..].
  - clear -Hkey. revert Hkey. by key_discr.
  - clear -Hkey. revert Hkey. by key_discr.
Qed.

(** Whenever [_get_kwargs] returns, the size key of population [i]
    holds [size_args[i]] if the event has no dynamics or the dynamic of
    the population is ['Sud'] (as such or through [var2value]), and the
    string ['nu{i+1}_func'] otherwise. *)
Theorem get_kwargs_sizes event v d i :
  _get_kwargs event v = Ok d →
  i < n_pop event →
  ∃ a, d !! nu_name (n_pop event) i = Some a ∧
    match dyn_args event with
    | Some dyn =>
        ∃ dyn_arg, dyn !! i = Some dyn_arg ∧
          if decide (get_default v dyn_arg = AStr "Sud")
          then size_args event !! i = Some a
          else a = AStr ("nu" +:+ pretty (i + 1) +:+ "_func")
    | None => size_args event !! i = Some a
    end.
Proof.
  intros Hrun Hi.
  destruct (get_kwargs_stages _ _ _ Hrun) as (d1 & d2 & H1 & H2 & H3).
  destruct (size_stage_written _ _ _ _ i H1 Hi) as (a & Hw & Hd1).
  exists a. split.
  - by rewrite (size_key_kept _ _ _ _ i H2 H3 Hi).
  - exact Hw.
Qed.

Lemma get_kwargs_sizes_witness :
  ∃ d, _get_kwargs epoch3 {[ AVar "dyn2" := AStr "Exp" ]} = Ok d ∧
       1 < n_pop epoch3 ∧
       ∃ a, d !! nu_name (n_pop epoch3) 1 = Some a ∧
         match dyn_args epoch3 with
         | Some dyn =>
             ∃ dyn_arg, dyn !! 1 = Some dyn_arg ∧
               if decide (get_default {[ AVar "dyn2" := AStr "Exp" ]} dyn_arg
                          = AStr "Sud")
               then size_args epoch3 !! 1 = Some a
               else a = AStr ("nu" +:+ pretty (1 + 1) +:+ "_func")
         | None => size_args epoch3 !! 1 = Some a
         end.
Proof.
  destruct (get_kwargs_is_Ok epoch3 {[ AVar "dyn2" := AStr "Exp" ]} epoch3_wf)
    as [d Hd].
  exists d. split; [exact Hd|]. split; [simpl; lia|].
  apply (get_kwargs_sizes epoch3 {[ AVar "dyn2" := AStr "Exp" ]} d 1 Hd).
  simpl; lia.
Defined.

(** *** The migrations *)

(** Do two ordered pairs of populations below [n] get the same
    migration key? *)
Definition m_labels_distinct (n : nat) : bool :=
  let ls := labelled n in
  forallb (λ a,
    forallb (λ b,
      forallb (λ c,
        forallb (λ e,
          (Nat.eqb a.1 c.1 && Nat.eqb b.1 e.1)
          || negb (String.eqb (a.2 +:+ b.2) (c.2 +:+ e.2)))
          ls) ls) ls) ls.

Lemma m_labels_distinct_10 : m_labels_distinct 10 = true.
Proof. vm_compute. reflexivity. Qed.

Lemma m_name_inj n (i j i' j' : nat) :
  n ≤ 10 → i < n → j < n → i' < n → j' < n →
  m_name i j = m_name i' j' → i = i' ∧ j = j'.
Proof.
  intros Hn Hi Hj Hi' Hj' Heq.
  pose proof m_labels_distinct_10 as Hall. unfold m_labels_distinct in Hall.
  rewrite forallb_forall in Hall.
  specialize (Hall (i, pretty (i + 1))
    ltac:(apply list_elem_of_In, elem_of_labelled; lia)).
  rewrite forallb_forall in Hall.
  specialize (Hall (j, pretty (j + 1))
    ltac:(apply list_elem_of_In, elem_of_labelled; lia)).
  rewrite forallb_forall in Hall.
  specialize (Hall (i', pretty (i' + 1))
    ltac:(apply list_elem_of_In, elem_of_labelled; lia)).
  rewrite forallb_forall in Hall.
  specialize (Hall (j', pretty (j' + 1))
    ltac:(apply list_elem_of_In, elem_of_labelled; lia)).
  simpl in Hall. apply orb_true_iff in Hall as [Hsame|Hdiff].
  - apply andb_true_iff in Hsame as [?%Nat.eqb_eq ?%Nat.eqb_eq]. done.
  - apply negb_true_iff, String.eqb_neq in Hdiff. exfalso. apply Hdiff.
    unfold m_name in Heq. by simplify_eq/=.
Qed.

(** With eleven populations the pairs (1, 11) and (11, 1) share the
    key ['m111']. *)
Lemma m_name_clash_at_11 : m_name 0 10 = m_name 10 0.
Proof. vm_compute. reflexivity. Qed.

(** The migration loops as one loop over the ordered pairs. *)
Lemma mig_stage_flat event mig d1 :
  for_each (range (n_pop event)) (mig_body event mig) d1
  = for_each (i ← range (n_pop event); (λ j, (i, j)) <$> range (n_pop event))
      (λ p d0,
         if decide (p.1 = p.2) then Ok d0
         else
           row ← index mig p.1;
           m ← index row p.2;
           Ok (<[m_name p.1 p.2 := m]> d0)) d1.
Proof.
  exact (for_each_nested (range (n_pop event)) (range (n_pop event))
    (λ i j d0,
       if decide (i = j) then Ok d0
       else
         row ← index mig i;
         m ← index row j;
         Ok (<[m_name i j := m]> d0)) d1).
Qed.

Lemma mig_pair_written (mig : list (list arg)) (p : nat * nat) d1 d2 :
  (if decide (p.1 = p.2) then Ok d1
   else
     row ← index mig p.1;
     m ← index row p.2;
     Ok (<[m_name p.1 p.2 := m]> d1)) = Ok d2 →
  (if decide (p.1 = p.2) then None else Some (m_name p.1 p.2)) = None
    ∧ d2 = d1 ∨
  ∃ k' m, (if decide (p.1 = p.2) then None else Some (m_name p.1 p.2))
            = Some k' ∧
          (∃ row, mig !! p.1 = Some row ∧ row !! p.2 = Some m) ∧
          d2 = <[k' := m]> d1.
Proof.
  destruct (decide (p.1 = p.2)); [intros [= <-]; by left|].
  destruct (index mig p.1) as [row|] eqn:Hrow; simpl; [|done].
  destruct (index row p.2) as [m|] eqn:Hm; simpl; [|done].
  intros [= <-]. right. exists (m_name p.1 p.2), m.
  apply index_Ok in Hrow, Hm. eauto.
Qed.

(** Whenever [_get_kwargs] returns for an event of at most ten
    populations with migrations, the key ['m{i+1}{j+1}'] of every
    ordered pair of distinct populations holds [mig_args[i][j]]. *)
Theorem get_kwargs_migrations event v d mig i j :
  n_pop event ≤ 10 →
  mig_args event = Some mig →
  _get_kwargs event v = Ok d →
  i < n_pop event → j < n_pop event → i ≠ j →
  ∃ row m, mig !! i = Some row ∧ row !! j = Some m ∧
    d !! ("m" +:+ pretty (i + 1) +:+ pretty (j + 1)) = Some m.
Proof.
  intros Hn Hmig Hrun Hi Hj Hij. fold (m_name i j).
  destruct (get_kwargs_stages _ _ _ Hrun) as (d1 & d2 & H1 & H2 & H3).
  rewrite Hmig, mig_stage_flat in H2.
  destruct (for_each_written _ _
              (λ p : nat * nat,
                 if decide (p.1 = p.2) then None else Some (m_name p.1 p.2))
              (λ p m, ∃ row, mig !! p.1 = Some row ∧ row !! p.2 = Some m)
              _ _ (i, j) (m_name i j) (mig_pair_written mig) H2)
    as (m & (row & Hrow & Hm) & Hd2).
  - apply list_elem_of_bind. exists i. rewrite elem_of_range. split; [|done].
    apply list_elem_of_fmap. exists j. by rewrite elem_of_range.
  - simpl. by rewrite decide_False.
  - intros [a b] m (a' & Hab & Ha')%list_elem_of_bind.
    apply list_elem_of_fmap in Hab as (b' & [= -> ->] & Hb').
    apply elem_of_range in Ha', Hb'. simpl.
    case_decide; [done|]. intros Heq%(inj Some).
    by destruct (m_name_inj (n_pop event) a' b' i j) as [-> ->].
  - exists row, m. split; [done|]. split; [done|].
    rewrite (sel_stage_frame _ _ _ _ H3); [done|].
    apply m_label_not_other.
Qed.

Lemma get_kwargs_migrations_witness :
  n_pop epoch3 ≤ 10 ∧
  ∃ mig d, mig_args epoch3 = Some mig ∧ _get_kwargs epoch3 ∅ = Ok d ∧
    ∃ row m, mig !! 0 = Some row ∧ row !! 2 = Some m ∧
      d !! ("m" +:+ pretty (0 + 1) +:+ pretty (2 + 1)) = Some m.
Proof.
  split; [simpl; lia|].
  destruct (get_kwargs_is_Ok epoch3 ∅ epoch3_wf) as [d Hd].
  eexists _, d. split; [reflexivity|]. split; [exact Hd|].
  apply (get_kwargs_migrations epoch3 ∅ d _ 0 2); simpl;
    [lia|reflexivity|exact Hd|lia..].
Defined.

(** *** The selection coefficients *)

(** Whenever [_get_kwargs] returns for an event with selection
    arguments, they leave one key in the dictionary, named after the
    last population, ['gamma{n_pop}'] (['gamma'] for one population),
    and it holds the coefficient of the last population: the name is
    formed once, before the loop, from the loop variable of the loops
    above. *)
Theorem get_kwargs_selection event v d sel :
  _get_kwargs event v = Ok d →
  sel_args event = Some sel →
  ∃ s, sel !! (n_pop event - 1) = Some s ∧
    (n_pop event = 1 → d !! "gamma" = Some s) ∧
    (n_pop event ≠ 1 →
       d !! ("gamma" +:+ pretty (n_pop event)) = Some s ∧
       d !! "gamma" = None ∧
       ∀ i : nat, i + 1 ≠ n_pop event →
         d !! ("gamma" +:+ pretty (i + 1)) = None).
Proof.
  intros Hrun Hsel.
  destruct (get_kwargs_stages _ _ _ Hrun) as (d1 & d2 & H1 & H2 & H3).
  destruct (sel_part_loop _ _ _ _ Hsel H3) as [Hpos Hloop].
  assert (range (n_pop event) = range (n_pop event - 1) ++ [n_pop event - 1])
    as Hrange.
  { unfold range. replace (n_pop event) with (S (n_pop event - 1)) at 1 by lia.
    by rewrite seq_S. }
  rewrite Hrange in Hloop.
  apply (for_each_same_key _ _ (index sel)) in Hloop as (s & Hs & Hd).
  apply index_Ok in Hs. exists s. split; [done|].
  unfold gamma_name in Hd.
  pose proof (get_kwargs_lookup _ _ _ Hrun) as Hlook.
  assert (∀ k, k ≠ "T" → ¬ size_key event k → ¬ mig_key event k →
               ¬ sel_key event k → d !! k = None) as Hnone.
  { intros k ? ? ? ?. destruct (Hlook k) as [_ Hk].
    rewrite Hk by done. by rewrite lookup_singleton_ne. }
  split.
  - intros Hone. by rewrite decide_True in Hd.
  - intros Hmany. rewrite decide_False in Hd by done.
    replace (n_pop event - 1 + 1) with (n_pop event) in Hd by lia.
    split; [done|]. split.
    + apply Hnone; [done|by key_discr..].
    + intros i Hi. apply Hnone; [done|by key_discr|by key_discr|].
      key_discr. lia.
Qed.

(** Three populations under selection. *)
Definition selected_epoch : Epoch := {|
  n_pop := 3;
  time_arg := AVar "t";
  size_args := [AVar "nu1"; AVar "nu2"; AVar "nu3"];
  dyn_args := None;
  mig_args := None;
  sel_args := Some [AVar "g1"; AVar "g2"; AVar "g3"];
|}.

Lemma selected_epoch_wf : epoch_wf selected_epoch.
Proof.
  unfold epoch_wf, selected_epoch; simpl. split_and!; [lia|done..|].
  by intros ? [= <-].
Qed.

Lemma get_kwargs_selection_witness :
  ∃ d sel, _get_kwargs selected_epoch ∅ = Ok d ∧
    sel_args selected_epoch = Some sel ∧
    ∃ s, sel !! (n_pop selected_epoch - 1) = Some s ∧
      (n_pop selected_epoch = 1 → d !! "gamma" = Some s) ∧
      (n_pop selected_epoch ≠ 1 →
         d !! ("gamma" +:+ pretty (n_pop selected_epoch)) = Some s ∧
         d !! "gamma" = None ∧
         ∀ i : nat, i + 1 ≠ n_pop selected_epoch →
           d !! ("gamma" +:+ pretty (i + 1)) = None).
Proof.
  destruct (get_kwargs_is_Ok selected_epoch ∅ selected_epoch_wf) as [d Hd].
  eexists d, _. split; [exact Hd|]. split; [reflexivity|].
  apply (get_kwargs_selection selected_epoch ∅ d _ Hd). reflexivity.
Defined.

(** *** Failures *)

Lemma index_Raise {A} (l : list A) i e : index l i = Raise e → e = IndexError.
Proof. unfold index. destruct (l !! i); by intros [= <-]. Qed.

(** A failed step that only indexes lists failed with [IndexError]. *)
Ltac index_fails H :=
  repeat first
    [ match type of H with
      | context [index ?l ?i] =>
          let E := fresh "E" in
          destruct (index l i) eqn:E; simpl in H;
          [|apply index_Raise in E; by simplify_eq]
      end
    | match type of H with
      | context [decide ?P] => destruct (decide P); simpl in H
      end
    | done ].

(** [_get_kwargs] fails on ill-formed events only, and then with
    [IndexError], for a list of arguments shorter than [n_pop], or
    with [UnboundLocalError], for selection arguments on an event
    without populations, whose loops never bind [i]. *)
Theorem get_kwargs_Raise event v e :
  _get_kwargs event v = Raise e →
  ¬ epoch_wf event ∧
  (e = IndexError ∨
   e = UnboundLocalError ∧ n_pop event = 0 ∧ is_Some (sel_args event)).
Proof.
  intros Hrun. split.
  { intros Hwf. destruct (get_kwargs_is_Ok event v Hwf) as [d Hd]. congruence. }
  unfold _get_kwargs in Hrun.
  destruct (for_each _ (size_body event v) _) as [d1|e1] eqn:H1; simpl in Hrun.
  2:{ injection Hrun as ->. left.
      apply for_each_Raise in H1 as (i & d0 & _ & Hbody).
      unfold size_body in Hbody.
      destruct (dyn_args event); index_fails Hbody. }
  destruct (match mig_args event with
            | Some mig => for_each (range (n_pop event)) (mig_body event mig) d1
            | None => Ok d1
            end) as [d2|e2] eqn:H2; simpl in Hrun.
  2:{ injection Hrun as ->. left.
      destruct (mig_args event) as [mig|]; [|done].
      apply for_each_Raise in H2 as (i & d0 & _ & Hbody).
      apply for_each_Raise in Hbody as (j & d0' & _ & Hbody).
      index_fails Hbody. }
  unfold sel_part in Hrun. destruct (sel_args event) as [sel|] eqn:Hsel; [|done].
  case_decide.
  - simpl in Hrun. left.
    apply for_each_Raise in Hrun as (i & d0 & _ & Hbody).
    index_fails Hbody.
  - destruct (decide (n_pop event = 0)) as [Hz|Hnz].
    + unfold last_i in Hrun. rewrite Hz in Hrun. simpl in Hrun.
      injection Hrun as <-. right. split; [done|]. split; [done|by eexists].
    + assert (last_i event = Ok (n_pop event - 1)) as Hlast.
      { unfold last_i. destruct (n_pop event); [done|]. f_equal. lia. }
      rewrite Hlast in Hrun. simpl in Hrun. left.
      apply for_each_Raise in Hrun as (i & d0 & _ & Hbody).
      index_fails Hbody.
Qed.

(** An event of two populations with one size only. *)
Definition short_epoch : Epoch := {|
  n_pop := 2;
  time_arg := AVar "t";
  size_args := [AVar "nu1"];
  dyn_args := None;
  mig_args := None;
  sel_args := None;
|}.

Lemma get_kwargs_Raise_witness :
  _get_kwargs short_epoch ∅ = Raise IndexError ∧
  ¬ epoch_wf short_epoch ∧
  (IndexError = IndexError ∨
   IndexError = UnboundLocalError ∧ n_pop short_epoch = 0
   ∧ is_Some (sel_args short_epoch)).
Proof.
  split; [vm_compute; reflexivity|].
  apply (get_kwargs_Raise short_epoch ∅ IndexError). vm_compute. reflexivity.
Defined.

(** An event without populations gives the dictionary with ['T']
    alone, unless it has selection arguments: then the name of the key
    cannot be formed. *)
Theorem get_kwargs_no_population event v :
  n_pop event = 0 →
  _get_kwargs event v
  = match sel_args event with
    | Some _ => Raise UnboundLocalError
    | None => Ok {[ "T" := time_arg event ]}
    end.
Proof.
  intros Hn. unfold _get_kwargs, sel_part, last_i. rewrite Hn. simpl.
  destruct (mig_args event), (sel_args event); simpl; try done.
Qed.

Lemma get_kwargs_no_population_witness :
  n_pop (flat_epoch 0) = 0 ∧
  _get_kwargs (flat_epoch 0) ∅
  = match sel_args (flat_epoch 0) with
    | Some _ => Raise UnboundLocalError
    | None => Ok {[ "T" := time_arg (flat_epoch 0) ]}
    end.
Proof.
  split; [reflexivity|]. apply (get_kwargs_no_population (flat_epoch 0) ∅).
  reflexivity.
Defined.

End DadiMore.

(** ** [DadiEngine._dadi_inner_func] *)

Module DadiSimulateFacts.
Import DadiEngine DadiFacts DadiMore DadiSimulate.

Lemma append_length (s t : string) :
  String.length (s +:+ t) = String.length s + String.length t.
Proof. induction s; simpl; [done|]. by rewrite IHs. Qed.

Lemma append_inj_r (s1 s2 t : string) : s1 +:+ t = s2 +:+ t → s1 = s2.
Proof.
  revert s2. induction s1 as [|a s1 IH]; intros [|b s2] H.
  - done.
  - apply (f_equal String.length) in H.
    rewrite (append_length (String b s2) t) in H.
    change ("" +:+ t) with t in H. simpl in H. lia.
  - apply (f_equal String.length) in H.
    rewrite (append_length (String a s1) t) in H.
    change ("" +:+ t) with t in H. simpl in H. lia.
  - simpl in H. injection H as -> H. f_equal. by apply IH.
Qed.

Lemma nu_func_name_inj i j : nu_func_name i = nu_func_name j → i = j.
Proof.
  unfold nu_func_name. intros H. simplify_eq/=.
  apply append_inj_r, (inj pretty) in H. lia.
Qed.

Lemma is_Ok_true {A} (r : result A) :
  (match r with Ok _ => true | Raise _ => false end) = true → is_Ok r.
Proof. destruct r; [by eexists|done]. Qed.

Section with_dadi.
Context {Grid Phi Sfs : Type} (dadi : Dadi Grid Phi Sfs).
Implicit Types (e : Epoch) (init : list arg) (v : gmap arg arg).
Implicit Types (addit : gmap string size_func).

(** The function that lines 89-99 store for population [i]. *)
Definition func_written e init v (i : nat) (f : size_func) : Prop :=
  ∃ dyn dyn_arg func init_i size,
    dyn_args e = Some dyn ∧ dyn !! i = Some dyn_arg ∧
    get_default v dyn_arg ≠ AStr "Sud" ∧
    get_func_from_value dadi (get_default v dyn_arg) = Ok func ∧
    init !! i = Some init_i ∧ size_args e !! i = Some size ∧
    f = SizeFunc func (get_default v init_i) (get_default v size)
          (get_default v (time_arg e)).

(** The key under which population [i] gets a function, if it does. *)
Definition func_key (dyn : list arg) v (i : nat) : option string :=
  match dyn !! i with
  | Some dyn_arg =>
      if decide (get_default v dyn_arg = AStr "Sud") then None
      else Some (nu_func_name i)
  | None => None
  end.

Lemma func_body_written e init dyn v i addit addit' :
  dyn_args e = Some dyn →
  func_body dadi e init dyn v i addit = Ok addit' →
  func_key dyn v i = None ∧ addit' = addit ∨
  ∃ k f, func_key dyn v i = Some k ∧ func_written e init v i f ∧
         addit' = <[k := f]> addit.
Proof.
  intros Hdyn. unfold func_body, func_key.
  destruct (index dyn i) as [dyn_arg|] eqn:Hd; simpl; [|done].
  apply index_Ok in Hd. rewrite Hd.
  destruct (decide (get_default v dyn_arg = AStr "Sud")) as [Hsud|Hsud].
  { intros [= <-]. by left. }
  destruct (get_func_from_value dadi _) as [func|] eqn:Hf; simpl; [|done].
  destruct (index init i) as [init_i|] eqn:Hi; simpl; [|done].
  destruct (index (size_args e) i) as [size|] eqn:Hs; simpl; [|done].
  apply index_Ok in Hi, Hs. intros [= <-]. right.
  eexists _, _. split; [done|]. split; [|done].
  by exists dyn, dyn_arg, func, init_i, size.
Qed.

Lemma funcs_written e init dyn v addit addit' i dyn_arg :
  dyn_args e = Some dyn →
  for_each (range (n_pop e)) (func_body dadi e init dyn v) addit = Ok addit' →
  i < n_pop e →
  dyn !! i = Some dyn_arg →
  get_default v dyn_arg ≠ AStr "Sud" →
  ∃ f, func_written e init v i f ∧ addit' !! nu_func_name i = Some f.
Proof.
  intros Hdyn Hrun Hi Hd Hsud.
  apply (for_each_written (range (n_pop e)) (func_body dadi e init dyn v)
           (func_key dyn v) (func_written e init v) addit addit' i).
  - intros y d1 d2 Hy. by apply func_body_written.
  - done.
  - by apply elem_of_range.
  - unfold func_key. rewrite Hd. by rewrite decide_False.
  - intros y f _ Hkey Hw. unfold func_key in Hkey.
    destruct (dyn !! y); [|done]. case_decide; [done|].
    apply (inj Some), nu_func_name_inj in Hkey. by subst y.
Qed.

(** The size that [dadi.Integration] gets for population [i] of an
    epoch, when [var2value] gives the size of the population at the end
    of the epoch a number and has no key ['nu{i+1}_func']: that number
    if the epoch has no dynamics or the dynamic of the population is
    ['Sud'], and otherwise the function made for the dynamic from the
    values of the initial size, the size and the time of the epoch.
    This holds whatever earlier epochs have left in [addit_values]. *)
Theorem epoch_kwargs_sizes e init v addit kwargs addit' i size z :
  epoch_kwargs dadi e init v addit = Ok (kwargs, addit') →
  i < n_pop e →
  v !! AStr (nu_func_name i) = None →
  size_args e !! i = Some size →
  get_default v size = ANum z →
  ∃ k, kwargs !! nu_name (n_pop e) i = Some k ∧
    match dyn_args e with
    | None => k = KValue (ANum z)
    | Some dyn =>
        ∃ dyn_arg, dyn !! i = Some dyn_arg ∧
          if decide (get_default v dyn_arg = AStr "Sud")
          then k = KValue (ANum z)
          else ∃ func init_i,
                 get_func_from_value dadi (get_default v dyn_arg) = Ok func ∧
                 init !! i = Some init_i ∧
                 k = KFunc (SizeFunc func (get_default v init_i) (ANum z)
                              (get_default v (time_arg e)))
    end.
Proof.
  intros Hrun Hi Hkey Hsize Hz. unfold epoch_kwargs in Hrun.
  destruct (match dyn_args e with Some _ => _ | None => _ end)
    as [addit1|] eqn:Hfuncs; simpl in Hrun; [|done].
  destruct (_get_kwargs e v) as [kw|] eqn:Hkw; simpl in Hrun; [|done].
  injection Hrun as <- <-.
  destruct (get_kwargs_stages _ _ _ Hkw) as (d1 & d2 & H1 & H2 & H3).
  destruct (size_stage_written _ _ _ _ i H1 Hi) as (a & Hw & Ha).
  rewrite <- (size_key_kept _ _ _ _ i H2 H3 Hi) in Ha.
  exists (substitute v addit1 a). split.
  { unfold substitute_all. by rewrite lookup_fmap, Ha. }
  unfold size_written in Hw. destruct (dyn_args e) as [dyn|] eqn:Hdyn.
  - destruct Hw as (dyn_arg & Hd & Hw). exists dyn_arg. split; [done|].
    destruct (decide (get_default v dyn_arg = AStr "Sud")) as [Hsud|Hsud].
    + assert (a = size) as -> by congruence.
      unfold substitute. by rewrite Hz.
    + subst a.
      destruct (funcs_written e init dyn v addit addit1 i dyn_arg
                  Hdyn Hfuncs Hi Hd Hsud)
        as (f & (dyn' & dyn_arg' & func & init_i & size' & ? & ? & _ & Hf
                 & ? & ? & ->) & Hstored).
      simplify_eq. exists func, init_i. split; [done|]. split; [done|].
      unfold substitute, get_default at 1. rewrite Hkey. simpl.
      by rewrite Hstored, Hz.
  - assert (a = size) as -> by congruence.
    unfold substitute. by rewrite Hz.
Qed.

End with_dadi.

Lemma epoch_kwargs_sizes_witness :
  ∃ kwargs addit',
    epoch_kwargs example_dadi epoch3 [ANum 1; ANum 1; ANum 1] epoch3_values
      {[ nu_func_name 0 := SizeFunc "Lin" (ANum 1) (ANum 1) (ANum 1) ]}
    = Ok (kwargs, addit') ∧
    1 < n_pop epoch3 ∧
    epoch3_values !! AStr (nu_func_name 1) = None ∧
    size_args epoch3 !! 1 = Some (AVar "nu2") ∧
    get_default epoch3_values (AVar "nu2") = ANum 3 ∧
    ∃ k, kwargs !! nu_name (n_pop epoch3) 1 = Some k ∧
      match dyn_args epoch3 with
      | None => k = KValue (ANum 3)
      | Some dyn =>
          ∃ dyn_arg, dyn !! 1 = Some dyn_arg ∧
            if decide (get_default epoch3_values dyn_arg = AStr "Sud")
            then k = KValue (ANum 3)
            else ∃ func init_i,
                   get_func_from_value example_dadi
                     (get_default epoch3_values dyn_arg) = Ok func ∧
                   [ANum 1; ANum 1; ANum 1] !! 1 = Some init_i ∧
                   k = KFunc (SizeFunc func (get_default epoch3_values init_i)
                                (ANum 3)
                                (get_default epoch3_values (time_arg epoch3)))
      end.
Proof.
  destruct (is_Ok_true
    (epoch_kwargs example_dadi epoch3 [ANum 1; ANum 1; ANum 1] epoch3_values
       {[ nu_func_name 0 := SizeFunc "Lin" (ANum 1) (ANum 1) (ANum 1) ]}))
    as [[kwargs addit'] Hrun]; [vm_compute; reflexivity|].
  exists kwargs, addit'. split; [exact Hrun|].
  split; [simpl; lia|]. split; [vm_compute; reflexivity|].
  split; [reflexivity|]. split; [vm_compute; reflexivity|].
  apply (epoch_kwargs_sizes example_dadi epoch3 [ANum 1; ANum 1; ANum 1]
           epoch3_values _ kwargs addit' 1 (AVar "nu2") 3 Hrun);
    [simpl; lia|vm_compute; reflexivity|reflexivity|vm_compute; reflexivity].
Defined.

End DadiSimulateFacts.

(** ** The settings storage *)

Module SettingsFacts.
Import Py Settings.

Implicit Types (E : Env) (st : state) (name : string) (value : pyval).

(** *** Running statements *)

Lemma run_bind {A B} (m : M A) (k : A → M B) st :
  (m ≫= k) st =
  match m st with
  | (Ok a, st') => k a st'
  | (Raise e, st') => (Raise e, st')
  end.
Proof. reflexivity. Qed.

Lemma run_bind_Ok {A B} (m : M A) (k : A → M B) st a st1 :
  m st = (Ok a, st1) → (m ≫= k) st = k a st1.
Proof. intros H. by rewrite run_bind, H. Qed.

Lemma run_bind_Raise {A B} (m : M A) (k : A → M B) st e st1 :
  m st = (Raise e, st1) → (m ≫= k) st = (Raise e, st1).
Proof. intros H. by rewrite run_bind, H. Qed.

(** A statement sequence that ends normally ran its first statement
    normally. *)
Lemma bind_Ok_inv {A B} (m : M A) (k : A → M B) st b st' :
  (m ≫= k) st = (Ok b, st') →
  ∃ a st1, m st = (Ok a, st1) ∧ k a st1 = (Ok b, st').
Proof.
  rewrite run_bind. destruct (m st) as [[a|e] st1]; [eauto|done].
Qed.

Lemma run_ret {A} (a : A) st : ret a st = (Ok a, st).
Proof. reflexivity. Qed.

Lemma run_read E name st : read E name st = (getattr E st name, st).
Proof. reflexivity. Qed.

(** *** C9: [from_file] with [param_file = None] *)

(** C9: for every [extra_param_file], [from_file(None, extra_param_file)]
    evaluates the unbound name [extra_params_file] in its guard and
    fails with [NameError]; nothing has happened by then: no storage has
    been built, the state is the one of the call. *)
Theorem from_file_None_NameError E extra_param_file st :
  from_file E VNone extra_param_file st = (Raise NameError, st).
Proof. reflexivity. Qed.

(** The name the guard reads is not the parameter's. *)
Lemma extra_params_file_unbound : load_global "extra_params_file" = Raise NameError.
Proof. reflexivity. Qed.

(** *** Membership in the lists of names *)

Lemma mem_In name (names : list string) : mem name names = true ↔ In name names.
Proof.
  unfold mem. rewrite existsb_exists. split.
  - intros (x & Hx & Heq%String.eqb_eq). by subst.
  - intros Hin. exists name. split; [done|]. apply String.eqb_refl.
Qed.

(** Replace a membership hypothesis over a literal list by one case
    for each of its names. *)
Ltac name_cases H :=
  apply mem_In in H; simpl in H;
  repeat (destruct H as [<-|H]; [|]); [..|destruct H].

(** Evaluate the tests on a literal name. *)
Ltac eval_names :=
  cbn [recognized mem existsb String.eqb Ascii.eqb Bool.eqb orb andb negb
       int_attrs float_attrs probs_attrs bool_attrs attrs_with_equal_len
       int_list_attrs probs_list_attrs special_attrs exist_file_attrs
       exist_dir_attrs empty_dir_attrs data_holder_attrs bounds_attrs
       missed_attrs bounds_lists float_list_attrs].

(** *** C7: the bound settings *)

Lemma check_float_bound name value st :
  mem name probs_attrs = false →
  check_float name value st = (Ok (), st) ∧ is_Some (num_of value) ∨
  check_float name value st = (Raise ValueError, st).
Proof.
  intros Hp. unfold check_float. rewrite Hp.
  destruct value; simpl; eauto.
Qed.

(** The loop of lines 188-195 cannot get past a name whose value is a
    number: [len(value)] fails. *)
Lemma length_loop_raises E value (names : list string) name st :
  In name names →
  getattr E st name = Ok value →
  is_Some (num_of value) →
  ∃ e, forM names (λ attr_name,
         attr_value ← read E attr_name;
         if is_none attr_value then ret ()
         else
           n ← lift (py_len value);
           m ← lift (py_len attr_value);
           if negb (Nat.eqb n m) then raise ValueError else ret ()) st
       = (Raise e, st).
Proof.
  intros Hin Hget Hnum. induction names as [|a names IH]; [done|].
  cbn [forM]. rewrite run_bind, run_bind, run_read. cbn [get lift].
  destruct (getattr E st a) as [v|e] eqn:Ha; [|by eexists].
  destruct (is_none v) eqn:Hv.
  - cbn [ret]. destruct Hin as [->|Hin]; [|by apply IH].
    rewrite Hget in Ha. simplify_eq. destruct v; by destruct Hnum.
  - rewrite run_bind. destruct value; try (by destruct Hnum); by eexists.
Qed.

Lemma getattr_stored E st name value :
  String.eqb name "initial_structure" = false →
  String.eqb name "final_structure" = false →
  getattr E (set_attrs (insert name value) st) name = Ok value.
Proof.
  intros H1 H2. unfold getattr, lookup_attr. rewrite H1, H2. simpl.
  by rewrite lookup_insert_eq.
Qed.

Lemma check_lengths_bound_raises E name value st :
  mem name bounds_attrs = true →
  is_Some (num_of value) →
  ∃ e, check_lengths E name value (set_attrs (insert name value) st)
       = (Raise e, set_attrs (insert name value) st).
Proof.
  intros Hname Hnum.
  destruct (length_loop_raises E value bounds_attrs name
              (set_attrs (insert name value) st)) as [e He].
  - by apply mem_In.
  - name_cases Hname; by apply getattr_stored.
  - done.
  - exists e. unfold check_lengths.
    replace (if mem name attrs_with_equal_len then attrs_with_equal_len
             else bounds_attrs) with bounds_attrs
      by (name_cases Hname; reflexivity).
    by rewrite run_bind, He.
Qed.

Lemma update_domains_NameError name value st :
  mem name bounds_attrs = true →
  update_domains name value st = (Raise NameError, st).
Proof. intros Hname. name_cases Hname; reflexivity. Qed.

(** *** Steps that do not concern a name *)

Lemma run_super_setattr name value st :
  super_setattr name value st = (Ok (), set_attrs (insert name value) st).
Proof. reflexivity. Qed.

Lemma run_wrap_other name value st :
  String.eqb name "initial_structure" || String.eqb name "final_structure"
    = false →
  wrap_structure name value st = (Ok value, st).
Proof. intros H. unfold wrap_structure. by rewrite H. Qed.

Lemma run_split_labels_other name value st :
  String.eqb name "population_labels" = false →
  split_labels name value st = (Ok value, st).
Proof. intros H. unfold split_labels. rewrite H. by destruct value. Qed.

Lemma run_check_paths_other E name value st :
  mem name empty_dir_attrs = false →
  mem name exist_file_attrs = false →
  mem name exist_dir_attrs = false →
  check_paths E name value st = (Ok value, st).
Proof. intros H1 H2 H3. unfold check_paths. by rewrite H1, H2, H3. Qed.

Lemma run_check_identifiers_other E name value st :
  String.eqb name "parameter_identifiers" = false →
  check_identifiers E name value st = (Ok value, st).
Proof. intros H. unfold check_identifiers. by rewrite H. Qed.

Lemma run_check_dependencies_other name value st :
  mem name ["const_for_mutation_strength"; "const_for_mutation_rate"] = false →
  String.eqb name "vmin" = false →
  check_dependencies name value st = (Ok (), st).
Proof. intros H1 H2. unfold check_dependencies. by rewrite H1, H2. Qed.

Lemma run_load_custom_model_other E name value st :
  String.eqb name "custom_filename" = false →
  load_custom_model E name value st = (Ok (), st).
Proof. intros H. unfold load_custom_model. by rewrite H. Qed.

Lemma run_warn_bounds_other E name st :
  mem name bounds_attrs = false →
  warn_bounds_before_custom E name st = (Ok (), st).
Proof. intros H. unfold warn_bounds_before_custom. by rewrite H. Qed.

Lemma run_warn_structure_other E name value st :
  mem name ["initial_structure"; "final_structure"] = false →
  warn_structure_ignored E name value st = (Ok (), st).
Proof. intros H. unfold warn_structure_ignored. by rewrite H. Qed.

(** Run the first statement of a sequence when it is one of the above. *)
Ltac step :=
  rewrite run_bind;
  first
    [ progress cbn [ret]
    | rewrite run_super_setattr
    | rewrite run_wrap_other by reflexivity
    | rewrite run_split_labels_other by reflexivity
    | rewrite run_check_paths_other by reflexivity
    | rewrite run_check_identifiers_other by reflexivity
    | rewrite run_check_dependencies_other by reflexivity
    | rewrite run_load_custom_model_other by reflexivity
    | rewrite run_warn_bounds_other by reflexivity ].

Lemma setattr_main_bound_raises E name value st :
  mem name bounds_attrs = true →
  ∃ e, setattr_main E name value st
       = (Raise e, set_attrs (insert name value) st).
Proof.
  intros Hname.
  assert (mem name probs_attrs = false) as Hprobs
    by (name_cases Hname; reflexivity).
  pose proof (check_float_bound name value
                (set_attrs (insert name value) st) Hprobs) as Hfloat.
  pose proof (check_lengths_bound_raises E name value st Hname) as Hlen.
  pose proof (update_domains_NameError name value
                (set_attrs (insert name value) st) Hname) as Hdom.
  name_cases Hname; unfold setattr_main, setattr_checks; eval_names; do 3 step;
    (destruct (we_check E _ value);
     [ rewrite run_bind;
       destruct Hfloat as [[-> Hnum]| ->]; [|by eexists];
       do 3 step; rewrite run_bind;
       destruct (Hlen Hnum) as [e ->]; by eexists
     | repeat step; rewrite run_bind; unfold update_dependents; eval_names;
       rewrite Hdom; by eexists ]).
Qed.

(** C7 fails on the code: assigning [min_n], [max_n], [min_t], [max_t],
    [min_m] or [max_m] never returns normally.  The value is stored on
    the object and then the setter raises: [ValueError] for a value
    that is no number, [TypeError] (or [AttributeError]) at
    [len(value)] in check 1.6 when the value differs from the default,
    [NameError] at lines 316-326 otherwise, the variable classes being
    no names of the module.  No [default_domain] is touched and no
    warning is issued. *)
Theorem setattr_bound_raises E name value st :
  mem name bounds_attrs = true →
  ∃ e, __setattr__ E name value st
       = (Raise e, set_attrs (insert name value) st) ∧
       domains (set_attrs (insert name value) st) = domains st ∧
       warned (set_attrs (insert name value) st) = warned st.
Proof.
  intros Hname.
  destruct (setattr_main_bound_raises E name value st Hname) as [e He].
  exists e. split; [|done]. unfold __setattr__. by rewrite run_bind, He.
Qed.

Lemma setattr_bound_raises_witness :
  mem "min_n" bounds_attrs = true ∧
  ∃ e, __setattr__ example_env "min_n" (VFloat (1 # 2)) example_state
       = (Raise e, set_attrs (insert "min_n" (VFloat (1 # 2))) example_state) ∧
       domains (set_attrs (insert "min_n" (VFloat (1 # 2))) example_state)
         = domains example_state ∧
       warned (set_attrs (insert "min_n" (VFloat (1 # 2))) example_state)
         = warned example_state.
Proof.
  split; [reflexivity|].
  apply (setattr_bound_raises example_env "min_n" (VFloat (1 # 2)) example_state).
  reflexivity.
Defined.

(** The two ways the assignment of a bound fails, on the example
    storage: a new value stops at [len(value)], the default value at
    the unbound class name. *)
Lemma setattr_min_n_TypeError :
  __setattr__ example_env "min_n" (VFloat (1 # 2)) example_state
  = (Raise TypeError, set_attrs (insert "min_n" (VFloat (1 # 2))) example_state).
Proof. vm_compute. reflexivity. Qed.

Lemma setattr_min_n_NameError :
  __setattr__ example_env "min_n" VNone example_state
  = (Raise NameError, set_attrs (insert "min_n" VNone) example_state).
Proof. vm_compute. reflexivity. Qed.

(** *** C6: the options of the genetic algorithm *)

Lemma run_lift {A} (r : result A) st : lift r st = (r, st).
Proof. reflexivity. Qed.

(** Take a normally ended sequence of reads, pure steps and stores
    apart. *)
Ltac invert_run H :=
  repeat
    (let a := fresh "a" in
     let st1 := fresh "st" in
     let H1 := fresh "Hstep" in
     apply bind_Ok_inv in H as (a & st1 & H1 & H);
     first [ rewrite run_read in H1 | rewrite run_lift in H1
           | rewrite run_super_setattr in H1 ];
     injection H1 as H1 <-).

Lemma getattr_insert_ne E st name key value :
  String.eqb name "initial_structure" = false →
  String.eqb name "final_structure" = false →
  key ≠ name →
  getattr E (set_attrs (insert key value) st) name = getattr E st name.
Proof.
  intros H1 H2 Hne. unfold getattr, lookup_attr. rewrite H1, H2. simpl.
  by rewrite lookup_insert_ne.
Qed.

Lemma update_ga_options_Ok E st st' :
  update_ga_options E st = (Ok (), st') → ga_options_set E st'.
Proof.
  intros H. unfold update_ga_options in H. invert_run H.
  rewrite run_super_setattr in H. injection H as <-.
  rewrite !getattr_insert_ne in * by done.
  repeat match goal with
  | H1 : getattr E st ?n = Ok ?x, H2 : getattr E st ?n = Ok ?y |- _ =>
      rewrite H1 in H2; injection H2 as <-
  end.
  unfold ga_options_set.
  repeat match goal with
  | |- ∃ _, _ => eexists
  | |- _ ∧ _ => split
  end; rewrite ?getattr_insert_ne by done; try eassumption; simpl;
    by simplify_map_eq.
Qed.

(** Take a normally ended [setattr_main] apart, dropping the steps that
    do not concern the name. *)
Ltac invert_main H :=
  repeat
    (let a := fresh "a" in
     let st1 := fresh "st" in
     let H1 := fresh "Hstep" in
     apply bind_Ok_inv in H as (a & st1 & H1 & H);
     try (first
            [ rewrite run_super_setattr in H1
            | rewrite run_wrap_other in H1 by reflexivity
            | rewrite run_split_labels_other in H1 by reflexivity
            | rewrite run_check_paths_other in H1 by reflexivity
            | rewrite run_check_identifiers_other in H1 by reflexivity
            | rewrite run_check_dependencies_other in H1 by reflexivity
            | rewrite run_load_custom_model_other in H1 by reflexivity
            | rewrite run_warn_bounds_other in H1 by reflexivity
            | rewrite run_ret in H1 ];
          simplify_eq)).

Lemma setattr_ga_options_set E name value st st' :
  name = "fractions" ∨ name = "size_of_generation" →
  __setattr__ E name value st = (Ok (), st') →
  ga_options_set E st'.
Proof.
  intros Hname H. unfold __setattr__ in H.
  apply bind_Ok_inv in H as (v & st1 & H & Hw).
  rewrite run_warn_structure_other in Hw by (by destruct Hname as [-> | ->]).
  injection Hw as <-.
  destruct Hname as [-> | ->]; unfold setattr_main, setattr_checks in H;
    revert H; eval_names;
    intros H; invert_main H; rewrite run_ret in H; simplify_eq;
    match goal with
    | Hup : update_dependents E _ _ _ = (Ok ?u, _) |- _ =>
        destruct u; apply (update_ga_options_Ok E _ _ Hup)
    end.
Qed.

(** With three floats as fractions the three probabilities add up to
    what elitism leaves. *)
Lemma ga_options_sum E st q0 q1 q2 :
  ga_options_set E st →
  getattr E st "fractions" = Ok (VList [VFloat q0; VFloat q1; VFloat q2]) →
  ∃ r, attrs st !! "p_mutation" = Some (VFloat q1) ∧
       attrs st !! "p_crossover" = Some (VFloat q2) ∧
       attrs st !! "p_random" = Some (VFloat r) ∧
       (q1 + q2 + r == 1 - q0)%Q.
Proof.
  intros (fr & size & f0 & f1 & f2 & prod & n & total & p_random &
          Hfr & _ & _ & H1 & H2 & _ & _ & Hsum & Hsub & _ & Hm & Hc & Hr) Hfr'.
  rewrite Hfr' in Hfr. injection Hfr as <-.
  simpl in H1, H2, Hsum. simplify_eq.
  cbv [py_sub num_arith int_of num_of] in Hsub. injection Hsub as <-.
  cbv [index] in H1, H2. simpl in H1, H2. simplify_eq.
  eexists. split_and!; [done..|]. unfold inject_Z. ring.
Qed.


(** The fractions of the counterexample: they are exact binary floats. *)
Definition half_quarter_quarter : pyval :=
  VList [VFloat (1 # 2); VFloat (1 # 4); VFloat (1 # 4)].



(** *** C8: what an assignment leaves behind *)

Section writes_in.
Context {K : string → pyval → bool}.

Lemma writes_in_ret {A} (a : A) : writes_in K (ret a).
Proof. intros st key. by left. Qed.

Lemma writes_in_raise {A} e : writes_in K (raise (A:=A) e).
Proof. intros st key. by left. Qed.

Lemma writes_in_lift {A} (r : result A) : writes_in K (lift r).
Proof. intros st key. by left. Qed.

Lemma writes_in_get : writes_in K get.
Proof. intros st key. by left. Qed.

Lemma writes_in_read E name : writes_in K (read E name).
Proof. intros st key. by left. Qed.

Lemma writes_in_warn w : writes_in K (warn w).
Proof. intros st key. by left. Qed.

Lemma writes_in_set_data_holder h : writes_in K (modify (set_data_holder h)).
Proof. intros st key. by left. Qed.

Lemma writes_in_set_domains f : writes_in K (modify (set_domains f)).
Proof. intros st key. by left. Qed.

Lemma writes_in_super_setattr name value :
  K name value = true → writes_in K (super_setattr name value).
Proof.
  intros HK st key. simpl. destruct (decide (name = key)) as [<-|].
  - right. exists value. by rewrite lookup_insert_eq.
  - left. by rewrite lookup_insert_ne.
Qed.

Lemma writes_in_bind {A B} (m : M A) (k : A → M B) :
  writes_in K m → (∀ a, writes_in K (k a)) → writes_in K (m ≫= k).
Proof.
  intros Hm Hk st key. rewrite run_bind.
  specialize (Hm st key). destruct (m st) as [[a|e] st1]; [|done].
  specialize (Hk a st1 key). simpl in Hm.
  destruct Hk as [->|?]; [done|by right].
Qed.

Lemma writes_in_forM {X} (xs : list X) (body : X → M unit) :
  (∀ x, writes_in K (body x)) → writes_in K (forM xs body).
Proof.
  intros Hbody. induction xs as [|x xs IH]; simpl.
  - apply writes_in_ret.
  - apply writes_in_bind; [done|]. by intros [].
Qed.

Lemma writes_in_try_except {A} (m : M A) catches handler :
  writes_in K m → writes_in K handler → writes_in K (try_except m catches handler).
Proof.
  intros Hm Hh st key. unfold try_except.
  specialize (Hm st key). destruct (m st) as [[a|e] st1]; [done|].
  destruct (catches e); [|done].
  specialize (Hh st1 key). simpl in Hm.
  destruct Hh as [->|?]; [done|by right].
Qed.

End writes_in.

Lemma writes_in_weaken {A} (K K' : string → pyval → bool) (m : M A) :
  (∀ key v, K key v = true → K' key v = true) →
  writes_in K m → writes_in K' m.
Proof.
  intros HK Hm st key. destruct (Hm st key) as [?|(v & ? & ?)]; [by left|].
  right. exists v. auto.
Qed.

(** Follow a statement through its branches down to the stores; [known]
    settles the statements that have a lemma of their own. *)
Ltac walk_with known :=
  repeat first
    [ known
    | apply writes_in_ret | apply writes_in_raise | apply writes_in_lift
    | apply writes_in_get | apply writes_in_read | apply writes_in_warn
    | apply writes_in_set_data_holder | apply writes_in_set_domains
    | apply writes_in_bind; [|intros ?]
    | apply writes_in_forM; intros ?
    | apply writes_in_super_setattr
    | match goal with
      | |- writes_in _ (if ?c then _ else _) => destruct c eqn:?
      | |- writes_in _ (match ?x with _ => _ end) => destruct x eqn:?
      | |- writes_in _ (let _ := _ in _) => cbv zeta
      end ].
Ltac walk := walk_with fail.

(** A store is allowed: the tests passed on the way pin the name
    down. *)
Ltac allowed :=
  repeat match goal with
  | H : _ && _ = true |- _ => apply andb_true_iff in H as [? ?]
  | H : _ || _ = true |- _ => apply orb_true_iff in H as [?|?]
  | H : String.eqb _ _ = true |- _ => apply String.eqb_eq in H; subst
  | H : mem _ _ = true |- _ => name_cases H
  end;
  try discriminate; reflexivity.

Lemma setattr_checks_writes E name value :
  writes_in (written name) (setattr_checks E name value).
Proof.
  unfold setattr_checks, wrap_structure, check_int, check_float, check_bool,
    check_int_list, check_float_list, check_lengths, split_labels,
    check_paths, check_identifiers, check_dependencies, update_dependents,
    make_data_holder, update_data_holder, warn_pts,
    check_number_of_populations, update_ga_options, update_time_units,
    update_domains, set_default_domain, warn_domain, load_custom_model,
    warn_bounds_before_custom.
  walk; allowed.
Qed.

(** A whole [setattr_main] also stores the value as given. *)
Lemma setattr_main_writes E name value :
  writes_in (λ key v, String.eqb key name || written name key v)
            (setattr_main E name value).
Proof.
  unfold setattr_main. destruct (negb (recognized name)).
  - apply writes_in_raise.
  - apply writes_in_bind.
    + apply writes_in_super_setattr. by rewrite String.eqb_refl.
    + intros _. eapply writes_in_weaken; [|apply setattr_checks_writes].
      intros key v ->. apply orb_true_r.
Qed.

(** The stores of the computed defaults read in 3.11. *)
Definition nested (key : string) (v : pyval) : bool :=
  mem key ["parameter_identifiers"; "lower_bound"; "upper_bound"].

Lemma nested_setattr_writes E name value :
  mem name ["parameter_identifiers"; "lower_bound"; "upper_bound"] = true →
  writes_in nested (setattr_main E name value).
Proof.
  intros Hname. eapply writes_in_weaken; [|apply setattr_main_writes].
  intros key v. unfold nested.
  intros [->%String.eqb_eq|Hw]%orb_true_iff; [done|].
  name_cases Hname; revert Hw; unfold written, converted, derived; eval_names;
    rewrite ?orb_false_r, ?andb_false_r;
    intros [->%String.eqb_eq _]%andb_true_iff; reflexivity.
Qed.

Lemma get_parameter_identifiers_writes E :
  writes_in nested (get_parameter_identifiers E).
Proof.
  unfold get_parameter_identifiers.
  walk_with ltac:(first
    [ apply writes_in_try_except
    | apply nested_setattr_writes; reflexivity ]).
Qed.

Lemma get_bound_writes E name :
  mem name ["lower_bound"; "upper_bound"] = true →
  writes_in nested (get_bound E name).
Proof.
  intros Hname. unfold get_bound.
  walk_with ltac:(first
    [ apply get_parameter_identifiers_writes
    | apply nested_setattr_writes; name_cases Hname; reflexivity ]).
Qed.

Lemma warn_structure_ignored_writes E name value :
  writes_in (written_full name) (warn_structure_ignored E name value).
Proof.
  unfold warn_structure_ignored.
  destruct (mem name ["initial_structure"; "final_structure"]
            && negb (is_none value)) eqn:Hc; [|apply writes_in_ret].
  apply andb_true_iff in Hc as [Hname _].
  eapply (writes_in_weaken nested).
  { intros key v Hn. unfold written_full. rewrite Hname.
    unfold nested in Hn. rewrite Hn. apply orb_true_r. }
  unfold getattr_full; eval_names.
  walk_with ltac:(apply get_bound_writes; reflexivity).
Qed.

(** Lines 97-367: everything after the store of line 95. *)
Lemma after_store_writes E name value :
  writes_in (written_full name)
    (value ← setattr_checks E name value; warn_structure_ignored E name value).
Proof.
  apply writes_in_bind.
  - eapply writes_in_weaken; [|apply setattr_checks_writes].
    intros key v Hw. unfold written_full. by rewrite Hw.
  - intros v. apply warn_structure_ignored_writes.
Qed.

Lemma setattr_recognized E name value st :
  recognized name = true →
  __setattr__ E name value st =
  (value ← setattr_checks E name value; warn_structure_ignored E name value)
    (set_attrs (insert name value) st).
Proof.
  intros Hrec. unfold __setattr__, setattr_main. rewrite Hrec. reflexivity.
Qed.

(** No assignment writes a derived or nested value under its own name. *)
Lemma derived_self name : derived name name = false.
Proof.
  unfold derived.
  destruct (mem name ["fractions"; "size_of_generation"]) eqn:H1;
    [name_cases H1; reflexivity|].
  destruct (String.eqb name "const_of_time_in_drawing") eqn:H2;
    [apply String.eqb_eq in H2 as ->; reflexivity|].
  destruct (String.eqb name "custom_filename") eqn:H3;
    [apply String.eqb_eq in H3 as ->; reflexivity|].
  reflexivity.
Qed.

Lemma nested_self name :
  mem name ["initial_structure"; "final_structure"]
  && mem name ["parameter_identifiers"; "lower_bound"; "upper_bound"] = false.
Proof.
  destruct (mem name ["initial_structure"; "final_structure"]) eqn:H1;
    [name_cases H1; reflexivity|reflexivity].
Qed.

Lemma written_full_self name v :
  written_full name name v = true → converted name v = true.
Proof.
  unfold written_full, written.
  rewrite String.eqb_refl, derived_self, nested_self, !orb_false_r.
  by rewrite andb_true_l.
Qed.

Lemma scalar_not_converted name v :
  mem name scalar_attrs = true → converted name v = false.
Proof.
  intros Hname. unfold converted.
  name_cases Hname; reflexivity.
Qed.




End SettingsFacts.

(** ** [SettingsStorage.__setattr__]: the typed settings *)

Module TypedSettings.
Import Py Settings SettingsFacts.

Implicit Types (E : Env) (st : state) (name : string) (value : pyval).

(** *** Checks that only look *)

(** [value < 0], for a number. *)
Definition negative (value : pyval) : bool :=
  match num_of value with Some q => Qlt_bool q 0 | None => false end.

(** [value < 0 or value > 1], for a number. *)
Definition outside_unit (value : pyval) : bool :=
  match num_of value with
  | Some q => Qlt_bool q 0 || Qlt_bool 1 q
  | None => false
  end.

Lemma run_check_int value st :
  check_int value st
  = (if negb (is_int value) || negative value then Raise ValueError else Ok (),
     st).
Proof.
  unfold check_int, negative. destruct value; try reflexivity.
  - simpl. rewrite run_bind. cbn [lift py_lt py_cmp num_of].
    change (inject_Z 0) with 0%Q. by destruct (Qlt_bool _ _).
  - simpl. rewrite run_bind. cbn [lift py_lt py_cmp num_of].
    change (inject_Z 0) with 0%Q. by destruct (Qlt_bool _ _).
Qed.

Lemma run_check_float name value st :
  check_float name value st
  = (if negb (is_int value || is_float value)
        || (mem name probs_attrs && outside_unit value)
     then Raise ValueError else Ok (),
     st).
Proof.
  unfold check_float, outside_unit.
  destruct (mem name probs_attrs); destruct value; try reflexivity;
    simpl; rewrite run_bind; cbn [lift py_lt py_gt py_cmp num_of];
    change (inject_Z 0) with 0%Q; change (inject_Z 1) with 1%Q;
    (destruct (Qlt_bool _ 0); [reflexivity|]);
    rewrite run_bind; cbn [lift py_lt py_gt py_cmp num_of];
    by destruct (Qlt_bool 1 _).
Qed.

Lemma run_check_bool value st :
  check_bool value st
  = (if negb (is_bool value) then Raise ValueError else Ok (), st).
Proof. unfold check_bool. by destruct (is_bool value). Qed.

Lemma run_update_dependents_other E name value st :
  String.eqb name "input_file" = false →
  mem name data_holder_attrs = false →
  mem name ["engine"; "local_optimizer"; "pts"; "number_of_populations";
            "fractions"; "size_of_generation"; "units_of_time_in_drawing";
            "const_of_time_in_drawing"] = false →
  mem name bounds_attrs = false →
  update_dependents E name value st = (Ok (), st).
Proof.
  intros H1 H2 H3 H4. unfold update_dependents. rewrite H1, H2, H4.
  cbn [mem existsb] in H3. repeat apply orb_false_elim in H3 as [? H3].
  cbn [mem existsb].
  repeat match goal with H : String.eqb _ _ = false |- _ => rewrite H; clear H end.
  reflexivity.
Qed.

Lemma run_bind_assoc {A B C} (m : M A) (f : A → M B) (g : B → M C) st :
  ((m ≫= f) ≫= g) st = (m ≫= λ a, f a ≫= g) st.
Proof.
  rewrite !run_bind. destruct (m st) as [[a|e] st1]; [|done].
  by rewrite run_bind.
Qed.

(** Run the statements of an assignment to a literal name as far as
    they do not depend on the value. *)
Ltac start :=
  unfold __setattr__, setattr_main, setattr_checks; eval_names.
Ltac run :=
  repeat first
    [ rewrite run_bind_assoc
    | step
    | rewrite run_bind;
      first [ rewrite run_check_int | rewrite run_check_float
            | rewrite run_check_bool
            | rewrite run_update_dependents_other by reflexivity ]
    | rewrite run_warn_structure_other by reflexivity ].

(** *** The two mutation constants *)

Lemma run_check_mutation_constant name value st :
  mem name ["const_for_mutation_strength"; "const_for_mutation_rate"] = true →
  check_dependencies name value st
  = (match value with
     | VFloat q => if Qlt_bool q 1 || Qlt_bool 2 q then Raise ValueError
                   else Ok ()
     | _ => Raise ValueError
     end, st).
Proof.
  intros Hname. unfold check_dependencies. rewrite Hname.
  assert (String.eqb name "vmin" = false) as ->
    by (name_cases Hname; reflexivity).
  destruct value as [| | |q| | |]; try reflexivity.
  cbn [is_float negb]. rewrite run_bind_assoc, run_bind.
  cbn [lift py_lt py_gt py_cmp num_of]. change (inject_Z 1) with 1%Q.
  destruct (Qlt_bool q 1); [reflexivity|].
  rewrite run_bind_assoc, run_bind. cbn [lift]. change (inject_Z 2) with 2%Q.
  by destruct (Qlt_bool 2 q).
Qed.



(** *** [vmin] *)

Lemma run_check_vmin value st :
  check_dependencies "vmin" value st
  = (match num_of value with
     | Some q => if Qle_bool q 0 then Raise ValueError else Ok ()
     | None => Raise TypeError
     end, st).
Proof.
  unfold check_dependencies. eval_names. rewrite run_bind. cbn [ret].
  rewrite run_bind. cbn [lift]. unfold py_le, py_cmp.
  destruct (num_of value) as [q|]; [|reflexivity].
  change (num_of (VInt 0)) with (Some 0%Q). cbn iota.
  by destruct (Qle_bool q 0).
Qed.


(** *** The typed settings *)

(** What the checks 1.1 to 1.3 (lines 119-135) refuse. *)
Definition ill_typed (name : string) (value : pyval) : bool :=
  (mem name int_attrs && (negb (is_int value) || negative value))
  || ((mem name float_attrs || mem name probs_attrs)
      && (negb (is_int value || is_float value)
          || (mem name probs_attrs && outside_unit value)))
  || (mem name bool_attrs && negb (is_bool value)).

(** An assignment to an integer, float, probability or boolean setting
    of a value that differs from the default of [settings] and is not
    of the type, is negative for an integer setting or outside [0, 1]
    for a probability, fails with [ValueError]; the value is on the
    object afterwards. *)
Theorem setattr_ill_typed E name value st :
  mem name (int_attrs ++ float_attrs ++ probs_attrs ++ bool_attrs) = true →
  we_check E name value = true →
  ill_typed name value = true →
  __setattr__ E name value st
  = (Raise ValueError, set_attrs (insert name value) st).
Proof.
  intros Hname Hwe Hill.
  name_cases Hname; revert Hill; unfold ill_typed; eval_names;
    rewrite ?orb_false_r; intros Hill; start; run; rewrite Hwe; run;
    eval_names; by rewrite Hill.
Qed.

Lemma setattr_ill_typed_witness :
  mem "number_of_repeats" (int_attrs ++ float_attrs ++ probs_attrs ++ bool_attrs)
    = true ∧
  we_check example_env "number_of_repeats" (VFloat (5 # 2)) = true ∧
  ill_typed "number_of_repeats" (VFloat (5 # 2)) = true ∧
  __setattr__ example_env "number_of_repeats" (VFloat (5 # 2)) example_state
  = (Raise ValueError,
     set_attrs (insert "number_of_repeats" (VFloat (5 # 2))) example_state).
Proof.
  split_and!; [reflexivity..|].
  apply (setattr_ill_typed example_env "number_of_repeats" (VFloat (5 # 2))
           example_state); reflexivity.
Defined.

(** The typed settings whose assignment has no further effect: no
    data holder to update, no derived option, no other check. *)
Definition plain_attrs : list string :=
  [ "stuck_generation_number"; "verbose";
    "print_models_code_every_n_iteration"; "n_elitism";
    "draw_models_every_n_iteration"; "number_of_repeats";
    "number_of_processes"; "time_to_print_summary";
    "theta0"; "time_for_generation"; "eps";
    "upper_bound_of_first_split"; "upper_bound_of_second_split";
    "mean_mutation_strength"; "mean_mutation_rate"; "p_mutation";
    "p_crossover"; "p_random";
    "linked_snp_s"; "only_sudden"; "no_migrations"; "silence"; "test";
    "random_n_a"; "relative_parameters" ].

(** For these settings the checks 1.1 to 1.3 are all there is: an
    assignment stores the value and returns, unless the value differs
    from the default of [settings] and is refused by the check of its
    type; the default itself, be it [None], always passes.  Nothing
    but the attribute changes. *)
Theorem setattr_plain E name value st :
  mem name plain_attrs = true →
  __setattr__ E name value st
  = (if we_check E name value && ill_typed name value
     then Raise ValueError else Ok (),
     set_attrs (insert name value) st).
Proof.
  intros Hname.
  name_cases Hname; unfold ill_typed; eval_names; rewrite ?orb_false_r;
    start; run; (destruct (we_check E _ value); cbn [andb]; run; [|done]);
    eval_names;
    match goal with
    | |- context [if ?c then Raise ValueError else Ok ()] => by destruct c
    end.
Qed.

Lemma setattr_plain_witness :
  mem "p_mutation" plain_attrs = true ∧
  __setattr__ example_env "p_mutation" (VFloat (3 # 2)) example_state
  = (if we_check example_env "p_mutation" (VFloat (3 # 2))
        && ill_typed "p_mutation" (VFloat (3 # 2))
     then Raise ValueError else Ok (),
     set_attrs (insert "p_mutation" (VFloat (3 # 2))) example_state).
Proof.
  split; [reflexivity|].
  apply (setattr_plain example_env "p_mutation" (VFloat (3 # 2)) example_state).
  reflexivity.
Defined.

End TypedSettings.

(** ** [SettingsStorage.__setattr__]: what else an assignment does *)

Module SettingEffects.
Import Py Settings SettingsFacts TypedSettings.
Implicit Types (E : Env) (st : state) (name : string) (value : pyval).

(** *** Directories *)

(** The two directory settings differ in what they keep:
    [output_directory] ends up holding what [ensure_dir_existence]
    returns for the value, [directory_with_bootstrap] the value as
    given, the result of [check_dir_existence] being dropped.  Either
    check may raise, with the value as given on the object. *)
Theorem setattr_directories E value st :
  __setattr__ E "output_directory" value st
  = match ensure_dir_existence E value with
    | Ok v => (Ok (), set_attrs (insert "output_directory" v)
                        (set_attrs (insert "output_directory" value) st))
    | Raise e => (Raise e, set_attrs (insert "output_directory" value) st)
    end ∧
  __setattr__ E "directory_with_bootstrap" value st
  = (match check_dir_existence E value with
     | Ok _ => Ok ()
     | Raise e => Raise e
     end,
     set_attrs (insert "directory_with_bootstrap" value) st).
Proof.
  split; start; run; unfold check_paths; eval_names; run.
  - rewrite run_bind, run_lift.
    destruct (ensure_dir_existence E value) as [v|e]; [|reflexivity]. by run.
  - rewrite run_bind, run_lift.
    destruct (check_dir_existence E value) as [v|e]; [|reflexivity]. by run.
Qed.

(** *** The engine and the grid points *)

(** An assignment of [engine] asks the registry for the engine and
    does nothing else: it never warns that [pts] will be ignored, the
    branch 3.5 being behind the branch 3.3 for this name. *)
Theorem setattr_engine E value st :
  __setattr__ E "engine" value st
  = (get_engine E value, set_attrs (insert "engine" value) st).
Proof.
  start; run. rewrite run_bind. unfold update_dependents; eval_names.
  rewrite run_lift. destruct (get_engine E value) as [[]|e]; [|reflexivity].
  by run.
Qed.

(** *** Reading after a store *)

Lemma lookup_attr_insert_ne E st key v name :
  key ≠ name →
  lookup_attr E (set_attrs (insert key v) st) name = lookup_attr E st name.
Proof. intros Hne. unfold lookup_attr. simpl. by rewrite lookup_insert_ne. Qed.

Lemma has_attr_insert_ne E st key v name :
  key ≠ name →
  has_attr E (set_attrs (insert key v) st) name = has_attr E st name.
Proof. intros Hne. unfold has_attr. by rewrite lookup_attr_insert_ne. Qed.

Lemma get_initial_structure_insert_ne E st key v :
  key ≠ "initial_structure" → key ≠ "custom_filename" →
  key ≠ "number_of_populations" →
  get_initial_structure E (set_attrs (insert key v) st)
  = get_initial_structure E st.
Proof.
  intros H1 H2 H3. unfold get_initial_structure.
  rewrite !lookup_attr_insert_ne, has_attr_insert_ne by done.
  simpl. by rewrite lookup_insert_ne.
Qed.

Lemma get_final_structure_insert_ne E st key v :
  key ≠ "final_structure" → key ≠ "initial_structure" →
  key ≠ "custom_filename" → key ≠ "number_of_populations" →
  get_final_structure E (set_attrs (insert key v) st)
  = get_final_structure E st.
Proof.
  intros H0 H1 H2 H3. unfold get_final_structure.
  rewrite lookup_attr_insert_ne, get_initial_structure_insert_ne by done.
  simpl. by rewrite lookup_insert_ne.
Qed.

(** A store under another name leaves a reading as it is, the names
    the computed defaults look at apart. *)
Lemma getattr_insert_other E st key v name :
  key ≠ name → key ≠ "initial_structure" → key ≠ "final_structure" →
  key ≠ "custom_filename" → key ≠ "number_of_populations" →
  getattr E (set_attrs (insert key v) st) name = getattr E st name.
Proof.
  intros. unfold getattr.
  rewrite get_initial_structure_insert_ne, get_final_structure_insert_ne,
    lookup_attr_insert_ne by done.
  done.
Qed.

Lemma getattr_insert_eq E st name v :
  getattr E (set_attrs (insert name v) st) name = Ok v.
Proof.
  unfold getattr, get_initial_structure, get_final_structure, lookup_attr.
  repeat case_match; simplify_eq/=;
    repeat match goal with
    | H : String.eqb _ _ = true |- _ => apply String.eqb_eq in H; subst
    end; by simplify_map_eq.
Qed.

(** *** The unit of time in drawings *)

(** The first key of the dictionary of line 297 whose value equals
    [value]. *)
Lemma time_units_filter value :
  filter (λ kv : string * pyval, py_eq kv.2 value = true) time_units
  = (if py_eq (VInt 1) value
     then [("generations", VInt 1); ("years", VInt 1)] else [])
    ++ (if py_eq (VFloat (1 # 100)) value
        then [("thousands of years", VFloat (1 # 100));
              ("kya", VFloat (1 # 100))] else []).
Proof.
  unfold time_units. rewrite !filter_cons, filter_nil. cbn [snd].
  set (b1 := py_eq (VInt 1) value).
  set (b2 := py_eq (VFloat (1 # 100)) value).
  destruct b1, b2; repeat case_decide; done.
Qed.

Lemma run_update_time_units E value st :
  update_time_units E "const_of_time_in_drawing" value st
  = (Ok (),
     if py_eq (VInt 1) value
     then set_attrs (insert "units_of_time_in_drawing" (VStr "generations")) st
     else if py_eq (VFloat (1 # 100)) value
     then set_attrs (insert "units_of_time_in_drawing"
                       (VStr "thousands of years")) st
     else st).
Proof.
  unfold update_time_units. eval_names. rewrite time_units_filter.
  by destruct (py_eq (VInt 1) value), (py_eq (VFloat (1 # 100)) value).
Qed.

(** The whole of an assignment of [const_of_time_in_drawing]. *)
Lemma run_setattr_const_of_time E value st :
  __setattr__ E "const_of_time_in_drawing" value st
  = let st1 := set_attrs (insert "const_of_time_in_drawing" value) st in
    if we_check E "const_of_time_in_drawing" value
       && negb (is_int value || is_float value)
    then (Raise ValueError, st1)
    else
      (Ok (),
       if py_eq (VInt 1) value
       then set_attrs (insert "units_of_time_in_drawing" (VStr "generations"))
              st1
       else if py_eq (VFloat (1 # 100)) value
       then set_attrs (insert "units_of_time_in_drawing"
                         (VStr "thousands of years")) st1
       else st1).
Proof.
  cbv zeta. start; run.
  assert (∀ st1,
    (update_dependents E "const_of_time_in_drawing" value
     ≫= λ _ : (),
          (load_custom_model E "const_of_time_in_drawing" value
           ≫= λ _ : (),
                warn_bounds_before_custom E "const_of_time_in_drawing"
                ≫= λ _ : (), ret value)
          ≫= λ value0,
               warn_structure_ignored E "const_of_time_in_drawing" value0) st1
    = (Ok (),
       if py_eq (VInt 1) value
       then set_attrs (insert "units_of_time_in_drawing" (VStr "generations"))
              st1
       else if py_eq (VFloat (1 # 100)) value
       then set_attrs (insert "units_of_time_in_drawing"
                         (VStr "thousands of years")) st1
       else st1)) as Htail.
  { intros st1. rewrite run_bind. unfold update_dependents; eval_names.
    rewrite run_update_time_units. by run. }
  destruct (we_check E "const_of_time_in_drawing" value); cbn [andb]; run;
    [|apply Htail].
  eval_names. rewrite orb_false_r.
  destruct (negb (is_int value || is_float value)); [reflexivity|]. run.
  apply Htail.
Qed.

(** An assignment of [const_of_time_in_drawing] that returns has set
    [units_of_time_in_drawing] to the first unit of the dictionary of
    line 297 with that constant, ['generations'] for 1 and ['thousands
    of years'] for 0.01, and has left it alone for any other
    constant. *)
Theorem setattr_const_of_time E value st st' :
  __setattr__ E "const_of_time_in_drawing" value st = (Ok (), st') →
  attrs st' !! "const_of_time_in_drawing" = Some value ∧
  attrs st' !! "units_of_time_in_drawing"
  = if py_eq (VInt 1) value then Some (VStr "generations")
    else if py_eq (VFloat (1 # 100)) value
    then Some (VStr "thousands of years")
    else attrs st !! "units_of_time_in_drawing".
Proof.
  rewrite run_setattr_const_of_time. cbv zeta.
  destruct (_ && _); [done|]. intros Heq.
  apply (f_equal snd) in Heq. cbn [snd] in Heq. subst st'.
  destruct (py_eq (VInt 1) value); [simpl; split; by simplify_map_eq|].
  destruct (py_eq (VFloat (1 # 100)) value); simpl; split; by simplify_map_eq.
Qed.

Lemma setattr_const_of_time_witness :
  ∃ st',
    __setattr__ example_env "const_of_time_in_drawing" (VFloat (1 # 100))
      example_state = (Ok (), st') ∧
    attrs st' !! "const_of_time_in_drawing" = Some (VFloat (1 # 100)) ∧
    attrs st' !! "units_of_time_in_drawing"
    = if py_eq (VInt 1) (VFloat (1 # 100)) then Some (VStr "generations")
      else if py_eq (VFloat (1 # 100)) (VFloat (1 # 100))
      then Some (VStr "thousands of years")
      else attrs example_state !! "units_of_time_in_drawing".
Proof.
  eexists. split; [vm_compute; reflexivity|].
  apply (setattr_const_of_time example_env (VFloat (1 # 100)) example_state).
  vm_compute. reflexivity.
Defined.

(** [units_of_time_in_drawing] itself is in none of the lists of lines
    41-75, so the test of lines 82-92 refuses it. *)
Lemma units_of_time_unrecognized :
  recognized "units_of_time_in_drawing" = false.
Proof. reflexivity. Qed.

(** Whatever is assigned to whatever setting, and whether the
    assignment returns or raises, [units_of_time_in_drawing] on the
    object is afterwards what it was before or one of ['generations']
    and ['thousands of years']: the name itself is refused by the test
    of lines 82-92 before anything is stored, and
    [const_of_time_in_drawing] is the one setting that sets it. *)
Theorem units_of_time_values E name value st :
  attrs (__setattr__ E name value st).2 !! "units_of_time_in_drawing"
    = attrs st !! "units_of_time_in_drawing" ∨
  attrs (__setattr__ E name value st).2 !! "units_of_time_in_drawing"
    = Some (VStr "generations") ∨
  attrs (__setattr__ E name value st).2 !! "units_of_time_in_drawing"
    = Some (VStr "thousands of years").
Proof.
  destruct (recognized name) eqn:Hrec.
  2:{ left. unfold __setattr__, setattr_main. by rewrite Hrec. }
  assert (name ≠ "units_of_time_in_drawing") as Hne by (by intros ->).
  destruct (decide (name = "const_of_time_in_drawing")) as [->|Hconst].
  { rewrite run_setattr_const_of_time. cbv zeta.
    destruct (_ && _); [left; simpl; by simplify_map_eq|]. cbn [snd].
    destruct (py_eq (VInt 1) value);
      [right; left; simpl; by simplify_map_eq|].
    destruct (py_eq (VFloat (1 # 100)) value);
      [right; right; simpl; by simplify_map_eq|].
    left. simpl. by simplify_map_eq. }
  left. rewrite setattr_recognized by done.
  destruct (after_store_writes E name value
              (set_attrs (insert name value) st) "units_of_time_in_drawing")
    as [->|(v & _ & Hw)].
  - simpl. by rewrite lookup_insert_ne.
  - exfalso. revert Hw. unfold written_full, written, derived.
    assert (String.eqb "units_of_time_in_drawing" name = false) as ->
      by (by apply String.eqb_neq).
    assert (String.eqb name "const_of_time_in_drawing" = false) as ->
      by (by apply String.eqb_neq).
    eval_names. by rewrite !andb_false_r.
Qed.

(** *** Fewer than three fractions *)

Lemma mapM_py_float_floats E (qs : list Q) :
  mapM (py_float E) (VFloat <$> qs) = Some qs.
Proof.
  induction qs as [|q qs IH]; [done|].
  rewrite fmap_cons. cbn [mapM]. simpl. by rewrite IH.
Qed.

Lemma forM_in_unit (qs : list Q) st :
  Forall (λ q, Qlt_bool q 0 || Qlt_bool 1 q = false) qs →
  forM qs (λ val, if Qlt_bool val 0 || Qlt_bool 1 val then raise ValueError
                  else ret ()) st
  = (Ok (), st).
Proof.
  induction 1 as [|q qs Hq _ IH]; [done|].
  cbn [forM]. rewrite run_bind, Hq. cbn [ret]. apply IH.
Qed.

Lemma run_check_fractions E (qs : list Q) st :
  Forall (λ q, Qlt_bool q 0 || Qlt_bool 1 q = false) qs →
  check_float_list E "fractions" (VList (VFloat <$> qs)) st
  = (Ok (VList (VFloat <$> qs)),
     set_attrs (insert "fractions" (VList (VFloat <$> qs))) st).
Proof.
  intros Hqs. unfold check_float_list. rewrite run_bind. cbn [ret].
  rewrite mapM_py_float_floats. eval_names.
  rewrite run_bind, run_super_setattr, run_bind, forM_in_unit by done.
  reflexivity.
Qed.

(** Section 3.7 on fewer than three fractions. *)
Lemma update_ga_options_short E (qs : list Q) g st :
  length qs < 3 →
  getattr E st "fractions" = Ok (VList (VFloat <$> qs)) →
  getattr E st "size_of_generation" = Ok (VInt g) →
  ∃ st', update_ga_options E st = (Raise IndexError, st') ∧
         attrs st' !! "fractions" = attrs st !! "fractions" ∧
         attrs st' !! "p_crossover" = attrs st !! "p_crossover" ∧
         attrs st' !! "p_random" = attrs st !! "p_random".
Proof.
  intros Hlen Hfr Hsize. unfold update_ga_options.
  destruct qs as [|q0 [|q1 [|q2 qs]]]; [| | |simpl in Hlen; lia];
    cbn [fmap list_fmap] in Hfr;
    repeat (rewrite run_bind;
            first [ rewrite run_read, ?getattr_insert_ne by done;
                    first [rewrite Hfr|rewrite Hsize]
                  | rewrite run_lift;
                    cbn [py_index index lookup list_lookup py_mul py_int
                         py_sum for_each py_add num_arith int_of num_of
                         mbind result_bind];
                    unfold py_sub; cbn [num_arith int_of num_of]
                  | rewrite run_super_setattr ]);
    (eexists; split; [reflexivity|]; simpl; by rewrite ?lookup_insert_ne).
Qed.

(** An assignment of fewer than three fractions, each a float in
    [0, 1], gets through the checks and fails in section 3.7 with
    [IndexError], not [ValueError]: no check looks at the number of
    fractions.  The fractions given are on the object afterwards,
    [p_crossover] and [p_random] are as before. *)
Theorem setattr_fractions_short E (qs : list Q) g st :
  Forall (λ q, Qlt_bool q 0 || Qlt_bool 1 q = false) qs →
  length qs < 3 →
  getattr E st "size_of_generation" = Ok (VInt g) →
  ∃ st', __setattr__ E "fractions" (VList (VFloat <$> qs)) st
         = (Raise IndexError, st') ∧
         attrs st' !! "fractions" = Some (VList (VFloat <$> qs)) ∧
         attrs st' !! "p_crossover" = attrs st !! "p_crossover" ∧
         attrs st' !! "p_random" = attrs st !! "p_random".
Proof.
  intros Hqs Hlen Hsize.
  assert (∀ st1,
    attrs st1 !! "fractions" = Some (VList (VFloat <$> qs)) →
    attrs st1 !! "p_crossover" = attrs st !! "p_crossover" →
    attrs st1 !! "p_random" = attrs st !! "p_random" →
    getattr E st1 "size_of_generation" = Ok (VInt g) →
    ∃ st',
      ((ret ()
        ≫= λ _ : (),
             split_labels "fractions" (VList (VFloat <$> qs))
             ≫= λ value,
                  check_paths E "fractions" value
                  ≫= λ value0,
                       check_identifiers E "fractions" value0
                       ≫= λ value1,
                            check_dependencies "fractions" value1
                            ≫= λ _ : (),
                                 update_dependents E "fractions" value1
                                 ≫= λ _ : (),
                                      load_custom_model E "fractions" value1
                                      ≫= λ _ : (),
                                           warn_bounds_before_custom E
                                             "fractions"
                                           ≫= λ _ : (), ret value1)
       ≫= λ value, warn_structure_ignored E "fractions" value) st1
      = (Raise IndexError, st') ∧
      attrs st' !! "fractions" = Some (VList (VFloat <$> qs)) ∧
      attrs st' !! "p_crossover" = attrs st !! "p_crossover" ∧
      attrs st' !! "p_random" = attrs st !! "p_random") as Htail.
  { intros st1 Hfr Hc Hr Hsize1. run.
    destruct (update_ga_options_short E qs g st1 Hlen) as (st' & Hup & ? & ? & ?);
      [|done|].
    { unfold getattr, lookup_attr. eval_names. by rewrite Hfr. }
    exists st'. rewrite run_bind. unfold update_dependents; eval_names.
    rewrite Hup. split; [done|]. split_and!; congruence. }
  start; run.
  destruct (we_check E "fractions" _).
  - rewrite run_bind, run_check_fractions by done.
    apply Htail; simpl; rewrite ?lookup_insert_eq, ?lookup_insert_ne by done;
      try done.
    by rewrite !getattr_insert_ne by done.
  - rewrite run_bind. cbn [ret].
    apply Htail; simpl; rewrite ?lookup_insert_eq, ?lookup_insert_ne by done;
      try done.
    by rewrite !getattr_insert_ne by done.
Qed.

Lemma setattr_fractions_short_witness :
  Forall (λ q, Qlt_bool q 0 || Qlt_bool 1 q = false) [1 # 2; 1 # 4] ∧
  length [1 # 2; 1 # 4] < 3 ∧
  getattr example_env example_state "size_of_generation" = Ok (VInt 10) ∧
  ∃ st', __setattr__ example_env "fractions"
           (VList (VFloat <$> [1 # 2; 1 # 4])) example_state
         = (Raise IndexError, st') ∧
         attrs st' !! "fractions" = Some (VList (VFloat <$> [1 # 2; 1 # 4])) ∧
         attrs st' !! "p_crossover" = attrs example_state !! "p_crossover" ∧
         attrs st' !! "p_random" = attrs example_state !! "p_random".
Proof.
  assert (Forall (λ q, Qlt_bool q 0 || Qlt_bool 1 q = false) [1 # 2; 1 # 4])
    as H1 by (repeat constructor).
  assert (length [1 # 2; 1 # 4] < 3) as H2 by (simpl; lia).
  assert (getattr example_env example_state "size_of_generation"
          = Ok (VInt 10)) as H3 by reflexivity.
  split_and!; [done..|].
  exact (setattr_fractions_short example_env [1 # 2; 1 # 4] 10 example_state
           H1 H2 H3).
Defined.

(** *** Population labels given as one string *)

(** Check 1.6 comes before the split of 1.7: for population labels
    given as one comma-separated string it compares the number of
    characters of the string with the lengths of the other settings.
    With projections for [k] populations on the object (and no
    structure), a string that is not [k] characters long is refused
    with [ValueError], however many labels it holds. *)
Theorem setattr_labels_string E s l st :
  we_check E "population_labels" (VStr s) = true →
  getattr E st "initial_structure" = Ok VNone →
  getattr E st "final_structure" = Ok VNone →
  getattr E st "projections" = Ok (VList l) →
  String.length s ≠ length l →
  __setattr__ E "population_labels" (VStr s) st
  = (Raise ValueError, set_attrs (insert "population_labels" (VStr s)) st).
Proof.
  intros Hwe Hini Hfin Hproj Hlen. start; run. rewrite Hwe.
  unfold check_lengths. eval_names. unfold attrs_with_equal_len.
  cbn [forM]. apply Nat.eqb_neq in Hlen.
  repeat first
    [ rewrite run_bind_assoc
    | rewrite run_bind;
      first [ rewrite run_read, ?getattr_insert_eq,
                ?getattr_insert_other by done;
              rewrite ?Hini, ?Hfin, ?Hproj
            | rewrite run_lift
            | progress cbn [ret] ]
    | progress cbn [is_none py_len negb ret]
    | rewrite Nat.eqb_refl
    | rewrite Hlen ].
  reflexivity.
Qed.

(** A storage with projections for three populations and no
    structure. *)
Definition three_projections : state :=
  set_attrs (λ _, list_to_map
    [ ("projections", VList [VInt 4; VInt 6; VInt 8]);
      ("initial_structure", VNone); ("final_structure", VNone) ])
    example_state.

Lemma setattr_labels_string_witness :
  we_check example_env "population_labels" (VStr "A,B,C") = true ∧
  getattr example_env three_projections "initial_structure" = Ok VNone ∧
  getattr example_env three_projections "final_structure" = Ok VNone ∧
  getattr example_env three_projections "projections"
    = Ok (VList [VInt 4; VInt 6; VInt 8]) ∧
  String.length "A,B,C" ≠ length [VInt 4; VInt 6; VInt 8] ∧
  __setattr__ example_env "population_labels" (VStr "A,B,C") three_projections
  = (Raise ValueError,
     set_attrs (insert "population_labels" (VStr "A,B,C")) three_projections).
Proof.
  split_and!; [reflexivity..|simpl; lia|].
  apply (setattr_labels_string example_env "A,B,C"
           [VInt 4; VInt 6; VInt 8] three_projections);
    [reflexivity..|simpl; lia].
Defined.

(** *** The grid points *)

Lemma forM_not_negative (zs : list Z) st :
  Forall (λ z, (0 <= z)%Z) zs →
  forM (VInt <$> zs)
    (λ val, if negb (is_int val) then raise ValueError
            else negative ← lift (py_lt val (VInt 0));
                 if negative : bool then raise ValueError else ret ()) st
  = (Ok (), st).
Proof.
  induction 1 as [|z zs Hz _ IH]; [done|].
  rewrite fmap_cons. cbn [forM]. rewrite run_bind. cbn [is_int negb].
  rewrite run_bind, run_lift. unfold py_lt, py_cmp. cbn [num_of].
  assert (Qlt_bool (inject_Z z) (inject_Z 0) = false) as ->.
  { unfold Qlt_bool. apply negb_false_iff, Qle_bool_iff.
    rewrite <- Zle_Qle. done. }
  cbn [ret]. apply IH.
Qed.

(** An assignment of [pts], a list of non-negative integers, on a
    storage whose engine is not ['dadi'] warns that the engine does not
    need them (with [None] as the default of [settings.pts]); it stores
    the list and does nothing else. *)
Theorem setattr_pts_warns E (zs : list Z) engine st :
  defaults E !! "pts" = Some VNone →
  Forall (λ z, (0 <= z)%Z) zs →
  getattr E st "engine" = Ok engine →
  py_eq engine (VStr "dadi") = false →
  __setattr__ E "pts" (VList (VInt <$> zs)) st
  = (Ok (),
     add_warning WEnginePts (set_attrs (insert "pts" (VList (VInt <$> zs))) st)).
Proof.
  intros Hdef Hzs Hengine Hdadi. start; run.
  assert (we_check E "pts" (VList (VInt <$> zs)) = true) as ->
    by (unfold we_check; by rewrite Hdef).
  rewrite run_bind. unfold check_int_list.
  repeat first
    [ rewrite run_bind_assoc
    | rewrite run_bind; first [rewrite forM_not_negative by done
                              | progress cbn [ret]] ].
  rewrite run_ret. run. rewrite run_bind. unfold update_dependents; eval_names.
  unfold warn_pts.
  rewrite run_bind, run_read, getattr_insert_other, Hengine by done.
  rewrite Hdadi. cbn [negb].
  rewrite run_bind, run_read, getattr_insert_eq, Hdef.
  cbn [py_eq num_of negb]. unfold warn, modify. by run.
Qed.

Lemma setattr_pts_warns_witness :
  defaults example_env !! "pts" = Some VNone ∧
  Forall (λ z, (0 <= z)%Z) [20; 30; 40]%Z ∧
  getattr example_env example_state "engine" = Ok (VStr "moments") ∧
  py_eq (VStr "moments") (VStr "dadi") = false ∧
  __setattr__ example_env "pts" (VList (VInt <$> [20; 30; 40]%Z)) example_state
  = (Ok (),
     add_warning WEnginePts
       (set_attrs (insert "pts" (VList (VInt <$> [20; 30; 40]%Z)))
          example_state)).
Proof.
  assert (Forall (λ z, (0 <= z)%Z) [20; 30; 40]%Z) as H
    by (repeat constructor; lia).
  split_and!; [reflexivity|exact H|reflexivity|reflexivity|].
  apply (setattr_pts_warns example_env [20; 30; 40]%Z (VStr "moments")
           example_state); [reflexivity|exact H|reflexivity..].
Defined.

End SettingEffects.

(** ** [SettingsStorage.__setattr__]: what a successful assignment leaves *)

Module AssignedValues.
Import Py Settings SettingsFacts TypedSettings SettingEffects.
Implicit Types (E : Env) (st : state) (name : string) (value : pyval).

(** *** Statements that leave the state alone *)

Definition pure {A} (m : M A) : Prop :=
  ∀ st r st', m st = (r, st') → st' = st.

Lemma pure_ret {A} (a : A) : pure (ret a).
Proof. by intros st r st' [= _ <-]. Qed.

Lemma pure_raise {A} e : pure (raise (A:=A) e).
Proof. by intros st r st' [= _ <-]. Qed.

Lemma pure_lift {A} (r : result A) : pure (lift r).
Proof. by intros st r' st' [= _ <-]. Qed.

Lemma pure_get : pure get.
Proof. by intros st r st' [= _ <-]. Qed.

Lemma pure_read E name : pure (read E name).
Proof. by intros st r st' [= _ <-]. Qed.

Lemma pure_bind {A B} (m : M A) (k : A → M B) :
  pure m → (∀ a, pure (k a)) → pure (m ≫= k).
Proof.
  intros Hm Hk st r st'. rewrite run_bind.
  destruct (m st) as [[a|e] st1] eqn:Hrun; apply Hm in Hrun as ->.
  - apply Hk.
  - by intros [= _ <-].
Qed.

Lemma pure_forM {X} (xs : list X) (body : X → M unit) :
  (∀ x, pure (body x)) → pure (forM xs body).
Proof.
  intros Hbody. induction xs as [|x xs IH]; simpl.
  - apply pure_ret.
  - apply pure_bind; [done|]. by intros [].
Qed.

Ltac purity :=
  repeat first
    [ apply pure_ret | apply pure_raise | apply pure_lift | apply pure_get
    | apply pure_read
    | apply pure_bind; [|intros ?]
    | apply pure_forM; intros ?
    | match goal with
      | |- pure (if ?c then _ else _) => destruct c
      | |- pure (match ?x with _ => _ end) => destruct x
      | |- pure (let _ := _ in _) => cbv zeta
      end ].

Lemma pure_check_int value : pure (check_int value).
Proof. unfold check_int. purity. Qed.

Lemma pure_check_float name value : pure (check_float name value).
Proof. unfold check_float. purity. Qed.

Lemma pure_check_bool value : pure (check_bool value).
Proof. unfold check_bool. purity. Qed.

Lemma pure_check_lengths E name value : pure (check_lengths E name value).
Proof. unfold check_lengths. purity. Qed.

Lemma pure_check_dependencies name value : pure (check_dependencies name value).
Proof. unfold check_dependencies. purity. Qed.

Lemma pure_check_number_of_populations E :
  pure (check_number_of_populations E).
Proof. unfold check_number_of_populations. purity. Qed.

(** A loop of checks that ends normally has passed each of them. *)
Lemma forM_pure_Ok {X} (xs : list X) (body : X → M unit) st st' :
  (∀ x, pure (body x)) →
  forM xs body st = (Ok (), st') →
  st' = st ∧ ∀ x, x ∈ xs → body x st = (Ok (), st).
Proof.
  intros Hbody. revert st'. induction xs as [|x xs IH]; intros st' Hrun.
  - injection Hrun as <-. split; [done|]. by intros x ?%elem_of_nil.
  - cbn [forM] in Hrun. apply bind_Ok_inv in Hrun as ([] & st1 & Hx & Hrun).
    pose proof (Hbody _ _ _ _ Hx) as ->.
    destruct (IH _ Hrun) as [-> Hall]. split; [done|].
    intros y [->|Hy]%elem_of_cons; [done|by apply Hall].
Qed.

(** *** The number of populations *)

Lemma is_none_VNone v : is_none v = true → v = VNone.
Proof. by destruct v. Qed.

(** Section 3.6 is all that an assignment of [number_of_populations]
    does after the store. *)
Lemma number_of_populations_checked E value st st' :
  __setattr__ E "number_of_populations" value st = (Ok (), st') →
  check_number_of_populations E
    (set_attrs (insert "number_of_populations" value) st) = (Ok (), st').
Proof.
  intros H. unfold __setattr__ in H.
  apply bind_Ok_inv in H as (v & st1 & H & Hw).
  rewrite run_warn_structure_other in Hw by reflexivity. injection Hw as <-.
  unfold setattr_main, setattr_checks in H. revert H. eval_names. intros H.
  invert_main H. rewrite run_ret in H. injection H as -> ->.
  match type of Hstep with
  | _ ?s = (_, ?s') => assert (s' = s) as ->
  end.
  { destruct (we_check E _ v); [|by injection Hstep as <-].
    by apply pure_check_int in Hstep. }
  unfold update_dependents in Hstep0. revert Hstep0. eval_names. intros Hloop.
  by destruct a.
Qed.

(** The loop of section 3.6, when it runs through. *)
Lemma check_number_of_populations_Ok E st st' :
  check_number_of_populations E st = (Ok (), st') →
  st' = st ∧
  ∀ attr, attr ∈ attrs_with_equal_len →
    ∃ v, getattr E st attr = Ok v ∧
      (v = VNone ∨
       ∃ n number, py_len v = Ok n ∧
         getattr E st "number_of_populations" = Ok number ∧
         py_eq (VInt (Z.of_nat n)) number = true).
Proof.
  intros Hloop. unfold check_number_of_populations in Hloop.
  apply forM_pure_Ok in Hloop as [-> Hall]; [|intros; purity].
  split; [done|]. intros attr Hattr. specialize (Hall attr Hattr).
  apply bind_Ok_inv in Hall as (w & st3 & Hread & Hall).
  rewrite run_read in Hread. injection Hread as Hread <-.
  exists w. split; [done|].
  destruct (is_none w) eqn:Hnone; [left; by apply is_none_VNone|right].
  invert_run Hall.
  repeat match goal with
  | H1 : getattr E ?s ?n = Ok ?x, H2 : getattr E ?s ?n = Ok ?y |- _ =>
      rewrite H1 in H2; injection H2 as <-
  end.
  eexists _, _. split; [done|]. split; [done|].
  destruct (py_eq _ _); [done|]. by simpl in Hall.
Qed.

(** An assignment of [number_of_populations] that returns has found
    every one of [initial_structure], [final_structure],
    [population_labels] and [projections] to be [None] or of that
    length; it stores the number and changes nothing else. *)
Theorem setattr_number_of_populations E value st st' :
  __setattr__ E "number_of_populations" value st = (Ok (), st') →
  st' = set_attrs (insert "number_of_populations" value) st ∧
  ∀ attr, attr ∈ attrs_with_equal_len →
    ∃ v, getattr E st' attr = Ok v ∧
      (v = VNone ∨
       ∃ n, py_len v = Ok n ∧ py_eq (VInt (Z.of_nat n)) value = true).
Proof.
  intros H.
  apply number_of_populations_checked,
    check_number_of_populations_Ok in H as [-> Hall].
  split; [done|]. intros attr Hattr.
  destruct (Hall attr Hattr) as (v & Hv & Hlen).
  exists v. split; [done|].
  destruct Hlen as [?|(n & number & Hn & Hnumber & Heq)]; [by left|right].
  rewrite getattr_insert_eq in Hnumber. injection Hnumber as <-.
  by exists n.
Qed.

Lemma setattr_number_of_populations_witness :
  ∃ st',
    __setattr__ example_env "number_of_populations" (VInt 3) three_projections
      = (Ok (), st') ∧
    st' = set_attrs (insert "number_of_populations" (VInt 3)) three_projections ∧
    ∀ attr, attr ∈ attrs_with_equal_len →
      ∃ v, getattr example_env st' attr = Ok v ∧
        (v = VNone ∨
         ∃ n, py_len v = Ok n ∧ py_eq (VInt (Z.of_nat n)) (VInt 3) = true).
Proof.
  eexists. split; [vm_compute; reflexivity|].
  apply (setattr_number_of_populations example_env (VInt 3) three_projections).
  vm_compute. reflexivity.
Defined.

(** *** Statements that leave a part of the state alone *)

Section keeps.
Context {T : Type} (f : state → T).

Definition keeps {A} (m : M A) : Prop :=
  ∀ st r st', m st = (r, st') → f st' = f st.

Lemma keeps_pure {A} (m : M A) : pure m → keeps m.
Proof. intros Hm st r st' Hrun. by rewrite (Hm _ _ _ Hrun). Qed.

Lemma keeps_bind {A B} (m : M A) (k : A → M B) :
  keeps m → (∀ a, keeps (k a)) → keeps (m ≫= k).
Proof.
  intros Hm Hk st r st'. rewrite run_bind.
  destruct (m st) as [[a|e] st1] eqn:Hrun; apply Hm in Hrun as <-.
  - apply Hk.
  - by intros [= _ <-].
Qed.

Lemma keeps_modify (g : state → state) :
  (∀ st, f (g st) = f st) → keeps (modify g).
Proof. intros Hg st r st' [= _ <-]. apply Hg. Qed.
End keeps.

Ltac keeping :=
  repeat first
    [ apply keeps_pure; first [apply pure_ret | apply pure_raise
        | apply pure_lift | apply pure_get | apply pure_read]
    | apply keeps_modify; done
    | apply keeps_bind; [|intros ?]
    | match goal with
      | |- keeps _ (if ?c then _ else _) => destruct c
      | |- keeps _ (match ?x with _ => _ end) => destruct x
      end ].

(** *** Lists of integers *)

(** What check 1.4 lets through. *)
Definition count_like (x : pyval) : Prop :=
  is_int x = true ∧ negative x = false.

Lemma forM_counts_Ok (l : list pyval) st st' :
  forM l (λ val, if negb (is_int val) then raise ValueError
                 else negative ← lift (py_lt val (VInt 0));
                      if negative : bool then raise ValueError else ret ()) st
  = (Ok (), st') →
  st' = st ∧ Forall count_like l.
Proof.
  intros Hrun. apply forM_pure_Ok in Hrun as [-> Hall]; [|intros; purity].
  split; [done|]. apply Forall_forall. intros x Hx. specialize (Hall x Hx).
  unfold count_like, negative. destruct (is_int x) eqn:Hint; [|done].
  split; [done|]. cbn [negb] in Hall. rewrite run_bind, run_lift in Hall.
  unfold py_lt, py_cmp in Hall. destruct (num_of x) as [q|]; [|done].
  change (num_of (VInt 0)) with (Some 0%Q) in Hall. cbn iota in Hall.
  by destruct (Qlt_bool q 0).
Qed.

Lemma check_int_list_Ok E name value st v st' :
  check_int_list E name value st = (Ok v, st') →
  (∃ l, v = VList l ∧ Forall count_like l) ∧
  attrs st' = (if is_str value then <[name := v]> (attrs st) else attrs st) ∧
  (is_str value = false → v = value) ∧
  data_holder st' = data_holder st ∧ domains st' = domains st ∧
  warned st' = warned st.
Proof.
  unfold check_int_list. intros Hrun.
  apply bind_Ok_inv in Hrun as (w & st1 & Hconv & Hrun).
  assert (attrs st1 = (if is_str value then <[name := w]> (attrs st)
                       else attrs st) ∧
          (is_str value = false → w = value) ∧
          data_holder st1 = data_holder st ∧ domains st1 = domains st ∧
          warned st1 = warned st) as (Hattrs & Hsame & ? & ? & ?).
  { destruct value; try (injection Hconv as <- <-; done).
    destruct (mapM _ _) as [zs|]; [|done].
    rewrite run_bind, run_super_setattr in Hconv. by injection Hconv as <- <-. }
  destruct w as [| | | | |l|]; try done.
  apply bind_Ok_inv in Hrun as ([] & st2 & Hloop & Hrun).
  apply forM_counts_Ok in Hloop as [-> Hall]. injection Hrun as <- <-.
  split; [by exists l|]. done.
Qed.

Lemma wrap_structure_Ok name value st w st' :
  wrap_structure name value st = (Ok w, st') →
  attrs st !! name = Some value →
  attrs st' !! name = Some w ∧
  data_holder st' = data_holder st ∧ domains st' = domains st ∧
  warned st' = warned st.
Proof.
  unfold wrap_structure. destruct (_ && _).
  - rewrite run_bind, run_super_setattr. intros [= <- <-] _. simpl.
    by rewrite lookup_insert_eq.
  - by intros [= <- <-].
Qed.

Lemma keeps_attrs_update_dependents E name value :
  mem name int_list_attrs = true →
  keeps attrs (update_dependents E name value).
Proof.
  intros Hname. name_cases Hname; unfold update_dependents; eval_names;
    unfold update_data_holder, warn_pts, warn; keeping.
Qed.

Lemma int_list_names name :
  mem name int_list_attrs = true →
  mem name int_attrs = false ∧ mem name float_attrs = false ∧
  mem name probs_attrs = false ∧ mem name bool_attrs = false ∧
  mem name probs_list_attrs = false ∧ mem name float_list_attrs = false ∧
  String.eqb name "population_labels" = false ∧
  mem name empty_dir_attrs = false ∧ mem name exist_file_attrs = false ∧
  mem name exist_dir_attrs = false ∧
  String.eqb name "parameter_identifiers" = false ∧
  mem name ["const_for_mutation_strength"; "const_for_mutation_rate"] = false ∧
  String.eqb name "vmin" = false ∧
  String.eqb name "custom_filename" = false ∧
  mem name bounds_attrs = false.
Proof. intros Hname. name_cases Hname; repeat split; reflexivity. Qed.

(** Lines 97-361 for a setting that is a list of integers. *)
Lemma setattr_checks_int_list E name value st v st' :
  mem name int_list_attrs = true →
  setattr_checks E name value st = (Ok v, st') →
  attrs st !! name = Some value →
  attrs st' !! name = Some v ∧
  ((∃ l, v = VList l ∧ Forall count_like l) ∨ we_check E name v = false).
Proof.
  intros Hname H Hstored.
  destruct (int_list_names name Hname)
    as (H1 & H2 & H3 & H4 & H5 & H6 & H7 & H8 & H9 & H10 & H11 & H12 & H13
        & H14 & H15).
  unfold setattr_checks in H. rewrite Hname, H1, H2, H3, H4, H5, H6 in H.
  cbn [andb orb] in H.
  apply bind_Ok_inv in H as (w & s1 & Hwrap & H).
  apply wrap_structure_Ok in Hwrap as (Hw & _); [|done].
  do 3 (apply bind_Ok_inv in H as ([] & ? & [= <-] & H)).
  apply bind_Ok_inv in H as (w2 & s2 & Hlist & H).
  apply bind_Ok_inv in H as (? & ? & [= <- <-] & H).
  apply bind_Ok_inv in H as ([] & s3 & Hlen & H).
  rewrite run_bind, run_split_labels_other in H by done.
  rewrite run_bind, run_check_paths_other in H by done.
  rewrite run_bind, run_check_identifiers_other in H by done.
  rewrite run_bind, run_check_dependencies_other in H by done.
  apply bind_Ok_inv in H as ([] & s4 & Hup & H).
  rewrite run_bind, run_load_custom_model_other in H by done.
  rewrite run_bind, run_warn_bounds_other in H by done.
  injection H as <- <-.
  apply (keeps_attrs_update_dependents E name w2 Hname) in Hup.
  assert (attrs s3 = attrs s2) as Hs3.
  { destruct (_ && _); [|by injection Hlen as <-].
    by rewrite (pure_check_lengths _ _ _ _ _ _ Hlen). }
  rewrite Hup, Hs3.
  destruct (we_check E name w) eqn:Hwe.
  - apply check_int_list_Ok in Hlist as (Hl & Hattrs & Hsame & _).
    split; [|by left]. rewrite Hattrs.
    destruct (is_str w) eqn:Hstr; [by rewrite lookup_insert_eq|].
    by rewrite Hsame.
  - injection Hlist as <- <-. split; [done|by right].
Qed.

Lemma keeps_nested_name E name value st r st' :
  mem name int_list_attrs = true →
  warn_structure_ignored E name value st = (r, st') →
  attrs st' !! name = attrs st !! name.
Proof.
  intros Hname Hrun.
  assert (writes_in nested (warn_structure_ignored E name value)) as Hw.
  { unfold warn_structure_ignored.
    destruct (_ && _); [|apply writes_in_ret].
    unfold getattr_full; eval_names.
    walk_with ltac:(apply get_bound_writes; reflexivity). }
  specialize (Hw st name). rewrite Hrun in Hw.
  destruct Hw as [?|(w & _ & Hn)]; [done|].
  unfold nested in Hn. name_cases Hname; discriminate.
Qed.

(** After an assignment of [pts], [initial_structure],
    [final_structure] or [projections] that returns, the setting holds
    a list of integers none of which is negative (a string of
    comma-separated integers having been parsed, one integer for a
    structure having been wrapped into a list), or else a value equal
    to the default of [settings], which is exempt from the check. *)
Theorem setattr_int_list E name value st st' :
  mem name int_list_attrs = true →
  __setattr__ E name value st = (Ok (), st') →
  ∃ v, attrs st' !! name = Some v ∧
    ((∃ l, v = VList l ∧
           Forall (λ x, is_int x = true ∧ negative x = false) l) ∨
     we_check E name v = false).
Proof.
  intros Hname H.
  assert (recognized name = true) as Hrec by (name_cases Hname; reflexivity).
  rewrite setattr_recognized in H by done.
  apply bind_Ok_inv in H as (v & st1 & H & Hw).
  apply (setattr_checks_int_list E name value _ v st1 Hname) in H
    as [Hv Htyped]; [|simpl; by rewrite lookup_insert_eq].
  exists v. split; [|done].
  by rewrite (keeps_nested_name E name v st1 _ st' Hname Hw).
Qed.

Lemma setattr_int_list_witness :
  mem "pts" int_list_attrs = true ∧
  ∃ st',
    __setattr__ example_env "pts" (VStr "20,30,40") example_state
      = (Ok (), st') ∧
    ∃ v, attrs st' !! "pts" = Some v ∧
      ((∃ l, v = VList l ∧
             Forall (λ x, is_int x = true ∧ negative x = false) l) ∨
       we_check example_env "pts" v = false).
Proof.
  split; [reflexivity|]. eexists. split; [vm_compute; reflexivity|].
  apply (setattr_int_list example_env "pts" (VStr "20,30,40") example_state);
    [reflexivity|vm_compute; reflexivity].
Defined.

(** *** The local [value] and the attribute *)

(** A step of the checks takes the value the attribute holds to a
    value the attribute holds, and leaves the data holder alone. *)
Definition tracks (name : string) (step : pyval → M pyval) : Prop :=
  ∀ w s w' s', step w s = (Ok w', s') →
    attrs s !! name = Some w →
    attrs s' !! name = Some w' ∧ data_holder s' = data_holder s.

Lemma tracks_ret name : tracks name ret.
Proof. by intros w s w' s' [= <- <-]. Qed.

Lemma tracks_pure name (check : pyval → M unit) :
  (∀ w, pure (check w)) → tracks name (λ w, _ ← check w; ret w).
Proof.
  intros Hpure w s w' s' Hrun Hw.
  apply bind_Ok_inv in Hrun as ([] & s1 & Hcheck & [= <- <-]).
  by rewrite (Hpure _ _ _ _ Hcheck).
Qed.

Lemma tracks_if name (c : pyval → bool) (step1 step2 : pyval → M pyval) :
  tracks name step1 → tracks name step2 →
  tracks name (λ w, if c w then step1 w else step2 w).
Proof. intros H1 H2 w s w' s'. destruct (c w); [apply H1|apply H2]. Qed.

Lemma tracks_wrap_structure name : tracks name (wrap_structure name).
Proof.
  intros w s w' s' Hrun Hw.
  by apply wrap_structure_Ok in Hrun as (? & ? & _).
Qed.

Lemma tracks_check_int_list E name : tracks name (check_int_list E name).
Proof.
  intros w s w' s' Hrun Hw.
  apply check_int_list_Ok in Hrun as (_ & Hattrs & Hsame & ? & _).
  split; [|done]. rewrite Hattrs.
  destruct (is_str w); [by rewrite lookup_insert_eq|by rewrite Hsame].
Qed.

Lemma tracks_check_float_list E name : tracks name (check_float_list E name).
Proof.
  intros w s w' s' Hrun _. unfold check_float_list in Hrun.
  apply bind_Ok_inv in Hrun as (w1 & s1 & Hconv & Hrun).
  assert (data_holder s1 = data_holder s) as <-.
  { destruct w; try (by injection Hconv as <- <-).
    destruct (mapM _ _); [|done].
    rewrite run_bind, run_super_setattr in Hconv. by injection Hconv as <- <-. }
  destruct w1 as [| | | | |l|]; try done.
  destruct (mapM _ l) as [qs|]; [|done].
  rewrite run_bind, run_super_setattr in Hrun.
  apply bind_Ok_inv in Hrun as ([] & s2 & Hloop & [= <- <-]).
  assert (s2 = set_attrs (insert name (VList (VFloat <$> qs))) s1) as ->.
  { destruct (mem name probs_list_attrs); [|by injection Hloop as <-].
    eapply (pure_forM qs); [|exact Hloop]. intros q. cbv beta. purity. }
  simpl. by rewrite lookup_insert_eq.
Qed.

Lemma tracks_split_labels name : tracks name (split_labels name).
Proof.
  intros w s w' s'. unfold split_labels.
  destruct w; try (by intros [= <- <-]).
  destruct (String.eqb name "population_labels"); [|by intros [= <- <-]].
  rewrite run_bind, run_super_setattr. intros [= <- <-] _. simpl.
  by rewrite lookup_insert_eq.
Qed.

Lemma tracks_check_paths E name :
  mem name exist_dir_attrs = false → tracks name (check_paths E name).
Proof.
  intros Hdir w s w' s' Hrun Hw. unfold check_paths in Hrun.
  rewrite Hdir in Hrun.
  apply bind_Ok_inv in Hrun as (w1 & s1 & H1 & Hrun).
  apply bind_Ok_inv in Hrun as (w2 & s2 & H2 & [= <- <-]).
  assert (attrs s1 !! name = Some w1 ∧ data_holder s1 = data_holder s)
    as [Hw1 <-].
  { destruct (mem name empty_dir_attrs); [|by injection H1 as <- <-].
    apply bind_Ok_inv in H1 as (x & ? & [= Hx <-] & H1).
    rewrite run_bind, run_super_setattr in H1. injection H1 as <- <-.
    simpl. by rewrite lookup_insert_eq. }
  destruct (mem name exist_file_attrs); [|by injection H2 as <- <-].
  apply bind_Ok_inv in H2 as (x & ? & [= Hx <-] & H2).
  rewrite run_bind, run_super_setattr in H2. injection H2 as <- <-.
  simpl. by rewrite lookup_insert_eq.
Qed.

Lemma tracks_check_identifiers E name : tracks name (check_identifiers E name).
Proof.
  intros w s w' s' Hrun Hw. unfold check_identifiers in Hrun.
  destruct (String.eqb name "parameter_identifiers"); [|by injection Hrun as <- <-].
  apply bind_Ok_inv in Hrun as (ids & ? & [= _ <-] & Hrun).
  apply bind_Ok_inv in Hrun as ([] & s1 & Hloop & Hrun).
  assert (s1 = s) as ->.
  { eapply (pure_forM ids); [|exact Hloop]. intros x. cbv beta. purity. }
  rewrite run_bind, run_super_setattr in Hrun. injection Hrun as <- <-.
  simpl. by rewrite lookup_insert_eq.
Qed.

(** Case analysis on the test of a conditional statement. *)
Ltac split_if H :=
  match type of H with
  | (if ?c then _ else _) _ = _ => destruct c
  end.

(** Lines 97-229: the checks of section 1.  When they are through, the
    attribute holds the local [value], for every setting but
    [directory_with_bootstrap]. *)
Lemma base_checks E name value st v st' :
  mem name exist_dir_attrs = false →
  setattr_checks E name value st = (Ok v, st') →
  attrs st !! name = Some value →
  ∃ s, attrs s !! name = Some v ∧ data_holder s = data_holder st ∧
    (_ ← check_dependencies name v;
     _ ← update_dependents E name v;
     _ ← load_custom_model E name v;
     _ ← warn_bounds_before_custom E name;
     ret v) s = (Ok v, st').
Proof.
  intros Hdir H Hstored. unfold setattr_checks in H.
  apply bind_Ok_inv in H as (w & s1 & Hwrap & H).
  destruct (tracks_wrap_structure name _ _ _ _ Hwrap Hstored) as [Hw1 Hd1].
  apply bind_Ok_inv in H as ([] & s2 & Hint & H).
  assert (s2 = s1) as ->.
  { split_if Hint; [|by injection Hint as <-].
    by apply pure_check_int in Hint. }
  apply bind_Ok_inv in H as ([] & s2 & Hfloat & H).
  assert (s2 = s1) as ->.
  { split_if Hfloat; [|by injection Hfloat as <-].
    by apply pure_check_float in Hfloat. }
  apply bind_Ok_inv in H as ([] & s2 & Hbool & H).
  assert (s2 = s1) as ->.
  { split_if Hbool; [|by injection Hbool as <-].
    by apply pure_check_bool in Hbool. }
  apply bind_Ok_inv in H as (w2 & s2 & Hil & H).
  assert (attrs s2 !! name = Some w2 ∧ data_holder s2 = data_holder s1)
    as [Hw2 Hd2].
  { split_if Hil; [|by injection Hil as <- <-].
    exact (tracks_check_int_list E name _ _ _ _ Hil Hw1). }
  apply bind_Ok_inv in H as (w3 & s3 & Hfl & H).
  assert (attrs s3 !! name = Some w3 ∧ data_holder s3 = data_holder s2)
    as [Hw3 Hd3].
  { split_if Hfl; [|by injection Hfl as <- <-].
    exact (tracks_check_float_list E name _ _ _ _ Hfl Hw2). }
  apply bind_Ok_inv in H as ([] & s4 & Hlen & H).
  assert (s4 = s3) as ->.
  { split_if Hlen; [|by injection Hlen as <-].
    by apply pure_check_lengths in Hlen. }
  apply bind_Ok_inv in H as (w4 & s4 & Hsplit & H).
  destruct (tracks_split_labels name _ _ _ _ Hsplit Hw3) as [Hw4 Hd4].
  apply bind_Ok_inv in H as (w5 & s5 & Hpaths & H).
  destruct (tracks_check_paths E name Hdir _ _ _ _ Hpaths Hw4) as [Hw5 Hd5].
  apply bind_Ok_inv in H as (w6 & s6 & Hids & H).
  destruct (tracks_check_identifiers E name _ _ _ _ Hids Hw5) as [Hw6 Hd6].
  exists s6. split; [|split; [congruence|]].
  - apply bind_Ok_inv in H as ([] & ? & _ & H).
    apply bind_Ok_inv in H as ([] & ? & _ & H).
    apply bind_Ok_inv in H as ([] & ? & _ & H).
    apply bind_Ok_inv in H as ([] & ? & _ & H).
    by injection H as <- _.
  - assert (v = w6) as ->; [|done].
    apply bind_Ok_inv in H as ([] & ? & _ & H).
    apply bind_Ok_inv in H as ([] & ? & _ & H).
    apply bind_Ok_inv in H as ([] & ? & _ & H).
    apply bind_Ok_inv in H as ([] & ? & _ & H).
    by injection H as <- _.
Qed.

(** *** The data holder *)

(** When the storage has a data holder, an assignment of
    [projections], [outgroup], [population_labels] or
    [sequence_length] that returns has set the attribute of that name
    on the data holder to what the setting holds afterwards: the list
    parsed from a string, for example. *)
Theorem setattr_data_holder E name value st st' holder :
  mem name data_holder_attrs = true →
  data_holder st = Some holder →
  __setattr__ E name value st = (Ok (), st') →
  ∃ v, attrs st' !! name = Some v ∧
       data_holder st' = Some (<[name := v]> holder).
Proof.
  intros Hname Hholder H.
  assert (recognized name = true) as Hrec by (name_cases Hname; reflexivity).
  rewrite setattr_recognized in H by done.
  apply bind_Ok_inv in H as (v & st1 & H & Hw).
  rewrite run_warn_structure_other in Hw by (name_cases Hname; reflexivity).
  injection Hw as <-.
  apply base_checks in H as (s & Hv & Hd & Htail);
    [|name_cases Hname; reflexivity|simpl; by rewrite lookup_insert_eq].
  exists v. simpl in Hd. rewrite Hholder in Hd.
  assert (update_dependents E name v s
          = (Ok (), set_data_holder (Some (<[name := v]> holder)) s)) as Hup.
  { name_cases Hname; unfold update_dependents; eval_names;
      unfold update_data_holder; rewrite run_bind; cbn [get]; by rewrite Hd. }
  rewrite run_bind, run_check_dependencies_other in Htail
    by (name_cases Hname; reflexivity).
  rewrite run_bind, Hup in Htail.
  rewrite run_bind, run_load_custom_model_other in Htail
    by (name_cases Hname; reflexivity).
  rewrite run_bind, run_warn_bounds_other in Htail
    by (name_cases Hname; reflexivity).
  injection Htail as <-. done.
Qed.

(** A storage for two populations that has a data holder. *)
Definition with_data_holder : state :=
  set_data_holder
    (Some (list_to_map [ ("filename", VStr "data.fs");
                         ("projections", VNone); ("outgroup", VNone);
                         ("population_labels", VNone);
                         ("sequence_length", VNone) ]))
    (set_attrs (insert "number_of_populations" (VInt 2)) example_state).

Lemma setattr_data_holder_witness :
  mem "projections" data_holder_attrs = true ∧
  ∃ holder st',
    data_holder with_data_holder = Some holder ∧
    __setattr__ example_env "projections" (VStr "4,6") with_data_holder
      = (Ok (), st') ∧
    ∃ v, attrs st' !! "projections" = Some v ∧
         data_holder st' = Some (<["projections" := v]> holder).
Proof.
  split; [reflexivity|]. eexists _, _.
  split; [reflexivity|]. split; [vm_compute; reflexivity|].
  apply (setattr_data_holder example_env "projections" (VStr "4,6")
           with_data_holder); [reflexivity|reflexivity|vm_compute; reflexivity].
Defined.

End AssignedValues.

(** ** [SettingsStorage.from_file] *)

Module FromFile.
Import Py Settings SettingsFacts TypedSettings SettingEffects AssignedValues.
Implicit Types (E : Env) (st : state) (name : string) (value : pyval).

(** *** Keys that are no settings *)

(** [hasattr] on a name that is neither on the object nor in
    [settings] nor a method. *)
Lemma hasattr_full_unknown E name st :
  mem name class_attrs = false →
  mem name ["parameter_identifiers"; "lower_bound"; "upper_bound";
            "initial_structure"; "final_structure"] = false →
  attrs st !! name = None →
  defaults E !! name = None →
  hasattr_full E name st = (Ok false, st).
Proof.
  intros Hclass Hspecial Hattr Hdef. unfold hasattr_full. rewrite Hclass.
  cbn [mem existsb] in Hspecial.
  repeat apply orb_false_elim in Hspecial as [? Hspecial].
  unfold try_except, getattr_full.
  repeat match goal with H : String.eqb _ _ = false |- _ => rewrite H end.
  cbn [orb]. rewrite run_bind, run_read. unfold getattr, lookup_attr.
  repeat match goal with H : String.eqb _ _ = false |- _ => rewrite H end.
  by rewrite Hattr, Hdef.
Qed.

Lemma unrecognized_not_special name :
  recognized name = false →
  mem name ["parameter_identifiers"; "lower_bound"; "upper_bound";
            "initial_structure"; "final_structure"] = false.
Proof.
  intros Hrec.
  destruct (mem name _) eqn:Hname; [|done].
  name_cases Hname; discriminate.
Qed.

Lemma not_changed name :
  mem name CHANGED_IDENTIFIERS.*1 = false →
  list_find (λ kv : string * string, kv.1 = name) CHANGED_IDENTIFIERS = None.
Proof.
  intros Hname. apply list_find_None, Forall_forall.
  intros [old new] Hin Heq. simpl in Heq. subst old.
  assert (mem name CHANGED_IDENTIFIERS.*1 = true) as Hmem; [|congruence].
  apply mem_In, list_elem_of_In, list_elem_of_fmap. by exists (name, new).
Qed.

(** Lines 516-535 for a key that is no setting. *)
Lemma apply_key_unknown E key value st :
  defaults E !! attr_name_of_key key = None →
  attrs st !! attr_name_of_key key = None →
  recognized (attr_name_of_key key) = false →
  mem (attr_name_of_key key) class_attrs = false →
  mem (attr_name_of_key key) CHANGED_IDENTIFIERS.*1 = false →
  apply_key E key value st
  = if mem (attr_name_of_key key) DEPRECATED_IDENTIFIERS
    then (Raise ValueError, add_warning (WDeprecated key) st)
    else (Raise AttributeError, st).
Proof.
  intros Hdef Hattr Hrec Hclass Hchanged. unfold apply_key.
  rewrite not_changed by done. rewrite run_bind. cbn [ret].
  rewrite run_bind, hasattr_full_unknown
    by (done || by apply unrecognized_not_special).
  destruct (mem _ DEPRECATED_IDENTIFIERS); [|reflexivity].
  rewrite run_bind. unfold warn at 1. cbn [modify].
  unfold __setattr__, setattr_main. by rewrite Hrec.
Qed.

(** An environment with a parameter file of one's own. *)
Definition with_yaml (E : Env) (content : list (string * pyval)) : Env := {|
  defaults := defaults E;
  P_IDS := P_IDS E;
  ensure_dir_existence := ensure_dir_existence E;
  ensure_file_existence := ensure_file_existence E;
  check_dir_existence := check_dir_existence E;
  get_engine := get_engine E;
  get_local_optimizer := get_local_optimizer E;
  SFSDataHolder := SFSDataHolder E;
  load_model_func := load_model_func E;
  identifiers_in_file := identifiers_in_file E;
  parse_int := parse_int E;
  parse_float := parse_float E;
  load_yaml := λ _, Ok content;
|}.



(** *** The name a key stands for *)

(** [P] holds of every character of a string. *)
Fixpoint all_chars (P : ascii → bool) (s : string) : bool :=
  match s with
  | EmptyString => true
  | String a s' => P a && all_chars P s'
  end.

Lemma all_chars_rev_app P s t :
  all_chars P (String.rev_app s t) = all_chars P s && all_chars P t.
Proof.
  revert t. induction s as [|a s IH]; intros t; simpl; [done|].
  rewrite IH. simpl. destruct (P a), (all_chars P s); by simpl.
Qed.

Lemma all_chars_rev P s : all_chars P (String.rev s) = all_chars P s.
Proof.
  unfold String.rev. rewrite all_chars_rev_app. simpl. apply andb_true_r.
Qed.

Lemma all_chars_lstrip P s :
  all_chars P s = true → all_chars P (lstrip s) = true.
Proof.
  induction s as [|a s IH]; simpl; [done|].
  intros [Ha Hs]%andb_true_iff. destruct (is_white a); [by apply IH|].
  simpl. by rewrite Ha, Hs.
Qed.

Lemma all_chars_strip P s :
  all_chars P s = true → all_chars P (strip s) = true.
Proof.
  intros Hs. unfold strip.
  rewrite all_chars_rev. apply all_chars_lstrip.
  rewrite all_chars_rev. by apply all_chars_lstrip.
Qed.

Lemma squeeze_pair a b s :
  squeeze (String a (String b s))
  = if Ascii.eqb a "_" && Ascii.eqb b "_" then String "_" (squeeze s)
    else String a (squeeze (String b s)).
Proof. reflexivity. Qed.

Lemma all_chars_squeeze P s :
  all_chars P s = true → all_chars P (squeeze s) = true.
Proof.
  remember (String.length s) as n eqn:Hn. revert s Hn.
  induction (lt_wf n) as [n _ IH]. intros s ->.
  destruct s as [|a [|b s]]; [done..|].
  rewrite squeeze_pair. intros Hall.
  assert (P a = true ∧ P b = true ∧ all_chars P s = true) as (Ha & Hb & Hs).
  { cbn [all_chars] in Hall.
    apply andb_true_iff in Hall as [? [? ?]%andb_true_iff]. done. }
  destruct (_ && _) eqn:Hab.
  - apply andb_true_iff in Hab as [->%Ascii.eqb_eq _].
    cbn [all_chars]. rewrite Ha. cbn [andb].
    apply (IH (String.length s)); [simpl; lia|done..].
  - cbn [all_chars]. rewrite Ha. cbn [andb].
    apply (IH (String.length (String b s))); [simpl; lia|done|].
    simpl. by rewrite Hb, Hs.
Qed.

Lemma all_chars_replace_char (P : ascii → bool) c s :
  P "_"%char = true →
  (∀ a, Ascii.eqb a c = false → P a = true) →
  all_chars P (replace_char c s) = true.
Proof.
  intros Hu Hother. induction s as [|a s IH]; simpl; [done|].
  rewrite IH, andb_true_r.
  destruct (Ascii.eqb a c) eqn:Hac; [done|by apply Hother].
Qed.

Lemma all_chars_replace_char_keeps (P : ascii → bool) c s :
  P "_"%char = true →
  all_chars P s = true → all_chars P (replace_char c s) = true.
Proof.
  intros Hu. induction s as [|a s IH]; simpl; [done|].
  intros [Ha Hs]%andb_true_iff. rewrite IH, andb_true_r by done.
  by destruct (Ascii.eqb a c).
Qed.

Lemma all_chars_and P Q s :
  all_chars (λ a, P a && Q a) s = all_chars P s && all_chars Q s.
Proof.
  induction s as [|a s IH]; simpl; [done|]. rewrite IH.
  destruct (P a), (Q a), (all_chars P s), (all_chars Q s); done.
Qed.

Lemma lower_ascii_idemp a : lower_ascii (lower_ascii a) = lower_ascii a.
Proof. destruct a as [[] [] [] [] [] [] [] []]; reflexivity. Qed.

Lemma all_chars_lower s :
  all_chars (λ a, Ascii.eqb (lower_ascii a) a) (lower s) = true.
Proof.
  induction s as [|a s IH]; simpl; [done|].
  by rewrite IH, lower_ascii_idemp, Ascii.eqb_refl.
Qed.

(** A character an attribute name read from a key can have: no
    space, no apostrophe, no capital letter. *)
Definition name_char (a : ascii) : bool :=
  negb (Ascii.eqb a " ") && negb (Ascii.eqb a "'")
  && Ascii.eqb (lower_ascii a) a.

(** The attribute name lines 516-519 make of a key of the parameter
    file has no space, no apostrophe and no capital letter in it,
    whatever the key. *)
Theorem attr_name_of_key_chars key :
  all_chars name_char (attr_name_of_key key) = true.
Proof.
  unfold attr_name_of_key. apply all_chars_squeeze.
  unfold name_char. rewrite !all_chars_and.
  apply andb_true_iff; split; [apply andb_true_iff; split|].
  - apply all_chars_replace_char_keeps; [done|].
    apply all_chars_replace_char; [done|].
    intros a ->. done.
  - apply all_chars_replace_char; [done|]. intros a ->. done.
  - do 2 (apply all_chars_replace_char_keeps; [done|]).
    apply all_chars_strip, all_chars_lower.
Qed.

End FromFile.

(** ** [SettingsStorage.read_data] and the bootstrap data *)

Module StorageFacts.
Import Py Settings SettingsFacts TypedSettings SettingEffects AssignedValues.
Import Storage.
Implicit Types (E : Env) (L : Lib) (st : state) (name key : string).

(** *** What an assignment leaves of the other settings *)

Lemma setattr_frame E name value st r st' key :
  key ≠ name →
  (∀ v, written_full name key v = false) →
  __setattr__ E name value st = (r, st') →
  attrs st' !! key = attrs st !! key.
Proof.
  intros Hne Hw H. destruct (recognized name) eqn:Hrec.
  - rewrite setattr_recognized in H by done.
    pose proof (after_store_writes E name value
                  (set_attrs (insert name value) st) key) as Hf.
    rewrite H in Hf. simpl in Hf. rewrite lookup_insert_ne in Hf by done.
    destruct Hf as [?|(v & _ & Hv)]; [done|]. by rewrite Hw in Hv.
  - unfold __setattr__, setattr_main in H. rewrite Hrec in H.
    by injection H as _ <-.
Qed.

Lemma setattr_stored E name value st r st' :
  recognized name = true →
  __setattr__ E name value st = (r, st') →
  ∃ v, attrs st' !! name = Some v ∧ (v = value ∨ converted name v = true).
Proof.
  intros Hrec H. rewrite setattr_recognized in H by done.
  pose proof (after_store_writes E name value
                (set_attrs (insert name value) st) name) as Hf.
  rewrite H in Hf. simpl in Hf. rewrite lookup_insert_eq in Hf.
  destruct Hf as [?|(v & ? & Hv)].
  - exists value. by split; [|left].
  - exists v. split; [done|]. right. by apply written_full_self.
Qed.

(** The setting [key] across an assignment [H] of another one. *)
Ltac frame key H :=
  match type of H with
  | __setattr__ ?E ?n ?v ?s = (?r, ?s') =>
      let F := fresh "F" in
      assert (attrs s' !! key = attrs s !! key) as F
        by (apply (setattr_frame E n v s r s' key);
            [done|intros; reflexivity|exact H])
  end.

(** A run with its outcome and the state it reaches. *)
Lemma run_is {A} (m : M A) st r :
  (m st).1 = r → m st = (r, (m st).2).
Proof. destruct (m st). simpl. by intros ->. Qed.

Lemma pure_self_data_holder E : pure (self_data_holder E).
Proof. unfold self_data_holder. purity. Qed.

Lemma lookup_attr_same E st st' name :
  attrs st' !! name = attrs st !! name →
  lookup_attr E st' name = lookup_attr E st name.
Proof. unfold lookup_attr. by intros ->. Qed.

Lemma run_setattr_missed E name value st :
  mem name ["_inner_data"; "_bootstrap_data"] = true →
  __setattr__ E name value st = (Ok (), set_attrs (insert name value) st).
Proof. intros Hname. name_cases Hname; start; run; done. Qed.

Lemma py_eq_nat (n m : nat) :
  py_eq (VInt (Z.of_nat n)) (VInt (Z.of_nat m)) = true → n = m.
Proof.
  simpl. intros Heq%Qeq_bool_iff. apply Nat2Z.inj.
  unfold Qeq in Heq. simpl in Heq. lia.
Qed.

(** *** [read_data] *)

(** The first multiple of ten that lines 445-446 compute from
    [max_n]. *)
Definition first_pts E (max_n : pyval) : result Z :=
  y ← py_sub max_n (VInt 1);
  y ← py_div_by 10 y;
  y ← py_int (parse_int E) y;
  Ok ((y + 1) * 10)%Z.

Lemma default_pts_Ok E st st' :
  default_pts E st = (Ok (), st') →
  ∃ projections max_n x,
    lookup_attr E st "projections" = Ok projections ∧
    py_max projections = Ok max_n ∧
    first_pts E max_n = Ok x ∧
    st' = set_attrs
            (insert "pts" (VList [VInt x; VInt (x + 10); VInt (x + 20)])) st.
Proof.
  intros H. unfold default_pts in H. invert_run H.
  rewrite run_super_setattr in H. injection H as <-.
  eexists _, _, _. split; [exact Hstep|]. split; [exact Hstep0|].
  split; [|reflexivity].
  unfold first_pts. rewrite Hstep1. simpl. rewrite Hstep2. simpl.
  by rewrite Hstep3.
Qed.

Lemma read_data_Ok E L st data st' :
  read_data E L st = (Ok data, st') →
  ∃ projections n pts,
    attrs st' !! "projections" = Some projections ∧
    py_len projections = Ok n ∧
    attrs st' !! "number_of_populations" = Some (VInt (Z.of_nat n)) ∧
    attrs st' !! "_inner_data" = Some (data_value data) ∧
    (∀ attr, attr ∈ attrs_with_equal_len →
       ∃ v, getattr E st' attr = Ok v ∧ (v = VNone ∨ py_len v = Ok n)) ∧
    lookup_attr E st "pts" = Ok pts ∧
    if is_none pts then
      ∃ max_n x,
        py_max projections = Ok max_n ∧ first_pts E max_n = Ok x ∧
        attrs st' !! "pts"
        = Some (VList [VInt x; VInt (x + 10); VInt (x + 20)])
    else attrs st' !! "pts" = attrs st !! "pts".
Proof.
  intros H. unfold read_data in H. invert_run H.
  apply bind_Ok_inv in H as (h & s & Hh & H).
  apply pure_self_data_holder in Hh as Hs. subst s.
  invert_run H.
  apply bind_Ok_inv in H as ([] & s1 & Hproj & H).
  apply bind_Ok_inv in H as ([] & s2 & Hlab & H).
  apply bind_Ok_inv in H as ([] & s3 & Hout & H).
  apply bind_Ok_inv in H as (pts & s & Hpts & H).
  rewrite run_read in Hpts. injection Hpts as Hpts <-.
  apply bind_Ok_inv in H as ([] & s4 & Hdef & H).
  apply bind_Ok_inv in H as ([] & s5 & Hinner & H).
  apply bind_Ok_inv in H as (projections & s & Hread & H).
  rewrite run_read in Hread. injection Hread as Hread <-.
  apply bind_Ok_inv in H as (n & s & Hn & H).
  rewrite run_lift in Hn. injection Hn as Hn <-.
  apply bind_Ok_inv in H as ([] & s6 & Hnum & H).
  rewrite run_ret in H. injection H as <- <-.
  assert (attrs s4 !! "projections" = attrs s3 !! "projections" ∧
          if is_none pts then
            ∃ max_n x,
              (∀ v, lookup_attr E s3 "projections" = Ok v →
                    py_max v = Ok max_n) ∧
              first_pts E max_n = Ok x ∧
              attrs s4 !! "pts"
              = Some (VList [VInt x; VInt (x + 10); VInt (x + 20)])
          else attrs s4 !! "pts" = attrs s3 !! "pts") as [Hp4 Hpts4].
  { destruct (is_none pts); [|by injection Hdef as <-].
    apply default_pts_Ok in Hdef as (v & max_n & x & Hv & Hmax & Hx & ->).
    split; [simpl; by rewrite lookup_insert_ne|].
    exists max_n, x. split; [|split; [done|]].
    - intros v' Hv'. congruence.
    - simpl. by rewrite lookup_insert_eq. }
  destruct (setattr_stored E "projections" _ _ _ _ eq_refl Hproj)
    as (v & Hv & _).
  frame "projections" Hlab. frame "projections" Hout.
  frame "projections" Hinner. frame "projections" Hnum.
  frame "pts" Hproj. frame "pts" Hlab. frame "pts" Hout.
  frame "pts" Hinner. frame "pts" Hnum. frame "_inner_data" Hnum.
  assert (attrs s3 !! "projections" = Some v) as Hv3 by congruence.
  assert (attrs s5 !! "projections" = Some v) as Hv5 by congruence.
  assert (projections = v) as ->.
  { unfold getattr, lookup_attr in Hread. simpl in Hread.
    rewrite Hv5 in Hread. by injection Hread. }
  exists v, n, pts. split; [congruence|]. split; [done|]. split.
  { destruct (setattr_stored E "number_of_populations" _ _ _ _ eq_refl Hnum)
      as (w & Hw & [->|Hc]); [done|discriminate]. }
  split.
  { destruct (setattr_stored E "_inner_data" _ _ _ _ eq_refl Hinner)
      as (w & Hw & [->|Hc]); [congruence|discriminate]. }
  split.
  { apply number_of_populations_checked,
      check_number_of_populations_Ok in Hnum as [-> Hall].
    intros attr Hattr. destruct (Hall attr Hattr) as (w & Hw & Hlen).
    exists w. split; [done|].
    destruct Hlen as [?|(n' & number & Hn' & Hnumber & Heq)]; [by left|right].
    rewrite getattr_insert_eq in Hnumber. injection Hnumber as <-.
    by apply py_eq_nat in Heq as ->. }
  split.
  { rewrite <- (lookup_attr_same E st s3 "pts") by congruence. exact Hpts. }
  destruct (is_none pts).
  - destruct Hpts4 as (max_n & x & Hmax & Hx & Hstored).
    exists max_n, x. split; [|split; [done|congruence]].
    apply Hmax. unfold lookup_attr. by rewrite Hv3.
  - congruence.
Qed.

(** When [read_data] returns, [_inner_data] holds the data set it
    returns, [number_of_populations] is the number of projections the
    storage then holds, and every one of [initial_structure],
    [final_structure], [population_labels] and [projections] reads as
    [None] or as a sequence of that length. *)
Theorem read_data_populations E L st data st' :
  read_data E L st = (Ok data, st') →
  attrs st' !! "_inner_data" = Some (data_value data) ∧
  ∃ projections n,
    attrs st' !! "projections" = Some projections ∧
    py_len projections = Ok n ∧
    attrs st' !! "number_of_populations" = Some (VInt (Z.of_nat n)) ∧
    ∀ attr, attr ∈ attrs_with_equal_len →
      ∃ v, getattr E st' attr = Ok v ∧ (v = VNone ∨ py_len v = Ok n).
Proof.
  intros H.
  apply read_data_Ok in H as (v & n & pts & H1 & H2 & H3 & H4 & H5 & _).
  split; [done|]. by exists v, n.
Qed.

Lemma read_data_populations_witness :
  ∃ data st',
    read_data example_env example_lib with_data_holder = (Ok data, st') ∧
    attrs st' !! "_inner_data" = Some (data_value data) ∧
    ∃ projections n,
      attrs st' !! "projections" = Some projections ∧
      py_len projections = Ok n ∧
      attrs st' !! "number_of_populations" = Some (VInt (Z.of_nat n)) ∧
      ∀ attr, attr ∈ attrs_with_equal_len →
        ∃ v, getattr example_env st' attr = Ok v ∧
             (v = VNone ∨ py_len v = Ok n).
Proof.
  eexists _, _. split; [apply run_is; vm_compute; reflexivity|].
  apply (read_data_populations example_env example_lib with_data_holder).
  apply run_is. vm_compute. reflexivity.
Defined.

(** The grid for an integer [m >= 1]: the least multiple of ten that is
    not below [m]. *)
Lemma first_pts_int E (m : Z) :
  (1 ≤ m)%Z →
  ∃ x, first_pts E (VInt m) = Ok x ∧
       (x mod 10 = 0)%Z ∧ (m ≤ x < m + 10)%Z.
Proof.
  intros Hm. unfold first_pts. cbn.
  eexists. split; [reflexivity|].
  rewrite Z.mul_1_r, Z.quot_div_nonneg by lia.
  pose proof (Z.div_mod (m - 1) 10 ltac:(lia)) as Hdiv.
  pose proof (Z.mod_pos_bound (m - 1) 10 ltac:(lia)) as Hmod.
  change (Z.pos (1 * 10)) with 10%Z.
  split; [|lia].
  apply Z.mod_mul. lia.
Qed.

(** When [read_data] returns, grid points that were set are left as
    they are.  When [pts] was [None], it is now [[x, x + 10, x + 20]]
    for the [x] that lines 445-446 compute from the greatest
    projection: the least multiple of ten that is not below it, for an
    integer from [1] on.  The list is stored without the checks of
    [__setattr__]. *)
Theorem read_data_pts E L st data st' :
  read_data E L st = (Ok data, st') →
  ∃ pts, lookup_attr E st "pts" = Ok pts ∧
    if is_none pts then
      ∃ projections max_n x,
        attrs st' !! "projections" = Some projections ∧
        py_max projections = Ok max_n ∧
        attrs st' !! "pts"
        = Some (VList [VInt x; VInt (x + 10); VInt (x + 20)]) ∧
        ∀ m, max_n = VInt m → (1 ≤ m)%Z →
             (x mod 10 = 0)%Z ∧ (m ≤ x < m + 10)%Z
    else attrs st' !! "pts" = attrs st !! "pts".
Proof.
  intros H.
  apply read_data_Ok in H as (v & n & pts & H1 & _ & _ & _ & _ & Hpts & H).
  exists pts. split; [done|].
  destruct (is_none pts); [|done].
  destruct H as (max_n & x & Hmax & Hx & Hstored).
  exists v, max_n, x. split; [done|]. split; [done|]. split; [done|].
  intros m -> Hm. destruct (first_pts_int E m Hm) as (x' & Hx' & Hmod & Hle).
  rewrite Hx in Hx'. by injection Hx' as <-.
Qed.

Lemma read_data_pts_witness :
  ∃ data st',
    read_data example_env example_lib with_data_holder = (Ok data, st') ∧
    ∃ pts, lookup_attr example_env with_data_holder "pts" = Ok pts ∧
      if is_none pts then
        ∃ projections max_n x,
          attrs st' !! "projections" = Some projections ∧
          py_max projections = Ok max_n ∧
          attrs st' !! "pts"
          = Some (VList [VInt x; VInt (x + 10); VInt (x + 20)]) ∧
          ∀ m, max_n = VInt m → (1 ≤ m)%Z →
               (x mod 10 = 0)%Z ∧ (m ≤ x < m + 10)%Z
      else attrs st' !! "pts" = attrs with_data_holder !! "pts".
Proof.
  eexists _, _. split; [apply run_is; vm_compute; reflexivity|].
  eapply (read_data_pts example_env example_lib with_data_holder).
  apply run_is. vm_compute. reflexivity.
Defined.

(** *** The property [inner_data] *)

Lemma inner_data_stored E L st v :
  attrs st !! "_inner_data" = Some v →
  inner_data E L st = (Ok v, st).
Proof.
  intros Hv.
  assert (getattr E st "_inner_data" = Ok v) as Hget.
  { unfold getattr, lookup_attr. simpl. by rewrite Hv. }
  assert (hasattr_full E "_inner_data" st = (Ok true, st)) as Hhas.
  { unfold hasattr_full, try_except, getattr_full.
    change (mem "_inner_data" class_attrs) with false. simpl.
    by rewrite run_bind, run_read, Hget. }
  unfold inner_data. rewrite run_bind, Hhas. simpl.
  by rewrite run_bind, run_ret, run_read, Hget.
Qed.

(** The first use of the property [inner_data] on a storage without
    [_inner_data] is a [read_data]: it gives the data set read and
    leaves the storage as [read_data] leaves it, the assignment of
    line 488 storing what line 449 has stored.  Every later use gives
    the same data set and reads nothing. *)
Theorem inner_data_first_use E L st v st' :
  attrs st !! "_inner_data" = None →
  defaults E !! "_inner_data" = None →
  inner_data E L st = (Ok v, st') →
  (∃ data, read_data E L st = (Ok data, st') ∧ v = data_value data) ∧
  inner_data E L st' = (Ok v, st').
Proof.
  intros Hattr Hdef H. unfold inner_data in H.
  rewrite run_bind, FromFile.hasattr_full_unknown in H by done. simpl in H.
  apply bind_Ok_inv in H as ([] & s2 & Hfirst & H).
  apply bind_Ok_inv in Hfirst as (data & s1 & Hdata & Hset).
  rewrite run_setattr_missed in Hset by reflexivity. injection Hset as <-.
  rewrite run_read, getattr_insert_eq in H. injection H as <- <-.
  pose proof Hdata as Hread.
  apply read_data_Ok in Hdata as (_ & _ & _ & _ & _ & _ & Hstored & _).
  assert (set_attrs (insert "_inner_data" (data_value data)) s1 = s1) as ->.
  { destruct s1 as [a h d w]. unfold set_attrs. simpl in *.
    by rewrite insert_id. }
  split; [by exists data|]. by apply inner_data_stored.
Qed.

Lemma inner_data_first_use_witness :
  attrs with_data_holder !! "_inner_data" = None ∧
  defaults example_env !! "_inner_data" = None ∧
  ∃ v st',
    inner_data example_env example_lib with_data_holder = (Ok v, st') ∧
    (∃ data, read_data example_env example_lib with_data_holder
             = (Ok data, st') ∧ v = data_value data) ∧
    inner_data example_env example_lib st' = (Ok v, st').
Proof.
  split; [reflexivity|]. split; [reflexivity|].
  eexists _, _. split; [apply run_is; vm_compute; reflexivity|].
  apply (inner_data_first_use example_env example_lib with_data_holder);
    [reflexivity|reflexivity|apply run_is; vm_compute; reflexivity].
Defined.

(** *** [read_bootstrap_data] *)

(** The engine reads [data] from a file of the directory, and the
    engine refuses a file with a [ValueError]. *)
Definition reads E L st (engine dirname : pyval) (file : string)
    (data : Data) : Prop :=
  ∃ h, holder_for E L st dirname file = Ok h ∧
       engine_read_data L engine h = Ok data.
Definition refuses E L st (engine dirname : pyval) (file : string) : Prop :=
  ∃ h, holder_for E L st dirname file = Ok h ∧
       engine_read_data L engine h = Raise ValueError.

Section bootstrap_loop.
Context (E : Env) (L : Lib) (st : state) (engine dirname : pyval).
Context (flag : bool).

(** The three lists of the loop when the files read so far are
    [files]. *)
Definition kept (files : list string)
    (acc : list Data * gset string * list string) : Prop :=
  acc.1.2 = list_to_set (without_ext <$> files) ∧
  NoDup (without_ext <$> files) ∧
  acc.2 = (if flag then files else []) ∧
  Forall2 (λ data file, reads E L st engine dirname file data) acc.1.1 files.

Lemma read_one_kept file files acc acc' :
  kept files acc →
  read_one E L st engine dirname flag file acc = Ok acc' →
  (kept files acc' ∧
   (without_ext file ∈ without_ext <$> files
    ∨ refuses E L st engine dirname file))
  ∨ kept (files ++ [file]) acc'.
Proof.
  destruct acc as [[all_boot seen] filenames].
  intros (Hseen & Hnd & Hnames & Hall) Hrun. simpl in *.
  destruct (decide (without_ext file ∈ seen)) as [Hin|Hnin].
  - injection Hrun as <-. left. split; [done|]. left.
    subst seen. by apply elem_of_list_to_set in Hin.
  - destruct (holder_for E L st dirname file) as [h|e] eqn:Hh; [|done].
    simpl in Hrun.
    destruct (engine_read_data L engine h) as [data|e] eqn:Hread.
    + injection Hrun as <-. right. split_and!; simpl.
      * rewrite fmap_app, list_to_set_app_L. simpl. set_solver.
      * rewrite fmap_app. apply NoDup_app. split; [done|].
        split; [|apply NoDup_singleton].
        intros x Hx ->%list_elem_of_singleton. apply Hnin.
        subst seen. by apply elem_of_list_to_set.
      * destruct flag; by subst.
      * apply Forall2_app; [done|]. constructor; [|constructor]. by exists h.
    + destruct e; try done. injection Hrun as <-.
      left. split; [done|]. right. by exists h.
Qed.

Lemma read_all_kept listing : ∀ files acc acc',
  kept files acc →
  for_each listing (read_one E L st engine dirname flag) acc = Ok acc' →
  ∃ more, kept (files ++ more) acc' ∧ sublist more listing ∧
    ∀ file, file ∈ listing →
      without_ext file ∈ without_ext <$> (files ++ more)
      ∨ refuses E L st engine dirname file.
Proof.
  induction listing as [|x xs IH]; intros files acc acc' Hkept Hrun.
  - injection Hrun as <-. exists []. rewrite app_nil_r.
    split; [done|]. split; [done|]. by intros file ?%elem_of_nil.
  - simpl in Hrun.
    destruct (read_one E L st engine dirname flag x acc) as [acc1|e] eqn:Hx;
      [|done].
    simpl in Hrun.
    apply (read_one_kept x files) in Hx as [[Hk Hskip]|Hk]; [| |done].
    + destruct (IH files acc1 acc' Hk Hrun) as (more & Hk' & Hsub & Hcov).
      exists more. split; [done|]. split; [by apply sublist_cons|].
      intros file [->|Hin]%elem_of_cons; [|by apply Hcov].
      destruct Hskip as [Hin|?]; [left|by right].
      rewrite fmap_app. apply elem_of_app. by left.
    + destruct (IH (files ++ [x]) acc1 acc' Hk Hrun)
        as (more & Hk' & Hsub & Hcov).
      exists (x :: more). rewrite <- app_assoc in Hk', Hcov. simpl in *.
      split; [done|]. split; [by apply sublist_skip|].
      intros file [->|Hin]%elem_of_cons; [|by apply Hcov].
      left. rewrite fmap_app, fmap_cons. set_solver.
Qed.

End bootstrap_loop.

Lemma holder_for_same E L st st' dirname file :
  data_holder st' = data_holder st →
  holder_for E L st' dirname file = holder_for E L st dirname file.
Proof. unfold holder_for, holder_of. by intros ->. Qed.

(** A call that returns, up to the loop over the directory. *)
Lemma read_bootstrap_data_loop E L flag st b st' :
  read_bootstrap_data E L flag st = (Ok b, st') →
  (b = NoBootstrap ∧ st' = st) ∨
  ∃ s all_boot seen filenames dirname engine listing,
    getattr E s "directory_with_bootstrap" = Ok dirname ∧
    getattr E s "engine" = Ok engine ∧
    listdir L dirname = Ok listing ∧
    for_each listing (read_one E L s engine dirname flag) ([], ∅, [])
    = Ok (all_boot, seen, filenames) ∧
    st' = set_attrs
            (insert "_bootstrap_data" (VList (data_value <$> all_boot))) s ∧
    b = (if flag then DatasetsOfFiles all_boot filenames
         else Datasets all_boot).
Proof.
  intros H. unfold read_bootstrap_data in H.
  apply bind_Ok_inv in H as (directory & s & Hdir & H).
  rewrite run_read in Hdir. injection Hdir as Hdir <-.
  destruct (is_none directory) eqn:Hnone.
  { rewrite run_ret in H. injection H as <- <-. by left. }
  right.
  apply bind_Ok_inv in H as (known & s1 & Hknown & H).
  apply bind_Ok_inv in H as ([] & s2 & Hread & H).
  invert_run H.
  apply bind_Ok_inv in H as (s & s' & Hget & H). injection Hget as <- <-.
  apply bind_Ok_inv in H as ([[all_boot seen] filenames] & s3 & Hloop & H).
  rewrite run_lift in Hloop. injection Hloop as Hloop <-.
  apply bind_Ok_inv in H as ([] & s4 & Hset & H).
  rewrite run_setattr_missed in Hset by reflexivity. injection Hset as <-.
  rewrite run_ret in H. injection H as <- <-.
  by exists s2, all_boot, seen, filenames, a, a0, a2.
Qed.

Lemma kept_nothing E L st engine dirname flag :
  kept E L st engine dirname flag [] ([], ∅, []).
Proof.
  split_and!; simpl; [done|constructor|by destruct flag|constructor].
Qed.

(** [read_bootstrap_data] returns nothing, and does nothing, when no
    directory is set.  Otherwise the data sets it returns, and stores
    as a list in [_bootstrap_data], are those the engine reads from
    files of the directory, taken in the order of the listing: files
    with pairwise different names up to the last extension, one for
    every such name in the directory but for the files that the
    engine refuses with a [ValueError].  The names of these files come
    with the data sets when [return_filenames] is true. *)
Theorem read_bootstrap_data_files E L flag st b st' :
  read_bootstrap_data E L flag st = (Ok b, st') →
  (b = NoBootstrap ∧ st' = st) ∨
  ∃ all_boot files dirname engine listing,
    b = (if flag then DatasetsOfFiles all_boot files else Datasets all_boot) ∧
    attrs st' !! "_bootstrap_data" = Some (VList (data_value <$> all_boot)) ∧
    getattr E st' "directory_with_bootstrap" = Ok dirname ∧
    getattr E st' "engine" = Ok engine ∧
    listdir L dirname = Ok listing ∧
    sublist files listing ∧
    NoDup (without_ext <$> files) ∧
    Forall2 (λ data file, reads E L st' engine dirname file data)
      all_boot files ∧
    ∀ file, file ∈ listing →
      without_ext file ∈ without_ext <$> files
      ∨ refuses E L st' engine dirname file.
Proof.
  intros [?|(s & all_boot & seen & filenames & dirname & engine & listing
             & Hdir & Hengine & Hlist & Hloop & -> & ->)
         ]%read_bootstrap_data_loop; [by left|right].
  apply (read_all_kept E L s engine dirname flag listing []) in Hloop
    as (files & (Hseen & Hnd & Hnames & Hall) & Hsub & Hcov);
    [|apply kept_nothing].
  simpl in *. exists all_boot, files, dirname, engine, listing.
  split; [destruct flag; by subst|].
  split; [by rewrite lookup_insert_eq|].
  rewrite !getattr_insert_other by done.
  split; [done|]. split; [done|]. split; [done|]. split; [done|].
  split; [done|]. split; [exact Hall|exact Hcov].
Qed.

Lemma read_bootstrap_data_files_witness :
  ∃ b st',
    read_bootstrap_data example_env example_lib true with_bootstrap
    = (Ok b, st') ∧
    ((b = NoBootstrap ∧ st' = with_bootstrap) ∨
     ∃ all_boot files dirname engine listing,
       b = DatasetsOfFiles all_boot files ∧
       attrs st' !! "_bootstrap_data"
       = Some (VList (data_value <$> all_boot)) ∧
       getattr example_env st' "directory_with_bootstrap" = Ok dirname ∧
       getattr example_env st' "engine" = Ok engine ∧
       listdir example_lib dirname = Ok listing ∧
       sublist files listing ∧
       NoDup (without_ext <$> files) ∧
       Forall2 (λ data file,
                  reads example_env example_lib st' engine dirname file data)
         all_boot files ∧
       ∀ file, file ∈ listing →
         without_ext file ∈ without_ext <$> files
         ∨ refuses example_env example_lib st' engine dirname file).
Proof.
  eexists _, _. split; [apply run_is; vm_compute; reflexivity|].
  apply (read_bootstrap_data_files example_env example_lib true
           with_bootstrap).
  apply run_is. vm_compute. reflexivity.
Defined.

(** *** The property [bootstrap_data] *)

Lemma bootstrap_data_stored E L st v :
  attrs st !! "_bootstrap_data" = Some v →
  bootstrap_data E L st = (Ok v, st).
Proof.
  intros Hv.
  assert (getattr E st "_bootstrap_data" = Ok v) as Hget.
  { unfold getattr, lookup_attr. simpl. by rewrite Hv. }
  assert (hasattr_full E "_bootstrap_data" st = (Ok true, st)) as Hhas.
  { unfold hasattr_full, try_except, getattr_full.
    change (mem "_bootstrap_data" class_attrs) with false. simpl.
    by rewrite run_bind, run_read, Hget. }
  unfold bootstrap_data. rewrite run_bind, Hhas. simpl.
  by rewrite run_bind, run_ret, run_read, Hget.
Qed.

(** The first use of the property [bootstrap_data] on a storage that
    has no [_bootstrap_data] gives [None] when no directory is set and
    otherwise the pair of the data sets and the names of their files,
    as many names as data sets: line 494 hands the storage itself to
    [read_bootstrap_data] as [return_filenames].  The value is kept in
    [_bootstrap_data], over the plain list that [read_bootstrap_data]
    had stored there, and every later use gives it again without
    reading anything, [None] included. *)
Theorem bootstrap_data_first_use E L st v st' :
  attrs st !! "_bootstrap_data" = None →
  defaults E !! "_bootstrap_data" = None →
  bootstrap_data E L st = (Ok v, st') →
  attrs st' !! "_bootstrap_data" = Some v ∧
  bootstrap_data E L st' = (Ok v, st') ∧
  (v = VNone ∨
   ∃ all_boot files,
     v = VList [VList (data_value <$> all_boot); VList (VStr <$> files)] ∧
     length all_boot = length files).
Proof.
  intros Hattr Hdef H. unfold bootstrap_data in H.
  rewrite run_bind, FromFile.hasattr_full_unknown in H by done. simpl in H.
  apply bind_Ok_inv in H as ([] & s2 & Hfirst & H).
  apply bind_Ok_inv in Hfirst as (b & s1 & Hb & Hset).
  rewrite run_setattr_missed in Hset by reflexivity. injection Hset as <-.
  rewrite run_read, getattr_insert_eq in H. injection H as <- <-.
  assert (attrs (set_attrs (insert "_bootstrap_data" (bootstrap_value b)) s1)
            !! "_bootstrap_data" = Some (bootstrap_value b)) as Hstored.
  { simpl. by rewrite lookup_insert_eq. }
  split; [done|]. split; [by apply bootstrap_data_stored|].
  apply read_bootstrap_data_loop in Hb
    as [[-> _]|(s & all_boot & seen & filenames & dirname & engine & listing
                & _ & _ & _ & Hloop & _ & ->)]; [by left|right].
  apply (read_all_kept E L s engine dirname true listing []) in Hloop
    as (files & (_ & _ & Hnames & Hall) & _); [|apply kept_nothing].
  simpl in *. subst filenames.
  exists all_boot, files. split; [done|]. by apply Forall2_length in Hall.
Qed.

Lemma bootstrap_data_first_use_witness :
  attrs with_bootstrap !! "_bootstrap_data" = None ∧
  defaults example_env !! "_bootstrap_data" = None ∧
  ∃ v st',
    bootstrap_data example_env example_lib with_bootstrap = (Ok v, st') ∧
    attrs st' !! "_bootstrap_data" = Some v ∧
    bootstrap_data example_env example_lib st' = (Ok v, st') ∧
    (v = VNone ∨
     ∃ all_boot files,
       v = VList [VList (data_value <$> all_boot); VList (VStr <$> files)] ∧
       length all_boot = length files).
Proof.
  split; [reflexivity|]. split; [reflexivity|].
  eexists _, _. split; [apply run_is; vm_compute; reflexivity|].
  apply (bootstrap_data_first_use example_env example_lib with_bootstrap);
    [reflexivity|reflexivity|apply run_is; vm_compute; reflexivity].
Defined.

End StorageFacts.

(** ** [SettingsStorage.get_model] *)

Module ModelFacts.
Import Py Settings SettingsFacts TypedSettings SettingEffects AssignedValues.
Import Storage StorageFacts.
Implicit Types (E : Env) (L : Lib) (st : state) (name key : string).

(** One statement of a run, its outcome being known. *)
Ltac next H := rewrite run_bind, ?run_read, ?run_lift, H; cbv beta iota.

Lemma run_get_bound_stored E name v st :
  mem name ["lower_bound"; "upper_bound"] = true →
  attrs st !! name = Some v →
  getattr_full E name st = (Ok v, st).
Proof.
  intros Hname Hv. unfold getattr_full, get_bound.
  name_cases Hname; simpl; rewrite run_bind; cbn [get]; by rewrite Hv.
Qed.

Lemma py_iter_not_none v l : py_iter v = Ok l → is_none v = false.
Proof. by destruct v. Qed.

(** A custom model whose file names no parameter identifiers cannot be
    built once it has a bound: line 683 reads [ContinuousVariable],
    a name the module does not bind.  The storage is left as it is. *)
Theorem get_model_no_identifiers E L st path lower upper x l :
  is_Ok (getattr E st "time_for_generation") →
  is_Ok (getattr E st "theta0") →
  is_Ok (getattr E st "mutation_rate") →
  is_Ok (getattr E st "initial_structure") →
  getattr E st "final_structure" = Ok VNone →
  getattr E st "custom_filename" = Ok path →
  is_none path = false →
  getattr_full E "parameter_identifiers" st = (Ok VNone, st) →
  attrs st !! "lower_bound" = Some lower →
  py_iter lower = Ok (x :: l) →
  attrs st !! "upper_bound" = Some upper →
  is_none upper = false →
  get_model E L st = (Raise NameError, st).
Proof.
  intros [gen Hgen] [theta Htheta] [mut Hmut] [initial Hinitial] Hfinal
    Hpath Hsome Hids Hlower Hiter Hupper Hupp.
  pose proof (run_get_bound_stored E "lower_bound" _ st eq_refl Hlower) as Hlow.
  pose proof (run_get_bound_stored E "upper_bound" _ st eq_refl Hupper) as Hup.
  unfold get_model.
  next Hgen. next Htheta. next Hmut. next Hinitial.
  assert ((if negb (is_none initial)
           then final ← read E "final_structure"; ret (negb (is_none final))
           else ret false) st = (Ok false, st)) as Hstructured.
  { destruct (is_none initial); [done|]. simpl. by next Hfinal. }
  next Hstructured. next Hpath. rewrite Hsome. cbn [negb]. cbv iota.
  rewrite run_bind, run_ret. cbv beta iota.
  rewrite run_bind, run_bind, Hlow. cbv beta iota.
  rewrite (py_iter_not_none _ _ Hiter). cbn [negb]. cbv iota.
  rewrite run_bind, Hup. cbv beta iota. rewrite run_ret, Hupp. cbn [negb].
  cbv beta iota.
  unfold var_classes_of_settings.
  rewrite run_bind, run_bind, Hids. cbv beta iota. cbn [negb is_none].
  cbv iota.
  rewrite run_bind, Hlow. cbv beta iota.
  rewrite run_bind, run_lift, Hiter. cbv beta iota.
  rewrite run_lift. reflexivity.
Qed.

Lemma get_model_no_identifiers_witness :
  let st := custom_storage VNone in
  is_Ok (getattr example_env st "time_for_generation") ∧
  is_Ok (getattr example_env st "theta0") ∧
  is_Ok (getattr example_env st "mutation_rate") ∧
  is_Ok (getattr example_env st "initial_structure") ∧
  getattr example_env st "final_structure" = Ok VNone ∧
  getattr example_env st "custom_filename" = Ok (VStr "model.py") ∧
  is_none (VStr "model.py") = false ∧
  getattr_full example_env "parameter_identifiers" st = (Ok VNone, st) ∧
  attrs st !! "lower_bound" = Some (VList [VFloat (1 # 100); VInt 0]) ∧
  py_iter (VList [VFloat (1 # 100); VInt 0])
  = Ok [VFloat (1 # 100); VInt 0] ∧
  attrs st !! "upper_bound" = Some (VList [VInt 100; VInt 5]) ∧
  is_none (VList [VInt 100; VInt 5]) = false ∧
  get_model example_env example_lib st = (Raise NameError, st).
Proof.
  intros st.
  assert (is_Ok (getattr example_env st "time_for_generation")) as H1
    by (eexists; vm_compute; reflexivity).
  assert (is_Ok (getattr example_env st "theta0")) as H2
    by (eexists; vm_compute; reflexivity).
  assert (is_Ok (getattr example_env st "mutation_rate")) as H3
    by (eexists; vm_compute; reflexivity).
  assert (is_Ok (getattr example_env st "initial_structure")) as H4
    by (eexists; vm_compute; reflexivity).
  assert (getattr_full example_env "parameter_identifiers" st
          = (Ok VNone, st)) as H5 by (vm_compute; reflexivity).
  repeat (split; [first [assumption | vm_compute; reflexivity]|]).
  apply (get_model_no_identifiers example_env example_lib st (VStr "model.py")
           (VList [VFloat (1 # 100); VInt 0]) (VList [VInt 100; VInt 5])
           (VFloat (1 # 100)) [VInt 0]);
    first [assumption | vm_compute; reflexivity].
Defined.

Lemma pure_get_linear_constrain E L m :
  pure (get_linear_constrain_for_model E L m).
Proof. unfold get_linear_constrain_for_model, split_bound. purity. Qed.

(** When both structures are set, [get_model] builds the structure
    model from them, whatever custom model and bounds the storage
    holds besides: the case in which [__setattr__] has warned that the
    structure would be ignored.  The flags of the model are the
    negations of [no_migrations] and [only_sudden], and the storage is
    left as it is. *)
Theorem get_model_structure E L st initial final r st' :
  getattr E st "initial_structure" = Ok initial →
  is_none initial = false →
  getattr E st "final_structure" = Ok final →
  is_none final = false →
  get_model E L st = (Ok r, st') →
  st' = st ∧
  ∃ gen_time theta0 mut_rate no_migrations only_sudden constrain,
    getattr E st "time_for_generation" = Ok gen_time ∧
    getattr E st "theta0" = Ok theta0 ∧
    getattr E st "mutation_rate" = Ok mut_rate ∧
    getattr E st "no_migrations" = Ok no_migrations ∧
    getattr E st "only_sudden" = Ok only_sudden ∧
    r = Some (StructureDemographicModel initial final
                (negb (py_truth no_migrations)) false
                (negb (py_truth only_sudden)) false true
                gen_time theta0 mut_rate constrain).
Proof.
  intros Hinitial Hsome1 Hfinal Hsome2 H. unfold get_model in H.
  invert_run H. rewrite Hinitial in Hstep2. injection Hstep2 as <-.
  rewrite Hsome1 in H. cbn [negb] in H. cbv iota in H.
  rewrite run_bind, run_bind, run_read, Hfinal in H. cbv beta iota in H.
  rewrite run_ret, Hsome2 in H. cbn [negb] in H. cbv beta iota in H.
  invert_run H.
  apply bind_Ok_inv in H as (c & s & Hc & H).
  apply pure_get_linear_constrain in Hc as ->.
  rewrite run_ret in H. injection H as <- <-.
  split; [done|].
  rewrite Hinitial in Hstep4. injection Hstep4 as <-.
  rewrite Hfinal in Hstep5. injection Hstep5 as <-.
  by eexists _, _, _, _, _, _.
Qed.

Lemma get_model_structure_witness :
  let st := structured_storage in
  getattr example_env st "initial_structure" = Ok (VList [VInt 1; VInt 1]) ∧
  is_none (VList [VInt 1; VInt 1]) = false ∧
  getattr example_env st "final_structure" = Ok (VList [VInt 2; VInt 1]) ∧
  is_none (VList [VInt 2; VInt 1]) = false ∧
  ∃ r st',
    get_model example_env example_lib st = (Ok r, st') ∧
    st' = st ∧
    ∃ gen_time theta0 mut_rate no_migrations only_sudden constrain,
      getattr example_env st "time_for_generation" = Ok gen_time ∧
      getattr example_env st "theta0" = Ok theta0 ∧
      getattr example_env st "mutation_rate" = Ok mut_rate ∧
      getattr example_env st "no_migrations" = Ok no_migrations ∧
      getattr example_env st "only_sudden" = Ok only_sudden ∧
      r = Some (StructureDemographicModel
                  (VList [VInt 1; VInt 1]) (VList [VInt 2; VInt 1])
                  (negb (py_truth no_migrations)) false
                  (negb (py_truth only_sudden)) false true
                  gen_time theta0 mut_rate constrain).
Proof.
  intros st.
  repeat (split; [vm_compute; reflexivity|]).
  eexists _, _. split; [apply run_is; vm_compute; reflexivity|].
  apply (get_model_structure example_env example_lib st);
    first [apply run_is; vm_compute; reflexivity | vm_compute; reflexivity].
Defined.

(** [get_model] changes no setting but [parameter_identifiers],
    [lower_bound] and [upper_bound], which hold the identifiers and
    bounds of the custom model once they have been read. *)
Theorem get_model_keeps E L st key r st' :
  mem key ["parameter_identifiers"; "lower_bound"; "upper_bound"] = false →
  get_model E L st = (r, st') →
  attrs st' !! key = attrs st !! key.
Proof.
  intros Hkey H.
  assert (writes_in nested (get_model E L)) as Hw.
  { unfold get_model, var_classes_of_settings, names_of_settings,
      get_linear_constrain_for_model, split_bound, getattr_full; eval_names.
    walk_with ltac:(first
      [ apply get_parameter_identifiers_writes
      | apply get_bound_writes; reflexivity ]). }
  specialize (Hw st key). rewrite H in Hw.
  destruct Hw as [?|(v & _ & Hn)]; [done|].
  unfold nested in Hn. congruence.
Qed.

Lemma get_model_keeps_witness :
  let st := custom_storage (VList [VStr "nu1"; VStr "t"]) in
  mem "custom_filename"
      ["parameter_identifiers"; "lower_bound"; "upper_bound"] = false ∧
  ∃ r st',
    get_model example_env example_lib st = (r, st') ∧
    attrs st' !! "custom_filename" = attrs st !! "custom_filename".
Proof.
  intros st. split; [reflexivity|].
  eexists _, _. split; [apply run_is; vm_compute; reflexivity|].
  eapply (get_model_keeps example_env example_lib st "custom_filename");
    [reflexivity|apply run_is; vm_compute; reflexivity].
Defined.

(** *** The names of the variables *)

Lemma run_identifiers_stored E v st :
  attrs st !! "parameter_identifiers" = Some v →
  getattr_full E "parameter_identifiers" st = (Ok v, st).
Proof.
  intros Hv. unfold getattr_full, get_parameter_identifiers. simpl.
  rewrite run_bind. cbn [get]. by rewrite Hv.
Qed.

Lemma var_classes_loop E ids classes : ∀ acc,
  Forall2 (λ id cls, var_class E (VStr id) = Ok cls) ids classes →
  for_each (VStr <$> ids)
    (λ p_id var_classes,
       cls ← var_class E p_id; Ok (var_classes ++ [VOpaque cls])) acc
  = Ok (acc ++ (VOpaque <$> classes)).
Proof.
  intros acc H. revert acc.
  induction H as [|id cls ids classes Hcls _ IH]; intros acc.
  - by rewrite app_nil_r.
  - cbn [fmap list_fmap for_each]. rewrite Hcls. simpl.
    by rewrite IH, <- app_assoc.
Qed.

(** The identifiers that line 687 keeps in the set. *)
Definition seen_of (ids : list string) : list pyval :=
  foldr (λ x seen, if existsb (py_eq x) seen then seen else x :: seen) []
        (VStr <$> ids).

Lemma seen_of_elem ids x :
  existsb (py_eq (VStr x)) (seen_of ids) = true ↔ x ∈ ids.
Proof.
  induction ids as [|y ids IH].
  - simpl. split; [done|by intros ?%elem_of_nil].
  - unfold seen_of in *. cbn [fmap list_fmap foldr].
    destruct (existsb (py_eq (VStr y)) _) eqn:Hy.
    + rewrite IH, elem_of_cons. split; [by right|].
      intros [->|?]; [by apply IH|done].
    + cbn [existsb]. rewrite orb_true_iff, IH, elem_of_cons.
      simpl. rewrite String.eqb_eq. done.
Qed.

Lemma seen_of_length ids :
  length (seen_of ids) ≤ length ids ∧
  (length (seen_of ids) = length ids ↔ NoDup ids).
Proof.
  induction ids as [|y ids [IHle IH]].
  - simpl. split; [done|]. split; [constructor|done].
  - pose proof (seen_of_elem ids y) as Hy.
    unfold seen_of in *. cbn [fmap list_fmap foldr].
    destruct (existsb (py_eq (VStr y)) _).
    + simpl. split; [lia|]. split; [lia|].
      intros [Hn _]%NoDup_cons. destruct Hn. by apply Hy.
    + simpl. split; [lia|]. rewrite NoDup_cons, <- IH.
      split; [intros ?; split; [|lia]|lia].
      intros Hin. by apply Hy in Hin.
Qed.

Lemma count_distinct_strings ids :
  count_distinct (VStr <$> ids) = Ok (length (seen_of ids)).
Proof.
  unfold count_distinct.
  assert (existsb (λ x, match x with VList _ => true | _ => false end)
            (VStr <$> ids) = false) as ->; [|done].
  induction ids; [done|by simpl].
Qed.

(** The names line 684 gives to [n] variables. *)
Definition numbered (n : nat) : list string :=
  (λ i, "var" +:+ pretty i) <$> range n.

(** A custom model with parameter identifiers gets one variable for
    each position at which there are a lower bound, an upper bound and
    an identifier, of the class that [settings.P_IDS] has for the first
    letter of the identifier in lower case.  The variables bear the
    identifiers as names when these are pairwise different; when one is
    repeated, every variable is named [var0], [var1] and so on.  The
    storage is left as it is. *)
Theorem get_model_custom E L st path ids lows upps classes func
    gen_time theta0 mut_rate :
  getattr E st "time_for_generation" = Ok gen_time →
  getattr E st "theta0" = Ok theta0 →
  getattr E st "mutation_rate" = Ok mut_rate →
  is_Ok (getattr E st "initial_structure") →
  getattr E st "final_structure" = Ok VNone →
  getattr E st "custom_filename" = Ok path →
  is_none path = false →
  getattr E st "model_func" = Ok func →
  attrs st !! "parameter_identifiers" = Some (VList (VStr <$> ids)) →
  attrs st !! "lower_bound" = Some (VList lows) →
  attrs st !! "upper_bound" = Some (VList upps) →
  Forall2 (λ id cls, var_class E (VStr id) = Ok cls) ids classes →
  get_model E L st
  = (Ok (Some (CustomDemographicModel func
                 (zip_variables lows upps (VOpaque <$> classes)
                    (VStr <$> (if bool_decide (NoDup ids) then ids
                               else numbered (length ids))))
                 gen_time theta0 mut_rate)), st).
Proof.
  intros Hgen Htheta Hmut [initial Hinitial] Hfinal Hpath Hsome Hfunc
    Hids Hlower Hupper Hclasses.
  pose proof (run_get_bound_stored E "lower_bound" _ st eq_refl Hlower) as Hlow.
  pose proof (run_get_bound_stored E "upper_bound" _ st eq_refl Hupper) as Hup.
  apply run_identifiers_stored with (E := E) in Hids.
  unfold get_model.
  next Hgen. next Htheta. next Hmut. next Hinitial.
  assert ((if negb (is_none initial)
           then final ← read E "final_structure"; ret (negb (is_none final))
           else ret false) st = (Ok false, st)) as Hstructured.
  { destruct (is_none initial); [done|]. simpl. by next Hfinal. }
  next Hstructured. next Hpath. rewrite Hsome. cbn [negb]. cbv iota.
  rewrite run_bind, run_ret. cbv beta iota.
  rewrite run_bind, run_bind, Hlow. cbv beta iota. cbn [negb is_none].
  cbv iota.
  rewrite run_bind, Hup. cbv beta iota. rewrite run_ret. cbn [negb is_none].
  cbv beta iota.
  assert (var_classes_of_settings E st = (Ok (VOpaque <$> classes), st))
    as Hvars.
  { unfold var_classes_of_settings.
    rewrite run_bind, Hids. cbv beta iota. cbn [negb is_none]. cbv iota.
    rewrite run_bind, Hids. cbv beta iota.
    rewrite run_bind, run_lift. cbn [py_iter]. cbv beta iota.
    by rewrite run_lift, (var_classes_loop E ids classes []). }
  assert (names_of_settings E (VOpaque <$> classes) st
          = (Ok (VList (VStr <$> (if bool_decide (NoDup ids) then ids
                                  else numbered (length ids)))), st))
    as Hnames.
  { unfold names_of_settings.
    rewrite run_bind, Hids. cbv beta iota. cbn [negb is_none]. cbv iota.
    rewrite run_bind, Hids. cbv beta iota.
    rewrite run_bind, run_lift. cbn [py_iter]. cbv beta iota.
    rewrite run_bind, run_lift, count_distinct_strings. cbv beta iota.
    rewrite run_bind, run_lift. cbn [py_len]. cbv beta iota.
    rewrite length_fmap.
    pose proof (seen_of_length ids) as [_ Hnd].
    apply Forall2_length in Hclasses.
    destruct (Nat.eqb_spec (length (seen_of ids)) (length ids)) as [Heq|Hne].
    - by rewrite bool_decide_eq_true_2 by by apply Hnd.
    - rewrite bool_decide_eq_false_2 by (intros ?; by apply Hne, Hnd).
      rewrite run_ret. unfold numbered.
      by rewrite length_fmap, <- Hclasses, <- list_fmap_compose. }
  next Hvars. next Hnames.
  rewrite run_bind, Hlow. cbv beta iota.
  rewrite run_bind, Hup. cbv beta iota.
  rewrite !run_bind, !run_lift. cbn [py_iter]. cbv beta iota.
  rewrite run_bind, run_lift. cbv beta iota.
  rewrite run_bind, run_lift. cbv beta iota.
  by next Hfunc.
Qed.

Lemma get_model_custom_witness :
  let st := custom_storage (VList [VStr "nu1"; VStr "t"]) in
  let ids := ["nu1"; "t"] in
  let classes := ["PopulationSizeVariable"; "TimeVariable"] in
  getattr example_env st "time_for_generation" = Ok (VInt 25) ∧
  getattr example_env st "theta0" = Ok VNone ∧
  getattr example_env st "mutation_rate" = Ok VNone ∧
  is_Ok (getattr example_env st "initial_structure") ∧
  getattr example_env st "final_structure" = Ok VNone ∧
  getattr example_env st "custom_filename" = Ok (VStr "model.py") ∧
  is_none (VStr "model.py") = false ∧
  getattr example_env st "model_func" = Ok (VOpaque "model_func") ∧
  attrs st !! "parameter_identifiers" = Some (VList (VStr <$> ids)) ∧
  attrs st !! "lower_bound" = Some (VList [VFloat (1 # 100); VInt 0]) ∧
  attrs st !! "upper_bound" = Some (VList [VInt 100; VInt 5]) ∧
  Forall2 (λ id cls, var_class example_env (VStr id) = Ok cls) ids classes ∧
  get_model example_env example_lib st
  = (Ok (Some (CustomDemographicModel (VOpaque "model_func")
                 (zip_variables [VFloat (1 # 100); VInt 0] [VInt 100; VInt 5]
                    (VOpaque <$> classes)
                    (VStr <$> (if bool_decide (NoDup ids) then ids
                               else numbered (length ids))))
                 (VInt 25) VNone VNone)), st).
Proof.
  intros st ids classes.
  assert (is_Ok (getattr example_env st "initial_structure")) as H1
    by (eexists; vm_compute; reflexivity).
  assert (Forall2 (λ id cls, var_class example_env (VStr id) = Ok cls)
            ids classes) as H2
    by (repeat constructor).
  repeat (split; [first [assumption | vm_compute; reflexivity]|]).
  apply (get_model_custom example_env example_lib st (VStr "model.py"));
    first [assumption | vm_compute; reflexivity].
Defined.

End ModelFacts.

(** ** [SettingsStorage.get_global_optimizer] *)

Module OptimizerSettings.
Import Py Settings SettingsFacts TypedSettings SettingEffects AssignedValues.
Import Storage StorageFacts.
Implicit Types (E : Env) (L : Lib) (st : state) (name key : string).

Lemma pure_copy_settings E pairs : ∀ obj, pure (copy_settings E pairs obj).
Proof.
  induction pairs as [|[attribute setting] pairs IH]; intros obj; simpl.
  - apply pure_ret.
  - apply pure_bind; [apply pure_read|]. intros v. apply IH.
Qed.

(** An attribute that the pairs set has the value of its setting, the
    last one of the pairs that name it deciding. *)
Lemma copy_settings_lookup E pairs : ∀ obj obj' st st' attribute setting,
  copy_settings E pairs obj st = (Ok obj', st') →
  (attribute, setting) ∈ pairs →
  NoDup pairs.*1 →
  ∃ value, getattr E st setting = Ok value ∧ obj' !! attribute = Some value.
Proof.
  induction pairs as [|[a s] pairs IH];
    intros obj obj' st st' attribute setting Hrun Hin Hnd.
  - by apply elem_of_nil in Hin.
  - simpl in Hrun. apply bind_Ok_inv in Hrun as (v & st1 & Hread & Hrun).
    rewrite run_read in Hread. injection Hread as Hread <-.
    apply NoDup_cons in Hnd as [Hfresh Hnd].
    apply elem_of_cons in Hin as [[= -> ->]|Hin].
    + exists v. split; [done|].
      clear IH Hnd. revert obj Hrun.
      induction pairs as [|[a' s'] pairs IH]; intros obj Hrun.
      * simpl in Hrun. rewrite run_ret in Hrun. injection Hrun as <- _.
        by rewrite lookup_insert_eq.
      * simpl in Hrun.
        apply bind_Ok_inv in Hrun as (v' & st1 & Hread' & Hrun).
        rewrite run_read in Hread'. injection Hread' as _ <-.
        apply not_elem_of_cons in Hfresh as [Hne Hfresh]. simpl in Hne.
        rewrite insert_insert_ne in Hrun by done.
        by apply (IH Hfresh (<[a' := v']> obj)).
    + by apply (IH _ _ _ _ _ _ Hrun).
Qed.
(** A run that is seen to end normally. *)
Lemma run_Ok {A} (m : M A) st :
  (match (m st).1 with Ok _ => true | Raise _ => false end) = true →
  ∃ a, m st = (Ok a, (m st).2).
Proof. destruct (m st) as [[a|e] st']; simpl; [by exists a|done]. Qed.

(** A decidable statement about concrete data. *)
Ltac decided := apply (bool_decide_unpack _); vm_compute; exact I.

Lemma ga_attributes_NoDup : NoDup ga_attributes.*1.
Proof. decided. Qed.

Lemma getattr_attr E st name v w :
  String.eqb name "initial_structure" = false →
  String.eqb name "final_structure" = false →
  attrs st !! name = Some v →
  getattr E st name = Ok w → w = v.
Proof.
  intros H1 H2 Hv. unfold getattr, lookup_attr. rewrite H1, H2, Hv.
  by intros [= <-].
Qed.



End OptimizerSettings.

(** ** The optimisers and the run coordinator *)

Module OptimizerFacts.
Import Optimizer.

(** *** Scores *)

Lemma at_least_as_good_refl mx a : at_least_as_good mx a a = true.
Proof. destruct mx; simpl; lia. Qed.

Lemma at_least_as_good_trans mx a b c :
  at_least_as_good mx a b = true → at_least_as_good mx b c = true →
  at_least_as_good mx a c = true.
Proof. destruct mx; simpl; lia. Qed.

Lemma not_beats mx a b : beats mx a b = false → at_least_as_good mx b a = true.
Proof. unfold beats. by intros ?%negb_false_iff. Qed.

Lemma beats_at_least mx a b : beats mx a b = true → at_least_as_good mx a b = true.
Proof. unfold beats. destruct mx; simpl; lia. Qed.

Lemma no_worse_refl mx a : no_worse mx a a.
Proof. destruct a; simpl; [apply at_least_as_good_refl|done]. Qed.

Lemma no_worse_trans mx a b c :
  no_worse mx a b → no_worse mx b c → no_worse mx a c.
Proof.
  destruct c as [c|]; [|done]. destruct b as [b|]; [|done].
  destruct a as [a|]; [|done]. simpl. apply at_least_as_good_trans.
Qed.

Section ga_facts.
Context {X Rng : Type} (pb : Problem X Rng) (p : GAParams).
Implicit Types (ck : Checkpoint X Rng) (pop : list (X * Z)) (c : X * Z).

Local Abbreviation mx := (maximize p).

(** *** Sorting *)

Lemma elem_of_insert_sorted c d pop :
  d ∈ insert_sorted p c pop ↔ d = c ∨ d ∈ pop.
Proof.
  induction pop as [|e pop IH]; simpl.
  - set_solver.
  - destruct (beats mx e.2 c.2); set_solver.
Qed.

Lemma elem_of_sort_population c pop : c ∈ sort_population p pop ↔ c ∈ pop.
Proof.
  induction pop as [|d pop IH]; simpl; [done|].
  rewrite elem_of_insert_sorted, IH. set_solver.
Qed.

(** The first candidate of a sorted population is at least as good as
    every other. *)
Definition head_best pop : Prop :=
  match pop with
  | [] => True
  | h :: _ => Forall (λ c, at_least_as_good mx h.2 c.2 = true) pop
  end.

Lemma insert_sorted_head_best c pop :
  head_best pop → head_best (insert_sorted p c pop).
Proof.
  destruct pop as [|h pop]; simpl.
  - intros _. constructor; [apply at_least_as_good_refl|constructor].
  - intros Hh. destruct (beats mx h.2 c.2) eqn:Hb; simpl.
    + apply Forall_forall. intros d [->|Hd]%elem_of_cons.
      { apply at_least_as_good_refl. }
      apply elem_of_insert_sorted in Hd as [->|Hd].
      * by apply beats_at_least.
      * rewrite Forall_forall in Hh. apply Hh. by right.
    + apply not_beats in Hb. constructor; [apply at_least_as_good_refl|].
      eapply Forall_impl; [exact Hh|]. simpl. intros d Hd.
      by eapply at_least_as_good_trans.
Qed.

Lemma sort_population_head_best pop : head_best (sort_population p pop).
Proof.
  induction pop as [|c pop IH]; simpl; [done|].
  by apply insert_sorted_head_best.
Qed.

Lemma population_best_elem pop c :
  population_best p pop = Some c → c ∈ pop.
Proof.
  unfold population_best. intros Hh.
  apply elem_of_sort_population. destruct (sort_population p pop); simplify_eq/=.
  by left.
Qed.

Lemma population_best_is_best pop c d :
  population_best p pop = Some c → d ∈ pop →
  at_least_as_good mx c.2 d.2 = true.
Proof.
  unfold population_best. intros Hh Hd%elem_of_sort_population.
  pose proof (sort_population_head_best pop) as Hs.
  destruct (sort_population p pop) as [|h l]; simplify_eq/=.
  rewrite Forall_forall in Hs. by apply Hs.
Qed.

Lemma population_best_None pop : population_best p pop = None ↔ pop = [].
Proof.
  unfold population_best. split.
  - intros Hh. destruct pop as [|c pop]; [done|].
    assert (c ∈ sort_population p (c :: pop)) as Hc
      by (apply elem_of_sort_population; by left).
    destruct (sort_population p (c :: pop)); [by apply elem_of_nil in Hc|done].
  - by intros ->.
Qed.

(** A larger population has a best candidate that is no worse. *)
Lemma population_best_mono pop pop' :
  pop ⊆ pop' →
  no_worse mx (snd <$> population_best p pop') (snd <$> population_best p pop).
Proof.
  intros Hsub. destruct (population_best p pop) as [c|] eqn:Hc; [|done].
  pose proof (population_best_elem _ _ Hc) as Hin.
  destruct (population_best p pop') as [d|] eqn:Hd; simpl.
  - eapply population_best_is_best; [done|]. by apply Hsub.
  - apply population_best_None in Hd. subst. apply Hsub in Hin.
    by apply elem_of_nil in Hin.
Qed.

(** *** Generations *)

Lemma generation_next ck :
  generation (next_generation pb p ck) = S (generation ck).
Proof.
  unfold next_generation. by repeat case_match.
Qed.

(** Fuel beyond [maxiter - generation] is never used. *)
Lemma generations_enough maxiter fuel fuel' ck :
  maxiter - generation ck ≤ fuel → maxiter - generation ck ≤ fuel' →
  generations pb p maxiter fuel ck = generations pb p maxiter fuel' ck.
Proof.
  revert fuel' ck. induction fuel as [|fuel IH]; intros fuel' ck H1 H2.
  - destruct fuel' as [|fuel']; simpl; [done|].
    unfold stopped. replace (maxiter <=? generation ck) with true; [done|].
    symmetry. apply Nat.leb_le. lia.
  - simpl. destruct (stopped p maxiter ck) eqn:Hs.
    + by destruct fuel'; simpl; rewrite ?Hs.
    + destruct fuel' as [|fuel']; simpl.
      * unfold stopped in Hs. apply orb_false_iff in Hs as [Hs%Nat.leb_gt _]. lia.
      * rewrite Hs. apply IH; rewrite generation_next; lia.
Qed.

(** With enough fuel the loop ends in a state in which the algorithm
    stops. *)
Lemma generations_stopped maxiter fuel ck :
  maxiter - generation ck ≤ fuel →
  stopped p maxiter (generations pb p maxiter fuel ck) = true.
Proof.
  revert ck. induction fuel as [|fuel IH]; intros ck Hf; simpl.
  - unfold stopped. apply orb_true_iff. left. apply Nat.leb_le. lia.
  - destruct (stopped p maxiter ck) eqn:Hs; [done|].
    apply IH. rewrite generation_next. lia.
Qed.

(** Going on from a saved checkpoint ends where the run that saved it
    ends. *)
Lemma generations_from_saved maxiter fuel ck ck' :
  maxiter - generation ck ≤ fuel →
  ck' ∈ saved pb p maxiter fuel ck →
  generations pb p maxiter (maxiter - generation ck') ck'
  = generations pb p maxiter fuel ck.
Proof.
  revert ck. induction fuel as [|fuel IH]; intros ck Hf; simpl.
  - by intros ?%elem_of_nil.
  - destruct (stopped p maxiter ck) eqn:Hs; [by intros ?%elem_of_nil|].
    assert (maxiter - generation (next_generation pb p ck) ≤ fuel)
      by (rewrite generation_next; lia).
    intros [->|Hin]%elem_of_cons.
    + by apply generations_enough.
    + by apply IH.
Qed.

Lemma final_from_saved maxiter seed seed' restore models_only ck :
  ck ∈ save_file pb p maxiter seed restore models_only →
  final pb p maxiter seed' (Some ck) false
  = final pb p maxiter seed restore models_only.
Proof.
  unfold save_file, final. simpl. intros Hin.
  by apply generations_from_saved.
Qed.

(** The score of the result is the score of the best candidate of the
    final state. *)
Lemma optimize_y maxiter seed restore models_only :
  y <$> optimize pb p maxiter seed restore models_only
  = snd <$> best (final pb p maxiter seed restore models_only).
Proof.
  unfold optimize. by destruct (best _).
Qed.

Lemma optimize_x maxiter seed restore models_only :
  x <$> optimize pb p maxiter seed restore models_only
  = fst <$> best (final pb p maxiter seed restore models_only).
Proof.
  unfold optimize. by destruct (best _).
Qed.

(** *** The best candidate so far *)

Lemma update_best_no_worse (old new : option (X * Z)) :
  no_worse mx (snd <$> update_best p old new) (snd <$> old) ∧
  no_worse mx (snd <$> update_best p old new) (snd <$> new).
Proof.
  destruct old as [o|], new as [n|]; simpl;
    try (split; [done || apply at_least_as_good_refl..]).
  destruct (beats mx n.2 o.2) eqn:Hb; simpl.
  - split; [by apply beats_at_least|apply at_least_as_good_refl].
  - split; [apply at_least_as_good_refl|by apply not_beats].
Qed.

Lemma best_next ck :
  best (next_generation pb p ck)
  = update_best p (best ck)
      (population_best p (population (next_generation pb p ck))).
Proof.
  unfold next_generation. by repeat case_match.
Qed.

Lemma next_generation_no_worse ck :
  no_worse mx (snd <$> best (next_generation pb p ck)) (snd <$> best ck).
Proof. rewrite best_next. apply update_best_no_worse. Qed.

Lemma generations_no_worse maxiter fuel ck :
  no_worse mx (snd <$> best (generations pb p maxiter fuel ck))
              (snd <$> best ck).
Proof.
  revert ck. induction fuel as [|fuel IH]; intros ck; simpl.
  - apply no_worse_refl.
  - destruct (stopped p maxiter ck); [apply no_worse_refl|].
    eapply no_worse_trans; [apply IH|apply next_generation_no_worse].
Qed.

(** Each saved checkpoint is no worse than the one before it, and the
    final state is no worse than any of them. *)
Lemma saved_no_worse maxiter fuel ck ck' :
  ck' ∈ saved pb p maxiter fuel ck →
  no_worse mx (snd <$> best ck') (snd <$> best ck) ∧
  no_worse mx (snd <$> best (generations pb p maxiter fuel ck))
              (snd <$> best ck').
Proof.
  revert ck. induction fuel as [|fuel IH]; intros ck; simpl.
  - by intros ?%elem_of_nil.
  - destruct (stopped p maxiter ck); [by intros ?%elem_of_nil|].
    intros [->|Hin]%elem_of_cons.
    + split; [apply next_generation_no_worse|apply generations_no_worse].
    + destruct (IH _ Hin) as [H1 H2]. split; [|done].
      eapply no_worse_trans; [exact H1|apply next_generation_no_worse].
Qed.

(** *** Checkpoints of runs on this problem *)

(** The checkpoints a run of this algorithm on this problem can hold:
    a start from given points, followed by generations. *)
Inductive from_run : Checkpoint X Rng → Prop :=
  | from_initial X_init seed : from_run (initial pb p X_init seed)
  | from_next ck : from_run ck → from_run (next_generation pb p ck).

(** Every score in the checkpoint is the fitness of its candidate. *)
Definition consistent ck : Prop :=
  Forall (λ c, c.2 = fitness_fn pb c.1) (population ck) ∧
  ∀ b, best ck = Some b → b.2 = fitness_fn pb b.1.

(** The population still holds a candidate as good as the best so far. *)
Definition keeps_best ck : Prop :=
  no_worse mx (snd <$> population_best p (population ck)) (snd <$> best ck).

Lemma evaluate_consistent cs :
  Forall (λ c, c.2 = fitness_fn pb c.1) (evaluate pb cs).
Proof. apply Forall_fmap, Forall_true. done. Qed.

Lemma evaluate_fst pop :
  Forall (λ c, c.2 = fitness_fn pb c.1) pop → evaluate pb pop.*1 = pop.
Proof.
  induction 1 as [|[c s] pop Hc _ IH]; [done|].
  simpl in Hc. subst s. unfold evaluate in *. rewrite fmap_cons.
  cbn. f_equal. exact IH.
Qed.

Lemma initial_eq X_init seed :
  initial pb p X_init seed =
  let drawn := draw (resample pb) (gen_size p - length X_init) seed in
  let pop := evaluate pb (X_init ++ drawn.1) in
  {| generation := 0; population := pop; stuck := 0; rng := drawn.2;
     best := population_best p pop |}.
Proof. unfold initial. by destruct (draw _ _ _). Qed.

(** The population after a generation: the elite, then the scored new
    candidates. *)
Lemma population_next ck :
  ∃ news, population (next_generation pb p ck)
          = take (n_elitism p) (sort_population p (population ck))
            ++ evaluate pb news.
Proof.
  unfold next_generation. repeat case_match; simpl; eexists; reflexivity.
Qed.

Lemma population_best_consistent pop b :
  Forall (λ c, c.2 = fitness_fn pb c.1) pop →
  population_best p pop = Some b → b.2 = fitness_fn pb b.1.
Proof.
  intros Hpop Hb%population_best_elem. rewrite Forall_forall in Hpop. auto.
Qed.

Lemma update_best_consistent (old new : option (X * Z)) b :
  (∀ o, old = Some o → o.2 = fitness_fn pb o.1) →
  (∀ n, new = Some n → n.2 = fitness_fn pb n.1) →
  update_best p old new = Some b → b.2 = fitness_fn pb b.1.
Proof.
  intros Ho Hn. destruct old as [o|], new as [n|]; simpl; [|by auto..].
  destruct (beats mx n.2 o.2); intros [= <-]; auto.
Qed.

Lemma initial_consistent X_init seed : consistent (initial pb p X_init seed).
Proof.
  rewrite initial_eq. split; simpl.
  - apply evaluate_consistent.
  - intros b. apply population_best_consistent, evaluate_consistent.
Qed.

Lemma next_consistent ck : consistent ck → consistent (next_generation pb p ck).
Proof.
  intros [Hpop Hbest].
  assert (Forall (λ c, c.2 = fitness_fn pb c.1)
            (population (next_generation pb p ck))) as Hnew.
  { destruct (population_next ck) as [news ->].
    apply Forall_app. split; [|apply evaluate_consistent].
    apply Forall_take, Forall_forall. intros c Hc.
    rewrite elem_of_sort_population in Hc.
    rewrite Forall_forall in Hpop. by apply Hpop. }
  split; [done|]. intros b. rewrite best_next.
  apply update_best_consistent; [done|].
  intros n. by apply population_best_consistent.
Qed.

Lemma from_run_consistent ck : from_run ck → consistent ck.
Proof.
  induction 1; [apply initial_consistent|by apply next_consistent].
Qed.

Lemma initial_keeps_best X_init seed : keeps_best (initial pb p X_init seed).
Proof. rewrite initial_eq. apply no_worse_refl. Qed.

(** With one elite candidate or more, the best of a population is
    carried over. *)
Lemma next_population_best ck :
  1 ≤ n_elitism p →
  no_worse mx
    (snd <$> population_best p (population (next_generation pb p ck)))
    (snd <$> population_best p (population ck)).
Proof.
  intros Helite.
  destruct (population_best p (population ck)) as [h|] eqn:Hh; [|done].
  assert (h ∈ population (next_generation pb p ck)) as Hin.
  { destruct (population_next ck) as [news ->].
    apply elem_of_app. left. unfold population_best in Hh.
    destruct (sort_population p (population ck)) as [|h' l]; simplify_eq/=.
    destruct (n_elitism p) as [|n]; [lia|]. simpl. by left. }
  destruct (population_best p (population (next_generation pb p ck)))
    as [n|] eqn:Hn; simpl.
  - by eapply population_best_is_best.
  - apply population_best_None in Hn. rewrite Hn in Hin.
    by apply elem_of_nil in Hin.
Qed.

Lemma next_keeps_best ck :
  1 ≤ n_elitism p → keeps_best ck → keeps_best (next_generation pb p ck).
Proof.
  intros Helite Hk. unfold keeps_best in *. rewrite best_next.
  pose proof (next_population_best ck Helite) as Hnext.
  set (new := population_best p (population (next_generation pb p ck))) in *.
  destruct (best ck) as [o|] eqn:Ho, new as [n|] eqn:Hn; cbn [update_best].
  - destruct (beats mx n.2 o.2) eqn:Hb.
    + apply no_worse_refl.
    + eapply no_worse_trans; [exact Hnext|exact Hk].
  - destruct (population_best p (population ck)); [done|].
    simpl in Hk. done.
  - apply no_worse_refl.
  - done.
Qed.

Lemma from_run_keeps_best ck : 1 ≤ n_elitism p → from_run ck → keeps_best ck.
Proof.
  intros Helite. induction 1; [apply initial_keeps_best|by apply next_keeps_best].
Qed.

Lemma saved_from_run maxiter fuel ck ck' :
  from_run ck → ck' ∈ saved pb p maxiter fuel ck → from_run ck'.
Proof.
  revert ck. induction fuel as [|fuel IH]; intros ck Hck; simpl.
  - by intros ?%elem_of_nil.
  - destruct (stopped p maxiter ck); [by intros ?%elem_of_nil|].
    intros [->|Hin]%elem_of_cons; [by constructor|].
    eapply IH; [|done]. by constructor.
Qed.

Lemma generations_from_run maxiter fuel ck :
  from_run ck → from_run (generations pb p maxiter fuel ck).
Proof.
  revert ck. induction fuel as [|fuel IH]; intros ck Hck; simpl; [done|].
  destruct (stopped p maxiter ck); [done|]. apply IH. by constructor.
Qed.

Lemma start_from_run seed restore models_only :
  (∀ ck, restore = Some ck → models_only = false → from_run ck) →
  from_run (start pb p seed restore models_only).
Proof.
  intros Hr. unfold start. destruct restore as [ck|]; [|constructor].
  destruct models_only; [constructor|]. by apply Hr.
Qed.

(** *** Warm starts *)

(** A warm start from a checkpoint that still holds its best candidate
    starts no worse than the checkpoint. *)
Lemma warm_start_no_worse ck seed :
  consistent ck → keeps_best ck →
  no_worse mx (snd <$> best (initial pb p (population ck).*1 seed))
              (snd <$> best ck).
Proof.
  intros [Hpop _] Hk. rewrite initial_eq. simpl.
  eapply no_worse_trans; [|exact Hk].
  apply population_best_mono.
  unfold evaluate. rewrite fmap_app. fold (evaluate pb (population ck).*1).
  rewrite evaluate_fst by done. set_solver.
Qed.

(** *** The last checkpoint saved *)

Lemma last_saved maxiter fuel ck :
  last (saved pb p maxiter fuel ck) = None ∧
    generations pb p maxiter fuel ck = ck ∨
  last (saved pb p maxiter fuel ck) = Some (generations pb p maxiter fuel ck) ∧
    ∃ ck0, generations pb p maxiter fuel ck = next_generation pb p ck0.
Proof.
  revert ck. induction fuel as [|fuel IH]; intros ck; simpl; [by left|].
  destruct (stopped p maxiter ck); [by left|]. right.
  destruct (IH (next_generation pb p ck)) as [[Hl ->]|[Hl Hn]].
  - rewrite last_cons, Hl. eauto.
  - by rewrite last_cons, Hl.
Qed.

Lemma draw_length (op : Rng → X * Rng) n r : length (draw op n r).1 = n.
Proof.
  revert r. induction n as [|n IH]; intros r; simpl; [done|].
  destruct (op r) as [c r1]. specialize (IH r1).
  destruct (draw op n r1). simpl in *. by rewrite IH.
Qed.

Lemma population_next_length ck :
  n_mutation p + n_crossover p ≤ length (population (next_generation pb p ck)).
Proof.
  unfold next_generation.
  pose proof (draw_length (mutate pb (stuck ck)
    (sort_population p (population ck))) (n_mutation p) (rng ck)) as H1.
  destruct (draw (mutate _ _ _) _ _) as [mutated r1].
  pose proof (draw_length (crossover pb (sort_population p (population ck)))
    (n_crossover p) r1) as H2.
  destruct (draw (crossover _ _) _ _) as [crossed r2].
  destruct (draw (resample pb) _ _) as [fresh r3]. simpl in *.
  unfold evaluate. rewrite length_app, length_fmap, !length_app. lia.
Qed.

(** Either candidates are produced, or there never is one. *)
Definition breeds : Prop := 0 < gen_size p ∨ 0 < n_mutation p + n_crossover p.

Definition barren ck : Prop :=
  (best ck = None ∧ population ck = []) ∨ breeds.

Lemma initial_barren seed : barren (initial pb p [] seed).
Proof.
  rewrite initial_eq. unfold barren, breeds. simpl.
  destruct (gen_size p) as [|n]; [|right; left; lia].
  left. by simpl.
Qed.

Lemma next_barren ck : barren ck → barren (next_generation pb p ck).
Proof.
  intros [[Hb Hp]|?]; [|by right].
  unfold barren, breeds.
  destruct (decide (0 < gen_size p ∨ 0 < n_mutation p + n_crossover p));
    [by right|left].
  assert (population (next_generation pb p ck) = []) as Hnil.
  { unfold next_generation. rewrite Hp. unfold n_random.
    replace (n_mutation p) with 0 by lia.
    replace (n_crossover p) with 0 by lia.
    replace (gen_size p - n_elitism p - 0 - 0) with 0 by lia.
    simpl. by rewrite take_nil. }
  split; [|done]. by rewrite best_next, Hb, Hnil.
Qed.

Lemma generations_barren maxiter fuel ck :
  barren ck → barren (generations pb p maxiter fuel ck).
Proof.
  revert ck. induction fuel as [|fuel IH]; intros ck Hck; simpl; [done|].
  destruct (stopped p maxiter ck); [done|]. by apply IH, next_barren.
Qed.

End ga_facts.

(** *** The local optimiser *)

Section ls_facts.
Context {X Rng Inner : Type} (pb : Problem X Rng) (mx : bool)
  (ls : LocalSearch X Inner).
Implicit Types (ck : LSCheckpoint X Inner).

Lemma iteration_next ck : iteration (ls_next pb mx ls ck) = S (iteration ck).
Proof. unfold ls_next. by destruct (ls_move _ _ _). Qed.

Lemma ls_iterations_enough maxiter fuel fuel' ck :
  maxiter - iteration ck ≤ fuel → maxiter - iteration ck ≤ fuel' →
  ls_iterations pb mx ls maxiter fuel ck
  = ls_iterations pb mx ls maxiter fuel' ck.
Proof.
  revert fuel' ck. induction fuel as [|fuel IH]; intros fuel' ck H1 H2.
  - destruct fuel' as [|fuel']; simpl; [done|].
    replace (maxiter <=? iteration ck) with true; [done|].
    symmetry. apply Nat.leb_le. lia.
  - simpl. destruct (maxiter <=? iteration ck) eqn:Hs.
    + by destruct fuel'; simpl; rewrite ?Hs.
    + destruct fuel' as [|fuel']; simpl.
      * apply Nat.leb_gt in Hs. lia.
      * rewrite Hs. apply IH; rewrite iteration_next; lia.
Qed.

Lemma ls_iterations_from_saved maxiter fuel ck ck' :
  maxiter - iteration ck ≤ fuel →
  ck' ∈ ls_saved pb mx ls maxiter fuel ck →
  ls_iterations pb mx ls maxiter (maxiter - iteration ck') ck'
  = ls_iterations pb mx ls maxiter fuel ck.
Proof.
  revert ck. induction fuel as [|fuel IH]; intros ck Hf; simpl.
  - by intros ?%elem_of_nil.
  - destruct (maxiter <=? iteration ck) eqn:Hs; [by intros ?%elem_of_nil|].
    assert (maxiter - iteration (ls_next pb mx ls ck) ≤ fuel)
      by (rewrite iteration_next; lia).
    intros [->|Hin]%elem_of_cons.
    + by apply ls_iterations_enough.
    + by apply IH.
Qed.

Lemma ls_final_from_saved x0 x0' maxiter restore models_only ck :
  ck ∈ ls_save_file pb mx ls x0 maxiter restore models_only →
  ls_final pb mx ls x0' maxiter (Some ck) false
  = ls_final pb mx ls x0 maxiter restore models_only.
Proof.
  unfold ls_save_file, ls_final. simpl. intros Hin.
  by apply ls_iterations_from_saved.
Qed.

Lemma ls_next_no_worse ck :
  at_least_as_good mx (ls_best (ls_next pb mx ls ck)).2 (ls_best ck).2 = true.
Proof.
  unfold ls_next. destruct (ls_move _ _ _) as [x' inner']. simpl.
  destruct (beats mx _ _) eqn:Hb.
  - by apply beats_at_least.
  - apply at_least_as_good_refl.
Qed.

Lemma ls_iterations_no_worse maxiter fuel ck :
  at_least_as_good mx (ls_best (ls_iterations pb mx ls maxiter fuel ck)).2
                      (ls_best ck).2 = true.
Proof.
  revert ck. induction fuel as [|fuel IH]; intros ck; simpl.
  - apply at_least_as_good_refl.
  - destruct (maxiter <=? iteration ck); [apply at_least_as_good_refl|].
    eapply at_least_as_good_trans; [apply IH|apply ls_next_no_worse].
Qed.

(** The checkpoints a local search on this problem can hold. *)
Inductive ls_from_run : LSCheckpoint X Inner → Prop :=
  | ls_from_initial x0 : ls_from_run (ls_initial pb ls x0)
  | ls_from_next ck : ls_from_run ck → ls_from_run (ls_next pb mx ls ck).

Lemma ls_from_run_consistent ck :
  ls_from_run ck → (ls_best ck).2 = fitness_fn pb (ls_best ck).1.
Proof.
  induction 1 as [x0|ck _ IH]; [done|].
  unfold ls_next. destruct (ls_move _ _ _) as [x' inner']. simpl.
  by destruct (beats mx _ _).
Qed.

Lemma ls_iterations_from_run maxiter fuel ck :
  ls_from_run ck → ls_from_run (ls_iterations pb mx ls maxiter fuel ck).
Proof.
  revert ck. induction fuel as [|fuel IH]; intros ck Hck; simpl; [done|].
  destruct (maxiter <=? iteration ck); [done|]. apply IH. by constructor.
Qed.

Lemma ls_saved_from_run maxiter fuel ck ck' :
  ls_from_run ck → ck' ∈ ls_saved pb mx ls maxiter fuel ck → ls_from_run ck'.
Proof.
  revert ck. induction fuel as [|fuel IH]; intros ck Hck; simpl.
  - by intros ?%elem_of_nil.
  - destruct (maxiter <=? iteration ck); [by intros ?%elem_of_nil|].
    intros [->|Hin]%elem_of_cons; [by constructor|].
    eapply IH; [|done]. by constructor.
Qed.

Lemma ls_start_from_run x0 restore models_only :
  (∀ ck, restore = Some ck → models_only = false → ls_from_run ck) →
  ls_from_run (ls_start pb ls x0 restore models_only).
Proof.
  intros Hr. unfold ls_start. destruct restore as [ck|]; [|constructor].
  destruct models_only; [constructor|]. by apply Hr.
Qed.

Lemma ls_last_saved maxiter fuel ck :
  last (ls_saved pb mx ls maxiter fuel ck) = None ∧
    ls_iterations pb mx ls maxiter fuel ck = ck ∨
  last (ls_saved pb mx ls maxiter fuel ck)
    = Some (ls_iterations pb mx ls maxiter fuel ck).
Proof.
  revert ck. induction fuel as [|fuel IH]; intros ck; simpl; [by left|].
  destruct (maxiter <=? iteration ck); [by left|]. right.
  destruct (IH (ls_next pb mx ls ck)) as [[Hl ->]|Hl];
    by rewrite last_cons, Hl.
Qed.

(** A warm start at the best point of a checkpoint ends no worse than
    the checkpoint. *)
Lemma ls_warm_no_worse x0 maxiter ck :
  ls_from_run ck →
  at_least_as_good mx
    (ls_best (ls_final pb mx ls x0 maxiter (Some ck) true)).2
    (ls_best ck).2 = true.
Proof.
  intros Hck. unfold ls_final, ls_start.
  eapply at_least_as_good_trans; [apply ls_iterations_no_worse|].
  simpl. rewrite <- (ls_from_run_consistent ck Hck).
  apply at_least_as_good_refl.
Qed.

End ls_facts.

(** *** The example runs *)

Lemma hill_checkpoint_saved :
  hill_checkpoint ∈ save_file hill hill_options 5 0%Z None false.
Proof. apply last_Some_elem_of; vm_compute; reflexivity. Qed.

Lemma stepper_checkpoint_saved :
  stepper_checkpoint ∈ ls_save_file hill true stepper (-4)%Z 5 None false.
Proof. apply last_Some_elem_of; vm_compute; reflexivity. Qed.

Lemma downhill_checkpoint_saved :
  downhill_checkpoint ∈ save_file downhill no_elitism 2 0%Z None false.
Proof. apply last_Some_elem_of; vm_compute; reflexivity. Qed.

(** *** C1: exact continuation *)

(** A call of [optimize] always ends in a state in which the algorithm
    stops: the fuel of [final] is enough. *)
Lemma final_stopped {X Rng} (pb : Problem X Rng) p maxiter seed restore
    models_only :
  stopped p maxiter (final pb p maxiter seed restore models_only) = true.
Proof. unfold final. by apply generations_stopped. Qed.



(** The same for the local optimiser, as [test_ls_restore] has it. *)
Lemma ls_restore_exact {X Rng Inner} (pb : Problem X Rng) mx
    (ls : LocalSearch X Inner) x0 x0' maxiter ck :
  ck ∈ ls_save_file pb mx ls x0 maxiter None false →
  y (ls_optimize pb mx ls x0' maxiter (Some ck) false)
  = y (ls_optimize pb mx ls x0 maxiter None false).
Proof.
  intros Hck. unfold ls_optimize. simpl.
  by rewrite (ls_final_from_saved pb mx ls x0 x0' maxiter None false).
Qed.

(** *** C3: the best score never gets worse *)

Lemma no_worse_score_le a b : no_worse true b a → score_le a b.
Proof.
  destruct a as [a|], b as [b|]; simpl; try done. apply Z.leb_le.
Qed.

(** C3: in maximize mode the best score so far never decreases from
    one generation to the next; in particular a run continued from a
    checkpoint, to whatever [maxiter], ends with a best score that is
    at least the one recorded in the checkpoint. *)
Theorem best_score_monotone {X Rng} (pb : Problem X Rng) p :
  maximize p = true →
  (∀ ck, score_le (snd <$> best ck)
                  (snd <$> best (next_generation pb p ck))) ∧
  (∀ maxiter seed ck,
     score_le (snd <$> best ck)
              (y <$> optimize pb p maxiter seed (Some ck) false)).
Proof.
  intros Hmax. split.
  - intros ck. apply no_worse_score_le. rewrite <- Hmax.
    apply next_generation_no_worse.
  - intros maxiter seed ck. apply no_worse_score_le.
    rewrite <- Hmax, optimize_y. unfold final. simpl.
    apply generations_no_worse.
Qed.

Lemma best_score_monotone_witness :
  maximize hill_options = true ∧
  (∀ ck, score_le (snd <$> best ck)
                  (snd <$> best (next_generation hill hill_options ck))) ∧
  (∀ maxiter seed ck,
     score_le (snd <$> best ck)
              (y <$> optimize hill hill_options maxiter seed (Some ck) false)).
Proof.
  split; [reflexivity|].
  apply (best_score_monotone hill hill_options). reflexivity.
Defined.

(** The run of [test_ga_restore] continued from generation 5 to
    [maxiter = 10]: the score goes from -729 to -361. *)
Lemma hill_continued :
  snd <$> best hill_checkpoint = Some (-729)%Z ∧
  y <$> optimize hill hill_options 10 0%Z (Some hill_checkpoint) false
    = Some (-361)%Z.
Proof. split; by vm_compute. Qed.

(** *** C4: warm starts *)

(** C4, as amended: a run resumed with [restore_models_only = True]
    from a checkpoint of a run ends with a best score at least as good
    as the one recorded in the checkpoint, for the local optimiser,
    and for the genetic algorithm when it carries over at least one
    elite candidate ([n_elitism >= 1]). *)
Theorem models_only_no_worse {X Rng Inner} (pb : Problem X Rng)
    p maxiter0 seed0 ck maxiter seed
    mx (ls : LocalSearch X Inner) x0 ls_maxiter0 ls_ck x0' ls_maxiter :
  (1 ≤ n_elitism p →
   ck ∈ save_file pb p maxiter0 seed0 None false →
   no_worse (maximize p)
     (y <$> optimize pb p maxiter seed (Some ck) true)
     (snd <$> best ck)) ∧
  (ls_ck ∈ ls_save_file pb mx ls x0 ls_maxiter0 None false →
   at_least_as_good mx
     (y (ls_optimize pb mx ls x0' ls_maxiter (Some ls_ck) true))
     (ls_best ls_ck).2 = true).
Proof.
  split.
  - intros Helite Hck.
    assert (from_run pb p ck) as Hrun.
    { eapply saved_from_run; [|exact Hck]. simpl. constructor. }
    rewrite optimize_y. unfold final. simpl.
    eapply no_worse_trans; [apply generations_no_worse|].
    apply warm_start_no_worse.
    + by apply (from_run_consistent pb p).
    + by apply (from_run_keeps_best pb p).
  - intros Hck. apply ls_warm_no_worse.
    eapply ls_saved_from_run; [|exact Hck]. simpl. constructor.
Qed.

Lemma models_only_no_worse_witness :
  (1 ≤ n_elitism hill_options ∧
   hill_checkpoint ∈ save_file hill hill_options 5 0%Z None false ∧
   no_worse (maximize hill_options)
     (y <$> optimize hill hill_options 10 0%Z (Some hill_checkpoint) true)
     (snd <$> best hill_checkpoint)) ∧
  (stepper_checkpoint ∈ ls_save_file hill true stepper (-4)%Z 5 None false ∧
   at_least_as_good true
     (y (ls_optimize hill true stepper (-4)%Z 5 (Some stepper_checkpoint) true))
     (ls_best stepper_checkpoint).2 = true).
Proof.
  assert (1 ≤ n_elitism hill_options) as H1 by (simpl; lia).
  assert (hill_checkpoint ∈ save_file hill hill_options 5 0%Z None false)
    as H2 by (apply last_Some_elem_of; vm_compute; reflexivity).
  assert (stepper_checkpoint
            ∈ ls_save_file hill true stepper (-4)%Z 5 None false)
    as H3 by (apply last_Some_elem_of; vm_compute; reflexivity).
  destruct (models_only_no_worse hill hill_options 5 0%Z hill_checkpoint
              10 0%Z true stepper (-4)%Z 5 stepper_checkpoint (-4)%Z 5)
    as [Hga Hls].
  split; [split; [exact H1|split; [exact H2|exact (Hga H1 H2)]]|].
  split; [exact H3|exact (Hls H3)].
Defined.

(** Without elitism the claim fails for the genetic algorithm: the
    run of [downhill] has seen the score 0 when it saves its second
    checkpoint, whose population holds the one candidate -2; started
    again from these models it never gets above -2. *)
Lemma models_only_worse_without_elitism :
  downhill_checkpoint ∈ save_file downhill no_elitism 2 0%Z None false ∧
  snd <$> best downhill_checkpoint = Some 0%Z ∧
  y <$> optimize downhill no_elitism 2 5%Z (Some downhill_checkpoint) true
    = Some (-2)%Z ∧
  ¬ no_worse (maximize no_elitism)
      (y <$> optimize downhill no_elitism 2 5%Z (Some downhill_checkpoint) true)
      (snd <$> best downhill_checkpoint).
Proof.
  split; [exact downhill_checkpoint_saved|].
  split_and!; [by vm_compute..|]. vm_compute. discriminate.
Qed.

(** A warm start need not end where the uninterrupted run ends: from
    generation 5 of the run of [test_ga_restore] it reaches -121 within
    ten generations, the uninterrupted run -361. *)
Lemma models_only_differs :
  y <$> optimize hill hill_options 10 0%Z (Some hill_checkpoint) true
    = Some (-121)%Z ∧
  y <$> optimize hill hill_options 10 0%Z None false = Some (-361)%Z.
Proof. split; by vm_compute. Qed.

(** *** C5: the score of a result is the fitness of its point *)

(** A restore file is one a run on this problem has saved: this
    matters when its scores are taken over, with
    [restore_models_only = False]. *)
Definition restorable {X Rng} (pb : Problem X Rng) p
    (restore : option (Checkpoint X Rng)) (models_only : bool) : Prop :=
  match restore with
  | Some ck => models_only = false → from_run pb p ck
  | None => True
  end.
Definition ls_restorable {X Rng Inner} (pb : Problem X Rng) mx
    (ls : LocalSearch X Inner) (restore : option (LSCheckpoint X Inner))
    (models_only : bool) : Prop :=
  match restore with
  | Some ck => models_only = false → ls_from_run pb mx ls ck
  | None => True
  end.

Lemma restorable_start {X Rng} (pb : Problem X Rng) p seed restore
    models_only :
  restorable pb p restore models_only →
  from_run pb p (start pb p seed restore models_only).
Proof.
  intros Hr. apply start_from_run. intros ck -> Hm. by apply Hr.
Qed.

Lemma ls_restorable_start {X Rng Inner} (pb : Problem X Rng) mx
    (ls : LocalSearch X Inner) x0 restore models_only :
  ls_restorable pb mx ls restore models_only →
  ls_from_run pb mx ls (ls_start pb ls x0 restore models_only).
Proof.
  intros Hr. apply ls_start_from_run. intros ck -> Hm. by apply Hr.
Qed.

(** The checkpoints a run saves are of this kind. *)
Lemma save_file_from_run {X Rng} (pb : Problem X Rng) p maxiter seed restore
    models_only ck :
  restorable pb p restore models_only →
  ck ∈ save_file pb p maxiter seed restore models_only →
  from_run pb p ck.
Proof.
  intros Hr. unfold save_file. apply saved_from_run.
  by apply restorable_start.
Qed.

Lemma ls_save_file_from_run {X Rng Inner} (pb : Problem X Rng) mx
    (ls : LocalSearch X Inner) x0 maxiter restore models_only ck :
  ls_restorable pb mx ls restore models_only →
  ck ∈ ls_save_file pb mx ls x0 maxiter restore models_only →
  ls_from_run pb mx ls ck.
Proof.
  intros Hr. unfold ls_save_file. apply ls_saved_from_run.
  by apply ls_restorable_start.
Qed.


(** The result of the run of [test_ga_restore] restored at generation 5
    and continued to generation 10. *)
Definition hill_result : Result Z :=
  {| x := 21%Z; y := (-361)%Z; n_evals := 40;
     history := [-676; -576; -484; -441; -361]%Z |}.


(** *** C2: resuming a run of [CoreRun] *)

Section core_run_facts.
Context {X Rng Inner : Type} (pb : Problem X Rng).

(** The last checkpoint a call of [optimize] saves is the state it
    ends in; it saves none when it ends where it starts. *)
Lemma last_save_file p maxiter seed restore models_only :
  last (save_file pb p maxiter seed restore models_only) = None ∧
    final pb p maxiter seed restore models_only
    = start pb p seed restore models_only ∨
  last (save_file pb p maxiter seed restore models_only)
    = Some (final pb p maxiter seed restore models_only) ∧
    ∃ ck0, final pb p maxiter seed restore models_only
           = next_generation pb p ck0.
Proof. apply last_saved. Qed.

Lemma ls_last_save_file mx (ls : LocalSearch X Inner) x0 maxiter restore
    models_only :
  last (ls_save_file pb mx ls x0 maxiter restore models_only) = None ∧
    ls_final pb mx ls x0 maxiter restore models_only
    = ls_start pb ls x0 restore models_only ∨
  last (ls_save_file pb mx ls x0 maxiter restore models_only)
    = Some (ls_final pb mx ls x0 maxiter restore models_only).
Proof. apply ls_last_saved. Qed.

Lemma final_from_run p maxiter seed restore :
  from_run pb p (final pb p maxiter seed restore true).
Proof.
  unfold final. apply generations_from_run, start_from_run. by intros.
Qed.

Lemma fresh_final_from_run p maxiter seed om :
  from_run pb p (final pb p maxiter seed None om).
Proof.
  unfold final. apply generations_from_run, start_from_run. by intros.
Qed.

Lemma ls_fresh_final_from_run mx (ls : LocalSearch X Inner) x0 maxiter om :
  ls_from_run pb mx ls (ls_final pb mx ls x0 maxiter None om).
Proof.
  unfold ls_final. apply ls_iterations_from_run, ls_start_from_run.
  by intros.
Qed.

(** The genetic algorithm restored from the last checkpoint of a fresh
    run, with the full state, ends where that run ends. *)
Lemma ga_resume_exact p maxiter seed om :
  final pb p maxiter seed (last (save_file pb p maxiter seed None om)) false
  = final pb p maxiter seed None om.
Proof.
  destruct (last _) as [ck|] eqn:Hl; [|by destruct om].
  apply final_from_saved. by apply last_Some_elem_of.
Qed.

(** Started from the models of that checkpoint it ends no worse, given
    that an elite candidate is carried over. *)
Lemma ga_resume_warm p maxiter seed om :
  1 ≤ n_elitism p →
  no_worse (maximize p)
    (snd <$> best (final pb p maxiter seed
                     (last (save_file pb p maxiter seed None om)) true))
    (snd <$> best (final pb p maxiter seed None om)).
Proof.
  intros Helite.
  destruct (last_save_file p maxiter seed None om) as [[-> _]|[-> _]].
  - destruct om; apply no_worse_refl.
  - pose proof (fresh_final_from_run p maxiter seed om) as Hrun.
    set (F := final pb p maxiter seed None om) in *.
    unfold final, start.
    eapply no_worse_trans; [apply generations_no_worse|].
    apply warm_start_no_worse.
    + by apply (from_run_consistent pb p).
    + by apply (from_run_keeps_best pb p).
Qed.

(** A start from given points, or with a positive [gen_size], has a
    best candidate. *)
Lemma initial_best_Some p X_init seed :
  0 < gen_size p ∨ X_init ≠ [] →
  is_Some (best (initial pb p X_init seed)).
Proof.
  intros Hne. rewrite initial_eq. simpl.
  destruct (population_best p _) as [b|] eqn:Hb; [by eexists|].
  apply population_best_None in Hb. apply (f_equal length) in Hb.
  unfold evaluate in Hb.
  rewrite length_fmap, length_app, draw_length in Hb. simpl in Hb.
  destruct Hne as [?|Hne]; [lia|].
  destruct X_init; [done|]. simpl in Hb. lia.
Qed.

(** In either case it returns a result if the run did. *)
Lemma ga_resume_warm_Some p maxiter seed om :
  is_Some (best (final pb p maxiter seed None om)) →
  is_Some (best (final pb p maxiter seed
                   (last (save_file pb p maxiter seed None om)) true)).
Proof.
  intros Hb.
  destruct (last_save_file p maxiter seed None om)
    as [[-> _]|[-> [ck0 Hck0]]]; [by destruct om|].
  assert (barren p (final pb p maxiter seed None om)) as Hbarren.
  { unfold final. destruct om; apply generations_barren, initial_barren. }
  set (F := final pb p maxiter seed None om) in *.
  destruct Hbarren as [[HN _]|Hbreeds].
  { rewrite HN in Hb. by destruct Hb. }
  assert (is_Some (best (initial pb p (population F).*1 seed))) as [b0 Hb0].
  { apply initial_best_Some.
    destruct Hbreeds as [?|Hm]; [by left|right].
    pose proof (population_next_length pb p ck0) as Hlen.
    rewrite <- Hck0 in Hlen.
    destruct (population F); [simpl in Hlen; lia|done]. }
  unfold final, start.
  pose proof (generations_no_worse pb p maxiter
    (maxiter - generation (initial pb p (population F).*1 seed))
    (initial pb p (population F).*1 seed)) as Hnw.
  rewrite Hb0 in Hnw.
  destruct (best (generations _ _ _ _ _)); [by eexists|done].
Qed.

(** The same for the local optimiser. *)
Lemma ls_resume_exact mx (ls : LocalSearch X Inner) x0 maxiter om :
  ls_final pb mx ls x0 maxiter
    (last (ls_save_file pb mx ls x0 maxiter None om)) false
  = ls_final pb mx ls x0 maxiter None om.
Proof.
  destruct (last _) as [ck|] eqn:Hl; [|by destruct om].
  apply ls_final_from_saved. by apply last_Some_elem_of.
Qed.

Lemma ls_final_no_worse mx (ls : LocalSearch X Inner) x0 maxiter :
  at_least_as_good mx
    (ls_best (ls_final pb mx ls x0 maxiter None true)).2
    (fitness_fn pb x0) = true.
Proof. unfold ls_final. apply ls_iterations_no_worse. Qed.

(** The score a run of [CoreRun] returns and the directory it leaves,
    in terms of the final states of its optimisers. *)
Lemma core_run_y (settings : RunSettings X Rng Inner) :
  y <$> (core_run pb settings).1
  = match local_optimizer settings,
          best (final pb (maximizing (ga_options settings))
                  (ga_maxiter settings) (run_seed settings)
                  (resume_from settings ≫= ga_checkpoint)
                  (only_models settings)) with
    | Some (ls, ls_maxiter), Some b =>
        Some (ls_best (ls_final pb true ls b.1 ls_maxiter
                         (resume_from settings ≫= ls_checkpoint)
                         (only_models settings))).2
    | Some _, None => None
    | None, b => snd <$> b
    end.
Proof.
  unfold core_run, optimize.
  destruct (local_optimizer settings) as [[ls ls_maxiter]|];
    by destruct (best _).
Qed.

Lemma core_run_dir (settings : RunSettings X Rng Inner) :
  (core_run pb settings).2
  = {| ga_checkpoint :=
         last (save_file pb (maximizing (ga_options settings))
                 (ga_maxiter settings) (run_seed settings)
                 (resume_from settings ≫= ga_checkpoint)
                 (only_models settings));
       ls_checkpoint :=
         match local_optimizer settings,
               best (final pb (maximizing (ga_options settings))
                       (ga_maxiter settings) (run_seed settings)
                       (resume_from settings ≫= ga_checkpoint)
                       (only_models settings)) with
         | Some (ls, ls_maxiter), Some b =>
             last (ls_save_file pb true ls b.1 ls_maxiter
                     (resume_from settings ≫= ls_checkpoint)
                     (only_models settings))
         | _, _ => None
         end |}.
Proof.
  unfold core_run, optimize.
  destruct (local_optimizer settings) as [[ls ls_maxiter]|];
    by destruct (best _).
Qed.

End core_run_facts.



(** The run of [hill_settings] ends at -400, and so does the run
    resumed from its directory; resumed from the models only it gets
    to -169. *)
Lemma hill_resumed :
  y <$> (core_run hill hill_settings).1 = Some (-400)%Z ∧
  y <$> (core_run hill
           (resumed hill_settings (core_run hill hill_settings).2 false)).1
  = Some (-400)%Z ∧
  y <$> (core_run hill
           (resumed hill_settings (core_run hill hill_settings).2 true)).1
  = Some (-169)%Z.
Proof. split_and!; by vm_compute. Qed.


End OptimizerFacts.
